(** * pngparser: the chunk reader, the integrity check and the typed decoders

    A shallow embedding of [pngparser.py] (Python 2).  A Python [str] is a
    byte string and is modelled as a list of bytes; Python integers are
    unbounded and are modelled in [Z]; the float of [gAMA] and [cHRM] is an
    IEEE binary64 value.  Exceptions are values of [exn]; code that can raise
    returns a [result].  The decoder classes assign attributes of [self] one
    by one and keep references to other objects, so they run over a store of
    objects ([heap]) in the monad [M].  The loop of the [__main__] block runs
    over the store and the list of what it has printed, in the monad [IO]. *)

From Stdlib Require Import ZArith List Lia Bool.
From Stdlib.Strings Require Import Byte String.
From Stdlib Require Import Uint63 PrimFloat.
From stdpp Require Import gmap strings list.

Set Warnings "-inexact-float,-register-all".

Local Open Scope Z_scope.

(** ** Byte strings *)

Abbreviation bytes := (list byte).

(** [ord(c)] of a one-character string. *)
Definition ord (c : byte) : Z := Z.of_N (Byte.to_N c).

(** [len(s)]. *)
Definition len (s : bytes) : Z := Z.of_nat (length s).

(** A [str] literal of the source. *)
Definition str (s : string) : bytes := list_byte_of_string s.

(** [s.startswith(p)]. *)
Fixpoint startswith (s p : bytes) {struct p} : bool :=
  match p, s with
  | [], _ => true
  | _ :: _, [] => false
  | b :: p', c :: s' => Byte.eqb b c && startswith s' p'
  end.

(** [s == t]. *)
Fixpoint str_eqb (s t : bytes) : bool :=
  match s, t with
  | [], [] => true
  | b :: s', c :: t' => Byte.eqb b c && str_eqb s' t'
  | _, _ => false
  end.

(** The bound of a slice, as Python clamps it: a negative index counts from
    the end, and everything is cut to [0 .. len]. *)
Definition clamp (n i : Z) : Z :=
  if i <? 0 then Z.max 0 (n + i) else Z.min i n.

(** [s[lo:hi]]. *)
Definition slice (s : bytes) (lo hi : Z) : bytes :=
  let lo' := clamp (len s) lo in
  let hi' := clamp (len s) hi in
  firstn (Z.to_nat (hi' - lo')) (skipn (Z.to_nat lo') s).

(** [s[lo:]]. *)
Definition slice_from (s : bytes) (lo : Z) : bytes :=
  skipn (Z.to_nat (clamp (len s) lo)) s.

(** ** Exceptions *)

Inductive exn : Type :=
| ParseError (value : string)     (* the parser's own exception class *)
| struct_error (msg : string)     (* struct.error *)
| IndexError (msg : string)
| TypeError
| AttributeError
| zlib_error.

Inductive result (A : Type) : Type :=
| Ok (a : A)
| Raise (e : exn).
Arguments Ok {A} a.
Arguments Raise {A} e.

Definition rbind {A B} (r : result A) (k : A -> result B) : result B :=
  match r with
  | Ok a => k a
  | Raise e => Raise e
  end.

Declare Scope result_scope.
Delimit Scope result_scope with result.
Notation "x <- e ;; k" := (rbind e (fun x => k))
  (at level 100, e at next level, k at level 200, right associativity)
  : result_scope.

(** [s[i]] for a string: [IndexError] outside [-len .. len-1]. *)
Definition index (s : bytes) (i : Z) : result byte :=
  let j := if i <? 0 then len s + i else i in
  if j <? 0 then Raise (IndexError "string index out of range")
  else match nth_error s (Z.to_nat j) with
       | Some c => Ok c
       | None => Raise (IndexError "string index out of range")
       end.

(** ** [struct] *)

(** The unsigned integer a byte string spells, most significant byte first. *)
Definition be_uint (s : bytes) : Z :=
  fold_left (fun acc c => acc * 256 + ord c) s 0.

(** The same, least significant byte first. *)
Definition le_uint (s : bytes) : Z := be_uint (rev s).

(** Two's complement reading of an unsigned 32-bit value. *)
Definition to_signed32 (n : Z) : Z :=
  if n <? 2 ^ 31 then n else n - 2 ^ 32.

(** [struct.unpack] refuses a string whose length is not the size of the
    format. *)
Definition unpack_size_error (n : Z) : exn :=
  struct_error
    (match n with
     | 1 => "unpack requires a string argument of length 1"
     | 2 => "unpack requires a string argument of length 2"
     | 4 => "unpack requires a string argument of length 4"
     | _ => "unpack requires a string argument of length 6"
     end).

Definition sized (n : Z) (s : bytes) : result bytes :=
  if len s =? n then Ok s else Raise (unpack_size_error n).

Local Open Scope result_scope.

(** [struct.unpack(">I", s)[0]]. *)
Definition unpack_I (s : bytes) : result Z :=
  s <- sized 4 s ;; Ok (be_uint s).

(** [struct.unpack(">i", s)[0]]. *)
Definition unpack_i (s : bytes) : result Z :=
  s <- sized 4 s ;; Ok (to_signed32 (be_uint s)).

(** [struct.unpack(">4s", s)[0]]. *)
Definition unpack_4s (s : bytes) : result bytes :=
  sized 4 s.

(** [struct.unpack(">H", s)[0]]. *)
Definition unpack_H (s : bytes) : result Z :=
  s <- sized 2 s ;; Ok (be_uint s).

(** [struct.unpack(">HHH", s)]: a tuple of three. *)
Definition unpack_HHH (s : bytes) : result (list Z) :=
  s <- sized 6 s ;;
  Ok [be_uint (slice s 0 2); be_uint (slice s 2 4); be_uint (slice s 4 6)].

(** [struct.unpack(">B", c)[0]] for a one-character string [c]. *)
Definition unpack_B (c : byte) : result Z :=
  s <- sized 1 [c] ;; Ok (be_uint s).

(** The byte order of the machine, for the formats without [>]. *)
Inductive byteorder := little | big.

(** The four bytes of [n mod 2^32], most significant first. *)
Definition be_bytes4 (n : Z) : bytes :=
  map (fun k => match Byte.of_N (Z.to_N ((n / 256 ^ k) mod 256)) with
                | Some c => c
                | None => x00
                end) [3; 2; 1; 0].

(** [struct.pack("i", n)]: [struct.error] outside the signed 32-bit range. *)
Definition pack_native_i (bo : byteorder) (n : Z) : result bytes :=
  if (- 2 ^ 31 <=? n) && (n <? 2 ^ 31)
  then Ok (match bo with
           | big => be_bytes4 n
           | little => rev (be_bytes4 n)
           end)
  else Raise (struct_error
                "'i' format requires -2147483648 <= number <= 2147483647").

(** [struct.unpack("I", s)[0]]. *)
Definition unpack_native_I (bo : byteorder) (s : bytes) : result Z :=
  s <- sized 4 s ;;
  Ok (match bo with
      | big => be_uint s
      | little => le_uint s
      end).

(** ** [binascii.crc32] *)

(** The standard CRC-32 (reflected polynomial [0xEDB88320], initial value and
    final xor [0xFFFFFFFF]), one bit at a time. *)
Definition crc_shift (c : Z) : Z :=
  if Z.testbit c 0
  then Z.lxor (Z.shiftr c 1) 0xEDB88320
  else Z.shiftr c 1.

Definition crc_update (c : Z) (b : byte) : Z :=
  Nat.iter 8 crc_shift (Z.lxor c (ord b)).

Definition crc32_standard (s : bytes) : Z :=
  Z.lxor (fold_left crc_update s 0xFFFFFFFF) 0xFFFFFFFF.

(** Python 2 returns the checksum as a signed 32-bit integer. *)
Definition binascii_crc32 (s : bytes) : Z :=
  to_signed32 (crc32_standard s).

(** ** The reader *)

Definition PNGMAGIC : bytes := [x89; x50; x4e; x47; x0d; x0a; x1a; x0a].

Definition is_png (data : bytes) : bool := startswith data PNGMAGIC.

Module PNGChunk.

Record t := mk {
  type : bytes;
  offset : Z;
  data : bytes;
  crc32 : Z;
  valid : bool;
  term_color : bool
}.

(** [PNGChunk.__init__]. *)
Definition init (offset : Z) (chunk_type data : bytes) (crc32 : Z) : t :=
  {| type := chunk_type;
     offset := offset;
     data := data;
     crc32 := crc32;
     valid := binascii_crc32 (chunk_type ++ data) =? crc32;
     term_color := false |}.

(** The number that [__str__] prints as eight hexadecimal digits:
    [struct.unpack("I", struct.pack("i", self.crc32))[0]]. *)
Definition str_crc (bo : byteorder) (self : t) : result Z :=
  s <- pack_native_i bo (crc32 self) ;; unpack_native_I bo s.

End PNGChunk.

(** How an iteration of a generator ends: it is exhausted, it raises, or the
    bound on the number of steps of the model was too small. *)
Inductive ending : Type :=
| StopIteration
| Raised (e : exn)
| Unfinished.

Module PNGFile.

Record t := mk {
  size : Z;
  data : bytes
}.

(** [PNGFile.__init__]. *)
Definition init (data : bytes) : result t :=
  if negb (is_png data)
  then Raise (ParseError "Error parsing PNG data. Missing magic header")
  else Ok {| size := len data; data := data |}.

(** The body of the [while] loop of [chunks], from the offset it starts
    with: the chunk it yields and the offset it leaves. *)
Definition chunks_body (self : t) (offset : Z) : result (PNGChunk.t * Z) :=
  let chunk_start := offset in
  chunk_size <- unpack_I (slice (data self) offset (offset + 4)) ;;
  let offset := offset + 4 in
  chunk_type <- unpack_4s (slice (data self) offset (offset + 4)) ;;
  let offset := offset + 4 in
  let chunk_data := slice (data self) offset (offset + chunk_size) in
  let offset := offset + chunk_size in
  chunk_crc32 <- unpack_i (slice (data self) offset (offset + 4)) ;;
  let offset := offset + 4 in
  Ok (PNGChunk.init chunk_start chunk_type chunk_data chunk_crc32, offset).

(** The loop: the chunks yielded, in order, and how the iteration ends. *)
Fixpoint chunks_from (fuel : nat) (self : t) (offset : Z)
  : list PNGChunk.t * ending :=
  match fuel with
  | O => ([], Unfinished)
  | S fuel' =>
      if offset <? len (data self) then
        match chunks_body self offset with
        | Raise e => ([], Raised e)
        | Ok (chunk, offset') =>
            let (rest, e) := chunks_from fuel' self offset' in
            (chunk :: rest, e)
        end
      else ([], StopIteration)
  end.

(** The property [chunks].  Every pass of the loop moves the offset
    forward, so the length of the data bounds the number of passes. *)
Definition chunks (self : t) : list PNGChunk.t * ending :=
  chunks_from (S (length (data self))) self (len PNGMAGIC).

End PNGFile.

Local Close Scope result_scope.

(** ** Objects

    An instance is a dictionary of attributes, the store maps references to
    instances.  A value is what an attribute or a variable can hold. *)

Definition loc := positive.

Inductive pyval : Type :=
| VNone
| VBool (b : bool)
| VInt (n : Z)
| VFloat (x : float)
| VStr (s : bytes)
| VTuple (vs : list pyval)
| VRef (l : loc).

Abbreviation object := (gmap string pyval).
Abbreviation heap := (gmap loc object).

(** Code that reads and writes the store and may raise. *)
Definition M (A : Type) : Type := heap -> result A * heap.

Definition ret {A} (a : A) : M A := fun h => (Ok a, h).

Definition raise {A} (e : exn) : M A := fun h => (Raise e, h).

Definition lift {A} (r : result A) : M A := fun h => (r, h).

Definition bind {A B} (m : M A) (k : A -> M B) : M B :=
  fun h =>
    match m h with
    | (Ok a, h') => k a h'
    | (Raise e, h') => (Raise e, h')
    end.

Declare Scope M_scope.
Delimit Scope M_scope with M.
Bind Scope M_scope with M.
Notation "x <- e ;; k" := (bind e (fun x => k))
  (at level 100, e at next level, k at level 200, right associativity)
  : M_scope.
Notation "e ;; k" := (bind e (fun _ => k))
  (at level 100, k at level 200, right associativity) : M_scope.

(** [o.name]. *)
Definition getattr (o : pyval) (name : string) : M pyval :=
  fun h =>
    match o with
    | VRef l =>
        match h !! l ≫= (fun ob => ob !! name) with
        | Some v => (Ok v, h)
        | None => (Raise AttributeError, h)
        end
    | _ => (Raise AttributeError, h)
    end.

(** [self.name = v]. *)
Definition setattr (self : loc) (name : string) (v : pyval) : M unit :=
  fun h => (Ok tt, alter (insert name v) self h).

(** A new instance, with no attribute of its own yet.  The attributes of
    the class [Parser] ([color], [verbose], [_dumpdir], [data], [type]) are
    read by the rendering and by the [dumpdir] setter only, never by an
    [__init__], and are left out. *)
Definition new_instance : M loc :=
  fun h => let l := fresh (dom h) in (Ok l, <[l := ∅]> h).

(** Subscripts need a string; the reader puts nothing else in [chunk.data]. *)
Definition as_str (v : pyval) : M bytes :=
  match v with
  | VStr s => ret s
  | _ => raise TypeError
  end.

(** [data[i]]. *)
Definition getitem (data : pyval) (i : Z) : M byte :=
  (s <- as_str data ;; lift (index s i))%M.

(** [data[lo:hi]]. *)
Definition getslice (data : pyval) (lo hi : Z) : M bytes :=
  (s <- as_str data ;; ret (slice s lo hi))%M.

(** [data[lo:]]. *)
Definition getslice_from (data : pyval) (lo : Z) : M bytes :=
  (s <- as_str data ;; ret (slice_from s lo))%M.

(** [v == n] for an integer literal [n]. *)
Definition eq_int (v : pyval) (n : Z) : bool :=
  match v with
  | VInt m => m =? n
  | VBool b => (if b then 1 else 0) =? n
  | _ => false
  end.

(** [n / 100000.] for an integer [n]: the integer becomes a float (exactly,
    below [2^53]) and the division is the IEEE one. *)
Definition div_100000 (n : Z) : float :=
  PrimFloat.div (PrimFloat.of_uint63 (Uint63.of_Z n)) 100000%float.

(** [zlib.decompress], a function of the Python library: [None] when it
    raises [zlib.error]. *)
Class Zlib := { zlib_decompress : bytes -> option bytes }.

Definition decompress `{Zlib} (s : bytes) : M bytes :=
  match zlib_decompress s with
  | Some t => ret t
  | None => raise zlib_error
  end.

Local Open Scope M_scope.

(** ** The decoders *)

(** [Parser.__init__]. *)
Definition Parser_init (self : loc) (value : bytes) (offset : pyval) : M unit :=
  setattr self "type" (VStr value) ;;
  setattr self "offset" offset.

(** The loop that reads a null-terminated field into [self.name]:
<<
        while True:
            if ord(data[offset]) == 0x00:
                offset += 1
                break
            self.name += data[offset]
            offset += 1
>>
    [rest] is [data[offset:]]: it is empty when [data[offset]] is out of
    range.  The offset starts at 0 and only grows, so it is never negative
    here.  The result is the offset after the loop. *)
Fixpoint read_cstring (self : loc) (name : string) (rest : bytes) (offset : Z)
  : M Z :=
  match rest with
  | [] => raise (IndexError "string index out of range")
  | c :: rest' =>
      if ord c =? 0 then ret (offset + 1)
      else
        old <- getattr (VRef self) name ;;
        s <- as_str old ;;
        setattr self name (VStr (s ++ [c])) ;;
        read_cstring self name rest' (offset + 1)
  end.

Definition while_cstring (self : loc) (name : string) (data : pyval)
  (offset : Z) : M Z :=
  rest <- getslice_from data offset ;;
  read_cstring self name rest offset.

(** [struct.unpack(">B", data[i])[0]]. *)
Definition unpack_B_at (data : pyval) (i : Z) : M Z :=
  c <- getitem data i ;; lift (unpack_B c).

(** [struct.unpack(">I", data[lo:hi])[0]]. *)
Definition unpack_I_at (data : pyval) (lo hi : Z) : M Z :=
  s <- getslice data lo hi ;; lift (unpack_I s).

(** [struct.unpack(">H", data[lo:hi])[0]]. *)
Definition unpack_H_at (data : pyval) (lo hi : Z) : M Z :=
  s <- getslice data lo hi ;; lift (unpack_H s).

(** [IHDR.__init__]. *)
Definition IHDR_init (self : loc) (_ : pyval) (chunk : pyval) : M unit :=
  offset <- getattr chunk "offset" ;;
  Parser_init self (str "IHDR") offset ;;
  data <- getattr chunk "data" ;;
  width <- unpack_I_at data 0 4 ;;
  setattr self "width" (VInt width) ;;
  height <- unpack_I_at data 4 8 ;;
  setattr self "height" (VInt height) ;;
  bit_depth <- unpack_B_at data 8 ;;
  setattr self "bit_depth" (VInt bit_depth) ;;
  color_type <- unpack_B_at data 9 ;;
  setattr self "color_type" (VInt color_type) ;;
  compression_method <- unpack_B_at data 10 ;;
  setattr self "compression_method" (VInt compression_method) ;;
  filter_method <- unpack_B_at data 11 ;;
  setattr self "filter_method" (VInt filter_method) ;;
  interlace_method <- unpack_B_at data 12 ;;
  setattr self "interlace_method" (VInt interlace_method).

(** [sRGB.__init__]. *)
Definition sRGB_init (self : loc) (ihdr : pyval) (chunk : pyval) : M unit :=
  offset <- getattr chunk "offset" ;;
  Parser_init self (str "sRGB") offset ;;
  setattr self "ihdr" ihdr ;;
  data <- getattr chunk "data" ;;
  intent <- unpack_B_at data 0 ;;
  setattr self "intent" (VInt intent).

(** [bKGD.__init__].  The comparisons read [ihdr.color_type] again and again;
    reading has no effect and the attribute is read once here. *)
Definition bKGD_init (self : loc) (ihdr : pyval) (chunk : pyval) : M unit :=
  offset <- getattr chunk "offset" ;;
  Parser_init self (str "bKGD") offset ;;
  data <- getattr chunk "data" ;;
  setattr self "ihdr" ihdr ;;
  match ihdr with
  | VNone => raise (ParseError "IHDR is not set")
  | _ =>
      color_type <- getattr ihdr "color_type" ;;
      if eq_int color_type 3 then
        v <- unpack_B_at data 0 ;;
        setattr self "value" (VInt v) ;;
        setattr self "vtype" (VStr (str "Palette Index"))
      else if eq_int color_type 0 || eq_int color_type 4 then
        v <- unpack_H_at data 0 2 ;;
        setattr self "value" (VInt v) ;;
        setattr self "vtype" (VStr (str "Grayscale"))
      else if eq_int color_type 2 || eq_int color_type 6 then
        s <- getslice data 0 6 ;;
        v <- lift (unpack_HHH s) ;;
        setattr self "value" (VTuple (map VInt v)) ;;
        setattr self "vtype" (VStr (str "RGB tripplet"))
      else
        setattr self "value" VNone ;;
        setattr self "vtype" (VStr (str "UNKNOWN"))
  end.

(** [pHYs.__init__]. *)
Definition pHYs_init (self : loc) (ihdr : pyval) (chunk : pyval) : M unit :=
  offset <- getattr chunk "offset" ;;
  Parser_init self (str "pHYs") offset ;;
  data <- getattr chunk "data" ;;
  setattr self "ihdr" ihdr ;;
  ppux <- unpack_I_at data 0 4 ;;
  setattr self "ppux" (VInt ppux) ;;
  ppuy <- unpack_I_at data 4 8 ;;
  setattr self "ppuy" (VInt ppuy) ;;
  unit <- unpack_B_at data 8 ;;
  setattr self "unit" (VInt unit).

(** [tIME.__init__]. *)
Definition tIME_init (self : loc) (_ : pyval) (chunk : pyval) : M unit :=
  offset <- getattr chunk "offset" ;;
  Parser_init self (str "tIME") offset ;;
  data <- getattr chunk "data" ;;
  year <- unpack_H_at data 0 2 ;;
  setattr self "year" (VInt year) ;;
  month <- unpack_B_at data 2 ;;
  setattr self "month" (VInt month) ;;
  day <- unpack_B_at data 3 ;;
  setattr self "day" (VInt day) ;;
  hour <- unpack_B_at data 4 ;;
  setattr self "hour" (VInt hour) ;;
  minute <- unpack_B_at data 5 ;;
  setattr self "minute" (VInt minute) ;;
  second <- unpack_B_at data 6 ;;
  setattr self "second" (VInt second).

(** [iCCP.__init__]. *)
Definition iCCP_init `{Zlib} (self : loc) (_ : pyval) (chunk : pyval)
  : M unit :=
  offset <- getattr chunk "offset" ;;
  Parser_init self (str "iCCP") offset ;;
  data <- getattr chunk "data" ;;
  setattr self "profile_name" (VStr []) ;;
  let offset := 0 in
  offset <- while_cstring self "profile_name" data offset ;;
  let offset := offset + 1 in
  compression_method <- unpack_B_at data offset ;;
  setattr self "compression_method" (VInt compression_method) ;;
  let offset := offset + 1 in
  compressed_profile <- getslice_from data offset ;;
  setattr self "compressed_profile" (VStr compressed_profile) ;;
  if compression_method =? 0 then
    profile <- decompress compressed_profile ;;
    setattr self "compressed_profile" (VStr profile)
  else ret tt.

(** [tEXt.__init__]. *)
Definition tEXt_init (self : loc) (_ : pyval) (chunk : pyval) : M unit :=
  offset <- getattr chunk "offset" ;;
  Parser_init self (str "tEXt") offset ;;
  data <- getattr chunk "data" ;;
  setattr self "keyword" (VStr []) ;;
  let offset := 0 in
  offset <- while_cstring self "keyword" data offset ;;
  text <- getslice_from data offset ;;
  setattr self "data" (VStr text).

(** [zTXt.__init__]. *)
Definition zTXt_init `{Zlib} (self : loc) (_ : pyval) (chunk : pyval)
  : M unit :=
  offset <- getattr chunk "offset" ;;
  Parser_init self (str "zTXt") offset ;;
  data <- getattr chunk "data" ;;
  setattr self "keyword" (VStr []) ;;
  let offset := 0 in
  offset <- while_cstring self "keyword" data offset ;;
  let offset := offset + 1 in
  compressed <- getslice_from data offset ;;
  text <- decompress compressed ;;
  setattr self "data" (VStr text).

(** [iTXt.__init__]. *)
Definition iTXt_init `{Zlib} (self : loc) (_ : pyval) (chunk : pyval)
  : M unit :=
  offset <- getattr chunk "offset" ;;
  Parser_init self (str "iTXt") offset ;;
  data <- getattr chunk "data" ;;
  setattr self "keyword" (VStr []) ;;
  let offset := 0 in
  offset <- while_cstring self "keyword" data offset ;;
  flag <- unpack_B_at data offset ;;
  let compression_flag := flag =? 1 in
  setattr self "compression_flag" (VBool compression_flag) ;;
  let offset := offset + 1 in
  compression_method <- unpack_B_at data offset ;;
  setattr self "compression_method" (VInt compression_method) ;;
  let offset := offset + 1 in
  setattr self "language_tag" (VStr []) ;;
  offset <- while_cstring self "language_tag" data offset ;;
  setattr self "translate_keyword" (VStr []) ;;
  offset <- while_cstring self "translate_keyword" data offset ;;
  text <- getslice_from data offset ;;
  setattr self "data" (VStr text) ;;
  if compression_flag && (compression_method =? 0) then
    text <- decompress text ;;
    setattr self "data" (VStr text)
  else ret tt.

(** [pCAL.__init__]. *)
Definition pCAL_init (self : loc) (_ : pyval) (chunk : pyval) : M unit :=
  offset <- getattr chunk "offset" ;;
  Parser_init self (str "pCAL") offset ;;
  data <- getattr chunk "data" ;;
  setattr self "calibration_name" (VStr []) ;;
  let offset := 0 in
  offset <- while_cstring self "calibration_name" data offset ;;
  x0 <- unpack_I_at data offset (offset + 4) ;;
  setattr self "x0" (VInt x0) ;;
  let offset := offset + 4 in
  x1 <- unpack_I_at data offset (offset + 4) ;;
  setattr self "x1" (VInt x1) ;;
  let offset := offset + 4 in
  eqtype <- unpack_B_at data offset ;;
  setattr self "eqtype" (VInt eqtype) ;;
  let offset := offset + 1 in
  num_params <- unpack_B_at data offset ;;
  setattr self "num_params" (VInt num_params) ;;
  let offset := offset + 1 in
  setattr self "unit_name" (VStr []) ;;
  offset <- while_cstring self "unit_name" data offset ;;
  setattr self "p0" (VStr []) ;;
  offset <- while_cstring self "p0" data offset ;;
  pl <- getslice_from data offset ;;
  setattr self "pl" (VStr pl).

(** [cHRM.__init__]. *)
Definition cHRM_init (self : loc) (_ : pyval) (chunk : pyval) : M unit :=
  offset <- getattr chunk "offset" ;;
  Parser_init self (str "cHRM") offset ;;
  data <- getattr chunk "data" ;;
  wpx <- unpack_I_at data 0 4 ;;
  setattr self "wpx" (VFloat (div_100000 wpx)) ;;
  wpy <- unpack_I_at data 4 8 ;;
  setattr self "wpy" (VFloat (div_100000 wpy)) ;;
  redx <- unpack_I_at data 8 12 ;;
  setattr self "redx" (VFloat (div_100000 redx)) ;;
  redy <- unpack_I_at data 12 16 ;;
  setattr self "redy" (VFloat (div_100000 redy)) ;;
  greenx <- unpack_I_at data 16 20 ;;
  setattr self "greenx" (VFloat (div_100000 greenx)) ;;
  greeny <- unpack_I_at data 20 24 ;;
  setattr self "greeny" (VFloat (div_100000 greeny)) ;;
  bluex <- unpack_I_at data 24 28 ;;
  setattr self "bluex" (VFloat (div_100000 bluex)) ;;
  bluey <- unpack_I_at data 28 32 ;;
  setattr self "bluey" (VFloat (div_100000 bluey)).

(** [gAMA.__init__]; [data[:4]] is [data[0:4]]. *)
Definition gAMA_init (self : loc) (_ : pyval) (chunk : pyval) : M unit :=
  offset <- getattr chunk "offset" ;;
  Parser_init self (str "gAMA") offset ;;
  data <- getattr chunk "data" ;;
  gamma <- unpack_I_at data 0 4 ;;
  setattr self "gamma" (VFloat (div_100000 gamma)).

(** A class of the registry, by its [__init__]. *)
Definition parser_class : Type := loc -> pyval -> pyval -> M unit.

(** Calling the class: a new instance, initialised. *)
Definition new (cls : parser_class) (ihdr chunk : pyval) : M pyval :=
  self <- new_instance ;;
  cls self ihdr chunk ;;
  ret (VRef self).

(** The dictionary [chunk_parser], in the order it is written. *)
Definition chunk_parser `{Zlib} : list (bytes * parser_class) :=
  [ (str "IHDR", IHDR_init);
    (str "sRGB", sRGB_init);
    (str "bKGD", bKGD_init);
    (str "pHYs", pHYs_init);
    (str "tIME", tIME_init);
    (str "iCCP", iCCP_init);
    (str "tEXt", tEXt_init);
    (str "zTXt", zTXt_init);
    (str "iTXt", iTXt_init);
    (str "pCAL", pCAL_init);
    (str "cHRM", cHRM_init);
    (str "gAMA", gAMA_init) ].

(** [chunk_parser.get(key, None)]. *)
Definition chunk_parser_get `{Zlib} (key : bytes) : option parser_class :=
  snd <$> find (fun kv => str_eqb (fst kv) key) chunk_parser.

(** The instance the reader's chunk is in the store: its attributes. *)
Definition chunk_object (c : PNGChunk.t) : object :=
  <["type" := VStr (PNGChunk.type c)]>
  (<["offset" := VInt (PNGChunk.offset c)]>
  (<["data" := VStr (PNGChunk.data c)]>
  (<["crc32" := VInt (PNGChunk.crc32 c)]>
  (<["valid" := VBool (PNGChunk.valid c)]>
  (<["term_color" := VBool (PNGChunk.term_color c)]> ∅))))).

Local Close Scope M_scope.

(** Building the file and iterating its chunks, as the driver does with
    [png = PNGFile(...)] and [for _chunk in png.chunks]. *)
Definition scan (data : bytes) : list PNGChunk.t * ending :=
  match PNGFile.init data with
  | Raise e => ([], Raised e)
  | Ok png => PNGFile.chunks png
  end.

(** The errors the parser reports itself are the [ParseError]s: the class the
    program defines, and the only one its driver catches. *)
Definition is_ParseError (e : exn) : bool :=
  match e with
  | ParseError _ => true
  | _ => false
  end.

(** The length that the chunk starting at [offset] declares. *)
Definition declared_length (data : bytes) (offset : Z) : Z :=
  be_uint (slice data offset (offset + 4)).

(** One of the four reads of the chunk starting at [offset] (length, type,
    payload, checksum) would run past the end of the data. *)
Definition overrun (data : bytes) (offset : Z) : Prop :=
  len data < offset + 8 \/
  len data < offset + 12 + declared_length data offset.

(** The chunk that lies at [offset] in the data, when nothing overruns. *)
Definition chunk_at (data : bytes) (offset : Z) : PNGChunk.t :=
  let n := declared_length data offset in
  PNGChunk.init offset
    (slice data (offset + 4) (offset + 8))
    (slice data (offset + 8) (offset + 8 + n))
    (to_signed32 (be_uint (slice data (offset + 8 + n) (offset + 12 + n)))).

(** The loop of [chunks] comes to the top with this offset, having yielded
    these chunks. *)
Inductive reaches (self : PNGFile.t) : Z -> list PNGChunk.t -> Prop :=
| reaches_start : reaches self (len PNGMAGIC) []
| reaches_next offset yielded chunk offset' :
    reaches self offset yielded ->
    offset < len (PNGFile.data self) ->
    PNGFile.chunks_body self offset = Ok (chunk, offset') ->
    reaches self offset' (yielded ++ [chunk]).

(** Passes of the loop that are enough from [offset]: each one moves the
    offset forward. *)
Definition passes_left (self : PNGFile.t) (offset : Z) : nat :=
  Z.to_nat (len (PNGFile.data self) - offset).

(** Sample data: a file that is the signature and an [IEND] chunk, the same
    cut inside its length field, and the same followed by a [tEXt] chunk that
    declares five bytes and has two. *)
Definition IEND_chunk : bytes :=
  [x00; x00; x00; x00] ++ str "IEND" ++ [xae; x42; x60; x82].

Definition png_IEND : bytes := PNGMAGIC ++ IEND_chunk.

Definition png_cut_at_8 : bytes := PNGMAGIC ++ [x00; x00].

Definition png_cut_at_20 : bytes :=
  PNGMAGIC ++ IEND_chunk ++ [x00; x00; x00; x05] ++ str "tEXt" ++ str "ab".

(** The four bytes after the payload of a chunk, in the data it was read
    from. *)
Definition stored_checksum (data : bytes) (c : PNGChunk.t) : bytes :=
  slice data
    (PNGChunk.offset c + 8 + len (PNGChunk.data c))
    (PNGChunk.offset c + 12 + len (PNGChunk.data c)).

(** [o.name] in a store, when there is such an attribute. *)
Definition attr (h : heap) (o : pyval) (name : string) : option pyval :=
  match o with
  | VRef l => h !! l ≫= (fun ob => ob !! name)
  | _ => None
  end.

(** A [zlib] that refuses every input, to run the decoders on samples. *)
Definition zlib_refuses : Zlib := {| zlib_decompress := fun _ => None |}.

(** The code [m], run for the instance [self], leaves every other instance
    of the store as it is. *)
Definition preserves {A} (self : loc) (m : M A) : Prop :=
  forall h l, l <> self -> snd (m h) !! l = h !! l.

(** The instance after [Parser.__init__]. *)
Definition parser_object (value : bytes) (offset : Z) : object :=
  <["offset" := VInt offset]> (<["type" := VStr value]> ∅).

(** [data[i]] of a string that is long enough. *)
Definition byte_at (data : bytes) (i : nat) : Z := ord (nth i data x00).

(** The instance that [IHDR] builds from a chunk at [offset] with the
    payload [data]. *)
Definition IHDR_object (offset : Z) (data : bytes) : object :=
  <["interlace_method" := VInt (byte_at data 12)]>
  (<["filter_method" := VInt (byte_at data 11)]>
  (<["compression_method" := VInt (byte_at data 10)]>
  (<["color_type" := VInt (byte_at data 9)]>
  (<["bit_depth" := VInt (byte_at data 8)]>
  (<["height" := VInt (be_uint (slice data 4 8))]>
  (<["width" := VInt (be_uint (slice data 0 4))]>
  (parser_object (str "IHDR") offset))))))).

(** The instance that [pHYs] builds, with the header it was given. *)
Definition pHYs_object (ihdr : pyval) (offset : Z) (data : bytes) : object :=
  <["unit" := VInt (byte_at data 8)]>
  (<["ppuy" := VInt (be_uint (slice data 4 8))]>
  (<["ppux" := VInt (be_uint (slice data 0 4))]>
  (<["ihdr" := ihdr]>
  (parser_object (str "pHYs") offset)))).

(** The bytes before the first zero byte and the bytes after it; nothing
    when there is no zero byte. *)
Fixpoint cstring (s : bytes) : option (bytes * bytes) :=
  match s with
  | [] => None
  | c :: s' =>
      if ord c =? 0 then Some ([], s')
      else match cstring s' with
           | Some (field, rest) => Some (c :: field, rest)
           | None => None
           end
  end.

(** The payload [data] has the bytes [rest] from [offset] on. *)
Definition at_offset (data : bytes) (offset : Z) (rest : bytes) : Prop :=
  0 <= offset /\ skipn (Z.to_nat offset) data = rest.

(** The instance that [pCAL] builds. *)
Definition pCAL_object (offset : Z) (name : bytes) (x0 x1 eqtype num_params : Z)
  (unit_name p0 pl : bytes) : object :=
  <["pl" := VStr pl]>
  (<["p0" := VStr p0]>
  (<["unit_name" := VStr unit_name]>
  (<["num_params" := VInt num_params]>
  (<["eqtype" := VInt eqtype]>
  (<["x1" := VInt x1]>
  (<["x0" := VInt x0]>
  (<["calibration_name" := VStr name]>
  (parser_object (str "pCAL") offset)))))))).

(** Sample data: the signature and a header chunk of a picture of one pixel,
    and the same with the last byte of the payload changed and the checksum
    left as it was. *)
Definition png_IHDR : bytes :=
  PNGMAGIC ++ [x00; x00; x00; x0d] ++ str "IHDR"
    ++ [x00; x00; x00; x01; x00; x00; x00; x01; x08; x02; x00; x00; x00]
    ++ [x90; x77; x53; xde].

Definition png_IHDR_flipped : bytes :=
  PNGMAGIC ++ [x00; x00; x00; x0d] ++ str "IHDR"
    ++ [x00; x00; x00; x01; x00; x00; x00; x01; x08; x02; x00; x00; x01]
    ++ [x90; x77; x53; xde].

(** Sample data: the payload of a [pCAL] chunk named "cal", whose [x0] is
    the four bytes [FF FF FF FF] and whose [x1] is [80 00 00 00]. *)
Definition pCAL_payload : bytes :=
  str "cal" ++ x00 :: [xff; xff; xff; xff] ++ [x80; x00; x00; x00]
    ++ x00 :: x01 :: str "m" ++ x00 :: str "1" ++ x00 :: [].

(** Two chunks that differ at most in their checksum and their validity. *)
Definition same_but_checksum (c c' : PNGChunk.t) : Prop :=
  PNGChunk.type c = PNGChunk.type c' /\
  PNGChunk.offset c = PNGChunk.offset c' /\
  PNGChunk.data c = PNGChunk.data c' /\
  PNGChunk.term_color c = PNGChunk.term_color c'.

(** Two stores that are the same but for the checksum and the validity of
    the chunk at [r]. *)
Definition same_but_checksum_at (r : loc) (h1 h2 : heap) : Prop :=
  (forall l, l <> r -> h1 !! l = h2 !! l) /\
  exists c c',
    same_but_checksum c c' /\
    h1 !! r = Some (chunk_object c) /\
    h2 !! r = Some (chunk_object c').

(** The code [m] does not see the checksum or the validity of the chunk at
    [r]: on two such stores it gives the same result and leaves two such
    stores. *)
Definition blind {A} (r : loc) (m : M A) : Prop :=
  forall h1 h2,
    same_but_checksum_at r h1 h2 ->
    fst (m h1) = fst (m h2) /\
    same_but_checksum_at r (snd (m h1)) (snd (m h2)).

(** The chunk with the type, the offset and the payload of [c] and the
    checksum that [binascii.crc32] gives for them. *)
Definition with_matching_checksum (c : PNGChunk.t) : PNGChunk.t :=
  PNGChunk.init (PNGChunk.offset c) (PNGChunk.type c) (PNGChunk.data c)
    (binascii_crc32 (PNGChunk.type c ++ PNGChunk.data c)).

(** ** Streams, to state what the reader gives back *)

(** Where the chunk after [c] starts. *)
Definition next_offset (c : PNGChunk.t) : Z :=
  PNGChunk.offset c + 12 + len (PNGChunk.data c).

(** The chunks lie one after the other from [offset] on. *)
Fixpoint tiles (offset : Z) (cs : list PNGChunk.t) : Prop :=
  match cs with
  | [] => True
  | c :: cs' => PNGChunk.offset c = offset /\ tiles (next_offset c) cs'
  end.

(** The bytes the chunks take in the data: twelve and the payload, each. *)
Fixpoint span (cs : list PNGChunk.t) : Z :=
  match cs with
  | [] => 0
  | c :: cs' => 12 + len (PNGChunk.data c) + span cs'
  end.

(** A chunk written out: length, type, payload, checksum. *)
Definition chunk_bytes (chunk : bytes * bytes * bytes) : bytes :=
  let '(chunk_type, data, checksum) := chunk in
  be_bytes4 (len data) ++ chunk_type ++ data ++ checksum.

(** A file written out: the signature and the chunks, one after the other. *)
Definition file_bytes (chunks : list (bytes * bytes * bytes)) : bytes :=
  PNGMAGIC ++ concat (map chunk_bytes chunks).

(** The [PNGChunk] instances of the chunks of a file written out, the first
    of them lying at [offset]. *)
Fixpoint chunks_of (offset : Z) (chunks : list (bytes * bytes * bytes))
  : list PNGChunk.t :=
  match chunks with
  | [] => []
  | (chunk_type, data, checksum) :: rest =>
      PNGChunk.init offset chunk_type data (to_signed32 (be_uint checksum))
        :: chunks_of (offset + 12 + len data) rest
  end.

(** A type of four bytes, a payload that a length field can hold, a checksum
    of four bytes. *)
Definition well_formed (chunk : bytes * bytes * bytes) : Prop :=
  let '(chunk_type, data, checksum) := chunk in
  len chunk_type = 4 /\ len data < 2 ^ 32 /\ len checksum = 4.

(** ** The instances that the decoders build *)

Definition sRGB_object (ihdr : pyval) (offset : Z) (data : bytes) : object :=
  <["intent" := VInt (byte_at data 0)]>
  (<["ihdr" := ihdr]>
  (parser_object (str "sRGB") offset)).

Definition bKGD_object (ihdr : pyval) (offset : Z) (value : pyval)
  (vtype : bytes) : object :=
  <["vtype" := VStr vtype]>
  (<["value" := value]>
  (<["ihdr" := ihdr]>
  (parser_object (str "bKGD") offset))).

Definition tIME_object (offset : Z) (data : bytes) : object :=
  <["second" := VInt (byte_at data 6)]>
  (<["minute" := VInt (byte_at data 5)]>
  (<["hour" := VInt (byte_at data 4)]>
  (<["day" := VInt (byte_at data 3)]>
  (<["month" := VInt (byte_at data 2)]>
  (<["year" := VInt (be_uint (slice data 0 2))]>
  (parser_object (str "tIME") offset)))))).

Definition iCCP_object (offset : Z) (name : bytes) (compression_method : Z)
  (profile : bytes) : object :=
  <["compressed_profile" := VStr profile]>
  (<["compression_method" := VInt compression_method]>
  (<["profile_name" := VStr name]>
  (parser_object (str "iCCP") offset))).

Definition tEXt_object (offset : Z) (keyword text : bytes) : object :=
  <["data" := VStr text]>
  (<["keyword" := VStr keyword]>
  (parser_object (str "tEXt") offset)).

Definition zTXt_object (offset : Z) (keyword text : bytes) : object :=
  <["data" := VStr text]>
  (<["keyword" := VStr keyword]>
  (parser_object (str "zTXt") offset)).

Definition iTXt_object (offset : Z) (keyword : bytes) (compression_flag : bool)
  (compression_method : Z) (language_tag translate_keyword text : bytes)
  : object :=
  <["data" := VStr text]>
  (<["translate_keyword" := VStr translate_keyword]>
  (<["language_tag" := VStr language_tag]>
  (<["compression_method" := VInt compression_method]>
  (<["compression_flag" := VBool compression_flag]>
  (<["keyword" := VStr keyword]>
  (parser_object (str "iTXt") offset)))))).

Definition cHRM_object (offset : Z) (data : bytes) : object :=
  <["bluey" := VFloat (div_100000 (be_uint (slice data 28 32)))]>
  (<["bluex" := VFloat (div_100000 (be_uint (slice data 24 28)))]>
  (<["greeny" := VFloat (div_100000 (be_uint (slice data 20 24)))]>
  (<["greenx" := VFloat (div_100000 (be_uint (slice data 16 20)))]>
  (<["redy" := VFloat (div_100000 (be_uint (slice data 12 16)))]>
  (<["redx" := VFloat (div_100000 (be_uint (slice data 8 12)))]>
  (<["wpy" := VFloat (div_100000 (be_uint (slice data 4 8)))]>
  (<["wpx" := VFloat (div_100000 (be_uint (slice data 0 4)))]>
  (parser_object (str "cHRM") offset)))))))).

Definition gAMA_object (offset : Z) (data : bytes) : object :=
  <["gamma" := VFloat (div_100000 (be_uint (slice data 0 4)))]>
  (parser_object (str "gAMA") offset).

(** A [zlib] that inflates one stream, [zlib.compress("Hi")], and refuses
    every other input; to run the decoders on samples. *)
Definition zlib_sample : Zlib :=
  {| zlib_decompress := fun s =>
       if str_eqb s [x78; x9c; xf3; xc8; x04; x00; x00; xfb; x00; xb2]
       then Some (str "Hi") else None |}.

(** The code [m] leaves the attribute [name] of [self] as it finds it. *)
Definition keeps {A} (self : loc) (name : string) (m : M A) : Prop :=
  forall h v,
    attr h (VRef self) name = Some v ->
    attr (snd (m h)) (VRef self) name = Some v.

(** The code [m] never raises a [ParseError]. *)
Definition no_ParseError {A} (m : M A) : Prop :=
  forall h e, fst (m h) = Raise e -> is_ParseError e = false.

(** ** The driver

    The body of [for f in args.filename] in the [__main__] block, for one
    file whose content is [data], in a run without [--dumpdir].  What the
    program writes is kept as the list of the [print] statements it has
    completed, each with the object it printed: the text that [__str__] makes
    is not modelled, the exceptions it raises are. *)

(** The command line: [args.verbose] and [args.color]; [args.dumpdir] is
    [None]. *)
Record Namespace : Type := { verbose : bool; color : bool }.

Inductive printed : Type :=
| print_hash                                           (* print "#" *)
| print_chunk (_chunk : pyval)                         (* print _chunk *)
| print_p (p : pyval)                                  (* print p *)
| print_rule                              (* print "--------------------" *)
| print_warning (color : bool)    (* "WARNING: Data past IEND block" *)
| print_summary (png : PNGFile.t) (f : string) (n : Z)
                    (* print png, f, "containing", n, "chunks." *)
| print_error (value : string) (f : string).           (* print str(e), f *)

(** Code of the driver: it reads and writes the store, prints, and may
    raise; what was printed before an exception stays printed. *)
Definition IO (A : Type) : Type :=
  heap * list printed -> result A * (heap * list printed).

Definition io_ret {A} (a : A) : IO A := fun s => (Ok a, s).

Definition io_raise {A} (e : exn) : IO A := fun s => (Raise e, s).

Definition io_bind {A B} (m : IO A) (k : A -> IO B) : IO B :=
  fun s =>
    match m s with
    | (Ok a, s') => k a s'
    | (Raise e, s') => (Raise e, s')
    end.

(** Code of the classes, run by the driver. *)
Definition io {A} (m : M A) : IO A :=
  fun s => let (r, h') := m (fst s) in (r, (h', snd s)).

Definition print (o : printed) : IO unit :=
  fun s => (Ok tt, (fst s, snd s ++ [o])).

(** [try: m except ParseError as e: handler(e.value)]. *)
Definition except_ParseError (m : IO unit) (handler : string -> IO unit)
  : IO unit :=
  fun s =>
    match m s with
    | (Raise (ParseError value), s') => handler value s'
    | r => r
    end.

Declare Scope IO_scope.
Delimit Scope IO_scope with IO.
Bind Scope IO_scope with IO.
Notation "x <- e ;; k" := (io_bind e (fun x => k))
  (at level 100, e at next level, k at level 200, right associativity)
  : IO_scope.
Notation "e ;; k" := (io_bind e (fun _ => k))
  (at level 100, k at level 200, right associativity) : IO_scope.

(** The generator hands out the instance it has built: a new object with
    the attributes that [PNGChunk.__init__] sets. *)
Definition yield (c : PNGChunk.t) : M pyval :=
  fun h => let l := fresh (dom h) in (Ok (VRef l), <[l := chunk_object c]> h).

(** [o.name = v]. *)
Definition setattr_of (o : pyval) (name : string) (v : pyval) : M unit :=
  match o with
  | VRef l => setattr l name v
  | _ => raise AttributeError
  end.

(** The attributes that [pHYs.__str__] reads, in its order:
<<
        unit = "cm" if self.unit == 1 else "unknown unit"
        try:
            dimx = (self.ihdr.width / float(self.ppux))*100
            dimy = (self.ihdr.height / float(self.ppuy))*100
        except ZeroDivisionError:
            dimx = 0
            dimy = 0
>>
    [self.ihdr.width] raises [AttributeError] when [self.ihdr] is [None];
    the division by a zero [ppux] leaves the [try] before [height] is
    read. *)
Definition pHYs_str (self : pyval) : M unit :=
  (_ <- getattr self "unit" ;;
   ihdr <- getattr self "ihdr" ;;
   _ <- getattr ihdr "width" ;;
   ppux <- getattr self "ppux" ;;
   if eq_int ppux 0 then ret tt
   else
     ihdr <- getattr self "ihdr" ;;
     _ <- getattr ihdr "height" ;;
     _ <- getattr self "ppuy" ;;
     ret tt)%M.

(** [str(p)] for an instance [p] of the class registered as [key], as far as
    it can raise: the other classes format attributes that their [__init__]
    and the driver have set. *)
Definition str_of (key : bytes) (p : pyval) : M unit :=
  if str_eqb key (str "pHYs") then pHYs_str p else ret tt.

Local Open Scope IO_scope.

(** The lines that both branches of [if args.verbose] share:
<<
                    print _chunk
                    if _parser:
                        p = _parser(_ihdr, _chunk)
                        p.color = args.color
                        p.verbose = args.verbose
                        p.dumpdir = args.dumpdir
                        print p
                        print "--------------------"
>>
    With [args.dumpdir] being [None], the setter of [dumpdir] stores [None]
    in [_dumpdir] and writes no file. *)
Definition print_chunk_and_p (args : Namespace) (_ihdr _chunk : pyval)
  (key : bytes) (_parser : option parser_class) : IO unit :=
  print (print_chunk _chunk) ;;
  match _parser with
  | Some cls =>
      p <- io (new cls _ihdr _chunk) ;;
      io (setattr_of p "color" (VBool (color args))) ;;
      io (setattr_of p "verbose" (VBool (verbose args))) ;;
      io (setattr_of p "_dumpdir" VNone) ;;
      io (str_of key p) ;;
      print (print_p p) ;;
      print print_rule
  | None => io_ret tt
  end.

(** One pass of [for _chunk in png.chunks], for the chunk [c] that the
    generator yields; the result is [_ihdr] after the pass.  The attributes
    [type], [valid] and [offset] of [_chunk] are read from [c]: nothing
    writes them after [PNGChunk.__init__]. *)
Definition for_body `{Zlib} (args : Namespace) (png : PNGFile.t)
  (_ihdr : pyval) (c : PNGChunk.t) : IO pyval :=
  _chunk <- io (yield c) ;;
  _ihdr <- (if str_eqb (PNGChunk.type c) (str "IHDR")
            then io (new IHDR_init VNone _chunk)
            else io_ret _ihdr) ;;
  io (setattr_of _chunk "term_color" (VBool (color args))) ;;
  let _parser := chunk_parser_get (PNGChunk.type c) in
  (if verbose args then
     print_chunk_and_p args _ihdr _chunk (PNGChunk.type c) _parser
   else if negb (str_eqb (PNGChunk.type c) (str "IDAT"))
           || negb (PNGChunk.valid c) then
     print_chunk_and_p args _ihdr _chunk (PNGChunk.type c) _parser
   else io_ret tt) ;;
  (if str_eqb (PNGChunk.type c) (str "IEND")
      && (PNGChunk.offset c + 12 <? len (PNGFile.data png))
   then print (print_warning (color args))
   else io_ret tt) ;;
  io_ret _ihdr.

(** The passes for the chunks that the generator yields, in order. *)
Fixpoint for_chunks `{Zlib} (args : Namespace) (png : PNGFile.t)
  (_ihdr : pyval) (yielded : list PNGChunk.t) : IO pyval :=
  match yielded with
  | [] => io_ret _ihdr
  | c :: rest =>
      _ihdr <- for_body args png _ihdr c ;;
      for_chunks args png _ihdr rest
  end.

(** The body of [for f in args.filename], with [data] for [open(f).read()]:
<<
        try:
            png = PNGFile(open(f).read())
            print "#"
            _ihdr = None
            for _chunk in png.chunks:
                ...
            print png, f, "containing", len(list(png.chunks)), "chunks."
        except ParseError as e:
            print str(e), f
>>
    The [for] loop ends when the generator does: exhausted, or with the
    exception it raises.  [len(list(png.chunks))] iterates once more, over the
    same data. *)
Definition main_file `{Zlib} (args : Namespace) (f : string) (data : bytes)
  : IO unit :=
  except_ParseError
    (png <- io (lift (PNGFile.init data)) ;;
     print print_hash ;;
     let (yielded, e) := PNGFile.chunks png in
     _ <- for_chunks args png VNone yielded ;;
     match e with
     | Raised x => io_raise x
     | _ => print (print_summary png f
                       (Z.of_nat (length (fst (PNGFile.chunks png)))))
     end)
    (fun value => print (print_error value f)).

Local Close Scope IO_scope.

(** Sample data: the signature, a [bKGD] chunk of two bytes with no header
    before it, and an [IEND] chunk. *)
Definition png_bKGD_IEND : bytes :=
  PNGMAGIC ++ [x00; x00; x00; x02] ++ str "bKGD" ++ [x00; x01]
    ++ [x00; x00; x00; x00] ++ IEND_chunk.

(** * Properties *)

(** ** Byte strings and integers *)

Lemma len_nonneg (s : bytes) : 0 <= len s.
Proof. unfold len. lia. Qed.

Lemma len_app (s t : bytes) : len (s ++ t) = len s + len t.
Proof. unfold len. rewrite length_app. lia. Qed.

Lemma ord_range (c : byte) : 0 <= ord c < 256.
Proof.
  unfold ord. pose proof (Byte.to_N_bounded c). lia.
Qed.

Lemma clamp_range (n i : Z) : 0 <= n -> 0 <= clamp n i <= n.
Proof. unfold clamp. destruct (Z.ltb_spec i 0); lia. Qed.

Lemma clamp_nonneg (n i : Z) : 0 <= i -> clamp n i = Z.min i n.
Proof. unfold clamp. destruct (Z.ltb_spec i 0); lia. Qed.

(** The length of a slice with bounds in order. *)
Lemma len_slice (s : bytes) (lo hi : Z) :
  0 <= lo <= hi ->
  len (slice s lo hi) = Z.min hi (len s) - Z.min lo (len s).
Proof.
  intros H. unfold slice. rewrite !clamp_nonneg by lia.
  unfold len. rewrite length_firstn, length_skipn.
  pose proof (len_nonneg s) as Hs. unfold len in *. lia.
Qed.

Lemma slice_from_nonneg (s : bytes) (lo : Z) :
  0 <= lo -> slice_from s lo = skipn (Z.to_nat lo) s.
Proof.
  intros H. unfold slice_from. rewrite clamp_nonneg by lia.
  destruct (Z.le_gt_cases lo (len s)).
  - now rewrite Z.min_l.
  - rewrite Z.min_r by lia. unfold len in *.
    rewrite !skipn_all2; auto; lia.
Qed.

Lemma be_uint_snoc (s : bytes) (c : byte) :
  be_uint (s ++ [c]) = be_uint s * 256 + ord c.
Proof. unfold be_uint. now rewrite fold_left_app. Qed.

Lemma be_uint_range (s : bytes) : 0 <= be_uint s < 256 ^ len s.
Proof.
  induction s as [|c s IH] using rev_ind.
  - change (0 <= 0 < 1). lia.
  - rewrite be_uint_snoc, len_app.
    change (len [c]) with 1.
    rewrite Z.pow_add_r by (pose proof (len_nonneg s); lia).
    pose proof (ord_range c). lia.
Qed.

Lemma be_uint_4 (s : bytes) : len s = 4 -> 0 <= be_uint s < 2 ^ 32.
Proof.
  intros H. pose proof (be_uint_range s) as R. rewrite H in R.
  change (256 ^ 4) with (2 ^ 32) in R. exact R.
Qed.

Lemma to_signed32_range (n : Z) :
  0 <= n < 2 ^ 32 -> - 2 ^ 31 <= to_signed32 n < 2 ^ 31.
Proof. unfold to_signed32. destruct (Z.ltb_spec n (2 ^ 31)); lia. Qed.

Lemma to_signed32_mod (n : Z) :
  0 <= n < 2 ^ 32 -> to_signed32 n mod 2 ^ 32 = n.
Proof.
  intros H. unfold to_signed32. destruct (Z.ltb_spec n (2 ^ 31)).
  - apply Z.mod_small. lia.
  - replace (n - 2 ^ 32) with (n + (-1) * 2 ^ 32) by lia.
    rewrite Z.mod_add by lia. apply Z.mod_small. lia.
Qed.

Lemma to_signed32_inj (n m : Z) :
  0 <= n < 2 ^ 32 -> 0 <= m < 2 ^ 32 ->
  to_signed32 n = to_signed32 m -> n = m.
Proof.
  intros Hn Hm E.
  rewrite <- (to_signed32_mod n Hn), <- (to_signed32_mod m Hm). now rewrite E.
Qed.

Lemma sized_ok (n : Z) (s : bytes) : len s = n -> sized n s = Ok s.
Proof. intros H. unfold sized. now rewrite (proj2 (Z.eqb_eq _ _) H). Qed.

Lemma sized_raise (n : Z) (s : bytes) :
  len s <> n -> sized n s = Raise (unpack_size_error n).
Proof. intros H. unfold sized. now rewrite (proj2 (Z.eqb_neq _ _) H). Qed.

(** ** The checksum is a 32-bit value *)

Lemma lxor_range (n a b : Z) :
  0 <= n -> 0 <= a < 2 ^ n -> 0 <= b < 2 ^ n -> 0 <= Z.lxor a b < 2 ^ n.
Proof.
  intros Hn Ha Hb.
  assert (H0 : 0 <= Z.lxor a b) by (apply Z.lxor_nonneg; lia).
  split; [exact H0|].
  destruct (Z.eq_dec (Z.lxor a b) 0) as [E|E].
  - rewrite E. apply Z.pow_pos_nonneg; lia.
  - assert (Hpos : 0 < n).
    { destruct (Z.eq_dec n 0) as [->|]; [|lia].
      assert (a = 0) as -> by lia. assert (b = 0) as -> by lia.
      now contradiction E. }
    apply Z.log2_lt_pow2; [lia|].
    eapply Z.le_lt_trans; [apply Z.log2_lxor; lia|].
    apply Z.max_lub_lt.
    + destruct (Z.eq_dec a 0) as [->|]; [exact Hpos|apply Z.log2_lt_pow2; lia].
    + destruct (Z.eq_dec b 0) as [->|]; [exact Hpos|apply Z.log2_lt_pow2; lia].
Qed.

Lemma crc_shift_range (c : Z) : 0 <= c < 2 ^ 32 -> 0 <= crc_shift c < 2 ^ 32.
Proof.
  intros H. unfold crc_shift.
  assert (S : 0 <= Z.shiftr c 1 < 2 ^ 32).
  { rewrite Z.shiftr_div_pow2 by lia. change (2 ^ 1) with 2.
    split; [apply Z.div_pos; lia|].
    apply Z.div_lt_upper_bound; lia. }
  destruct (Z.testbit c 0); [|exact S].
  apply lxor_range; [lia|exact S|lia].
Qed.

Lemma crc_update_range (c : Z) (b : byte) :
  0 <= c < 2 ^ 32 -> 0 <= crc_update c b < 2 ^ 32.
Proof.
  intros H. unfold crc_update.
  assert (X : 0 <= Z.lxor c (ord b) < 2 ^ 32).
  { apply lxor_range; [lia|exact H|]. pose proof (ord_range b). lia. }
  revert X. generalize (Z.lxor c (ord b)). intros x X.
  cbn [Nat.iter nat_rect]. now repeat apply crc_shift_range.
Qed.

Lemma crc32_standard_range (s : bytes) : 0 <= crc32_standard s < 2 ^ 32.
Proof.
  unfold crc32_standard. apply lxor_range; [lia| |lia].
  assert (G : forall c, 0 <= c < 2 ^ 32 ->
              0 <= fold_left crc_update s c < 2 ^ 32).
  { induction s as [|b s IH]; intros c Hc; [exact Hc|].
    cbn [fold_left]. apply IH. now apply crc_update_range. }
  apply G. lia.
Qed.

(** ** One pass of the reader's loop *)

Lemma overrun_dec (data : bytes) (offset : Z) :
  {overrun data offset} + {~ overrun data offset}.
Proof.
  unfold overrun.
  destruct (Z_lt_dec (len data) (offset + 8));
    destruct (Z_lt_dec (len data) (offset + 12 + declared_length data offset));
    intuition.
Qed.

Lemma declared_length_nonneg (data : bytes) (offset : Z) :
  0 <= declared_length data offset.
Proof. apply be_uint_range. Qed.

(** Without an overrun the pass yields the chunk that lies at the offset and
    leaves the offset after its checksum. *)
Lemma chunks_body_ok (self : PNGFile.t) (offset : Z) :
  0 <= offset -> ~ overrun (PNGFile.data self) offset ->
  PNGFile.chunks_body self offset =
    Ok (chunk_at (PNGFile.data self) offset,
        offset + 12 + declared_length (PNGFile.data self) offset).
Proof.
  intros H0 Hn. unfold overrun in Hn.
  pose proof (declared_length_nonneg (PNGFile.data self) offset) as Hd.
  unfold PNGFile.chunks_body, unpack_I, unpack_4s, unpack_i.
  rewrite sized_ok by (rewrite len_slice; lia). cbn [rbind].
  fold (declared_length (PNGFile.data self) offset).
  rewrite sized_ok by (rewrite len_slice; lia). cbn [rbind].
  rewrite sized_ok by (rewrite len_slice; lia). cbn [rbind].
  unfold chunk_at.
  replace (offset + 4 + 4) with (offset + 8) by lia.
  replace (offset + 8 + declared_length (PNGFile.data self) offset + 4)
    with (offset + 12 + declared_length (PNGFile.data self) offset) by lia.
  reflexivity.
Qed.

(** With an overrun the pass raises [struct.error]; the message is that of
    a four-byte format, whatever the offset. *)
Lemma chunks_body_overrun (self : PNGFile.t) (offset : Z) :
  0 <= offset -> overrun (PNGFile.data self) offset ->
  PNGFile.chunks_body self offset = Raise (unpack_size_error 4).
Proof.
  intros H0 Ho. unfold overrun in Ho.
  pose proof (declared_length_nonneg (PNGFile.data self) offset) as Hd.
  unfold PNGFile.chunks_body, unpack_I, unpack_4s, unpack_i.
  destruct (Z_lt_dec (len (PNGFile.data self)) (offset + 4)) as [L1|L1].
  { rewrite sized_raise by (rewrite len_slice; lia). reflexivity. }
  rewrite sized_ok by (rewrite len_slice; lia). cbn [rbind].
  fold (declared_length (PNGFile.data self) offset).
  destruct (Z_lt_dec (len (PNGFile.data self)) (offset + 8)) as [L2|L2].
  { rewrite sized_raise by (rewrite len_slice; lia). reflexivity. }
  rewrite sized_ok by (rewrite len_slice; lia). cbn [rbind].
  rewrite sized_raise by (rewrite len_slice; lia). reflexivity.
Qed.

Lemma chunks_body_inv (self : PNGFile.t) (offset : Z) chunk offset' :
  0 <= offset ->
  PNGFile.chunks_body self offset = Ok (chunk, offset') ->
  ~ overrun (PNGFile.data self) offset /\
  chunk = chunk_at (PNGFile.data self) offset /\
  offset' = offset + 12 + declared_length (PNGFile.data self) offset.
Proof.
  intros H0 E. destruct (overrun_dec (PNGFile.data self) offset) as [Ho|Hn].
  - rewrite chunks_body_overrun in E by assumption. discriminate.
  - rewrite chunks_body_ok in E by assumption.
    injection E as <- <-. auto.
Qed.

(** ** The loop of the reader *)

Lemma passes_left_next (self : PNGFile.t) (offset : Z) chunk offset' :
  0 <= offset -> offset < len (PNGFile.data self) ->
  PNGFile.chunks_body self offset = Ok (chunk, offset') ->
  offset + 12 <= offset' /\
  (passes_left self offset' < passes_left self offset)%nat.
Proof.
  intros H0 Hlt E. apply chunks_body_inv in E as (_ & _ & ->); [|exact H0].
  pose proof (declared_length_nonneg (PNGFile.data self) offset).
  unfold passes_left. lia.
Qed.

(** More passes than are left change nothing. *)
Lemma chunks_from_fuel (self : PNGFile.t) (fuel : nat) :
  forall fuel' offset,
    0 <= offset ->
    (passes_left self offset < fuel)%nat ->
    (passes_left self offset < fuel')%nat ->
    PNGFile.chunks_from fuel self offset = PNGFile.chunks_from fuel' self offset.
Proof.
  induction fuel as [|fuel IH]; intros fuel' offset H0 Hf Hf'; [lia|].
  destruct fuel' as [|fuel']; [lia|].
  cbn [PNGFile.chunks_from].
  destruct (Z.ltb_spec offset (len (PNGFile.data self))) as [Hlt|Hge];
    [|reflexivity].
  destruct (PNGFile.chunks_body self offset) as [[chunk offset']|e] eqn:E;
    [|reflexivity].
  destruct (passes_left_next self offset chunk offset' H0 Hlt E) as [Hn Hp].
  rewrite (IH fuel' offset') by lia. reflexivity.
Qed.

(** The loop of the model always runs to its end. *)
Lemma chunks_from_finished (self : PNGFile.t) (fuel : nat) :
  forall offset,
    0 <= offset ->
    (passes_left self offset < fuel)%nat ->
    snd (PNGFile.chunks_from fuel self offset) <> Unfinished.
Proof.
  induction fuel as [|fuel IH]; intros offset H0 Hf; [lia|].
  cbn [PNGFile.chunks_from].
  destruct (Z.ltb_spec offset (len (PNGFile.data self))) as [Hlt|Hge];
    [|discriminate].
  destruct (PNGFile.chunks_body self offset) as [[chunk offset']|e] eqn:E;
    [|discriminate].
  destruct (passes_left_next self offset chunk offset' H0 Hlt E) as [Hn Hp].
  specialize (IH offset' ltac:(lia) ltac:(lia)).
  destruct (PNGFile.chunks_from fuel self offset'). exact IH.
Qed.

Lemma chunks_fuel (self : PNGFile.t) :
  (passes_left self (len PNGMAGIC) < S (length (PNGFile.data self)))%nat.
Proof. unfold passes_left, len. cbn [length PNGMAGIC]. lia. Qed.

Lemma chunks_finished (self : PNGFile.t) :
  snd (PNGFile.chunks self) <> Unfinished.
Proof.
  apply chunks_from_finished; [discriminate|apply chunks_fuel].
Qed.

Lemma reaches_offset (self : PNGFile.t) offset yielded :
  reaches self offset yielded -> 8 <= offset.
Proof.
  induction 1 as [|offset yielded chunk offset' _ IH Hlt E].
  - discriminate.
  - destruct (passes_left_next self offset chunk offset') as [Hn _];
      [lia|exact Hlt|exact E|lia].
Qed.

(** What the iteration gives, seen from an offset that the loop reaches. *)
Lemma reaches_chunks (self : PNGFile.t) offset yielded :
  reaches self offset yielded ->
  forall fuel,
    (passes_left self offset < fuel)%nat ->
    PNGFile.chunks self =
      (yielded ++ fst (PNGFile.chunks_from fuel self offset),
       snd (PNGFile.chunks_from fuel self offset)).
Proof.
  induction 1 as [|offset yielded chunk offset' R IH Hlt E]; intros fuel Hf.
  - unfold PNGFile.chunks.
    rewrite (chunks_from_fuel self _ fuel (len PNGMAGIC));
      [|discriminate|apply chunks_fuel|exact Hf].
    now destruct (PNGFile.chunks_from fuel self (len PNGMAGIC)).
  - pose proof (reaches_offset _ _ _ R) as H8.
    destruct (passes_left_next self offset chunk offset') as [Hn Hp];
      [lia|exact Hlt|exact E|].
    rewrite (IH (S (Nat.max fuel (passes_left self offset)))) by lia.
    cbn [PNGFile.chunks_from].
    rewrite (proj2 (Z.ltb_lt _ _) Hlt), E.
    rewrite (chunks_from_fuel self _ fuel offset') by lia.
    destruct (PNGFile.chunks_from fuel self offset') as [rest e].
    cbn [fst snd]. now rewrite <- app_assoc.
Qed.

(** Every chunk of the iteration is the one that lies at some offset of the
    data, where nothing overruns, and the loop reaches that offset. *)
Lemma chunks_from_In (self : PNGFile.t) (fuel : nat) :
  forall offset yielded chunk,
    reaches self offset yielded ->
    In chunk (fst (PNGFile.chunks_from fuel self offset)) ->
    exists offset' yielded',
      reaches self offset' yielded' /\
      offset' < len (PNGFile.data self) /\
      ~ overrun (PNGFile.data self) offset' /\
      chunk = chunk_at (PNGFile.data self) offset'.
Proof.
  induction fuel as [|fuel IH]; intros offset yielded chunk R Hin;
    [contradiction|].
  cbn [PNGFile.chunks_from] in Hin.
  destruct (Z.ltb_spec offset (len (PNGFile.data self))) as [Hlt|Hge];
    [|contradiction].
  destruct (PNGFile.chunks_body self offset) as [[c offset']|e] eqn:E;
    [|contradiction].
  pose proof (reaches_offset _ _ _ R) as H8.
  destruct (PNGFile.chunks_from fuel self offset') as [rest e] eqn:F.
  cbn [fst] in Hin. destruct Hin as [<-|Hin].
  - apply chunks_body_inv in E as (Hn & -> & _); [|lia].
    exists offset, yielded. auto.
  - apply (IH offset' (yielded ++ [c]) chunk).
    + now apply (reaches_next self offset yielded c offset').
    + now rewrite F.
Qed.

Lemma chunks_In (self : PNGFile.t) chunk :
  In chunk (fst (PNGFile.chunks self)) ->
  exists offset yielded,
    reaches self offset yielded /\
    offset < len (PNGFile.data self) /\
    ~ overrun (PNGFile.data self) offset /\
    chunk = chunk_at (PNGFile.data self) offset.
Proof.
  apply (chunks_from_In self _ (len PNGMAGIC) []). constructor.
Qed.

(** The fields of the chunk at an offset where nothing overruns. *)
Lemma chunk_at_fields (data : bytes) (offset : Z) :
  0 <= offset -> ~ overrun data offset ->
  let c := chunk_at data offset in
  let n := declared_length data offset in
  PNGChunk.offset c = offset /\
  len (PNGChunk.type c) = 4 /\
  len (PNGChunk.data c) = n /\
  PNGChunk.data c = slice data (offset + 8) (offset + 8 + n) /\
  len (slice data (offset + 8 + n) (offset + 12 + n)) = 4 /\
  PNGChunk.crc32 c =
    to_signed32 (be_uint (slice data (offset + 8 + n) (offset + 12 + n))).
Proof.
  intros H0 Hn. unfold overrun in Hn.
  pose proof (declared_length_nonneg data offset) as Hd.
  cbn. repeat split; try reflexivity; rewrite len_slice; lia.
Qed.

(** The check value of the CRC-32, and the checksum of an [IEND] chunk. *)
Example crc32_standard_check :
  crc32_standard (str "123456789") = 0xCBF43926 /\
  crc32_standard (str "IEND") = 0xAE426082 /\
  binascii_crc32 (str "IEND") = -1371381630.
Proof. repeat split; reflexivity. Qed.

(** ** The signature *)

Lemma startswith_firstn (s p : bytes) :
  startswith s p = true <-> firstn (length p) s = p.
Proof.
  revert s. induction p as [|b p IH]; intros s; cbn.
  - now split.
  - destruct s as [|c s]; [split; discriminate|].
    rewrite andb_true_iff, firstn_cons. split.
    + intros [E F]. apply Byte.byte_dec_bl in E. apply IH in F.
      now rewrite E, F.
    + intros E. injection E as -> E. split; [|now apply IH].
      now apply Byte.byte_dec_lb.
Qed.

(** C7: a buffer whose first eight bytes are not the signature is refused
    with the [ParseError] of the missing magic header, and an iteration over
    it has no chunk at all; a buffer that starts with the signature makes a
    [PNGFile] that holds the data and its length. *)
Theorem PNGFile_init_magic (data : bytes) :
  (firstn 8 data <> PNGMAGIC ->
   PNGFile.init data =
     Raise (ParseError "Error parsing PNG data. Missing magic header") /\
   scan data =
     ([], Raised (ParseError "Error parsing PNG data. Missing magic header")))
  /\
  (firstn 8 data = PNGMAGIC ->
   PNGFile.init data =
     Ok {| PNGFile.size := len data; PNGFile.data := data |}).
Proof.
  pose proof (startswith_firstn data PNGMAGIC) as S.
  change (length PNGMAGIC) with 8%nat in S.
  unfold scan, PNGFile.init, is_png.
  destruct (startswith data PNGMAGIC); cbn [negb]; split; intros H.
  - contradiction H. now apply S.
  - reflexivity.
  - split; reflexivity.
  - apply S in H. discriminate.
Qed.

Lemma PNGFile_init_magic_witness :
  PNGFile.init (str "GIF89a plus more") =
    Raise (ParseError "Error parsing PNG data. Missing magic header") /\
  PNGFile.init png_IEND =
    Ok {| PNGFile.size := 20; PNGFile.data := png_IEND |}.
Proof.
  split.
  - apply (proj1 (PNGFile_init_magic (str "GIF89a plus more"))).
    vm_compute. discriminate.
  - apply (proj2 (PNGFile_init_magic png_IEND)). reflexivity.
Defined.

(** ** Overruns *)

Lemma reaches_In (self : PNGFile.t) offset yielded :
  reaches self offset yielded ->
  forall chunk, In chunk yielded ->
    exists offset',
      8 <= offset' /\
      ~ overrun (PNGFile.data self) offset' /\
      chunk = chunk_at (PNGFile.data self) offset'.
Proof.
  induction 1 as [|offset yielded chunk offset' R IH Hlt E]; intros c Hin.
  - contradiction.
  - apply in_app_or in Hin as [Hin|[<-|[]]]; [now apply IH|].
    pose proof (reaches_offset _ _ _ R) as H8.
    apply chunks_body_inv in E as (Hn & -> & _); [|lia].
    exists offset. auto.
Qed.

(** C1, as the code has it: when the loop comes to an offset at which one of
    the four reads would run past the end of the data, the iteration ends
    there with [struct.error], whose message is that of a four-byte format
    and names no offset; the chunks yielded before stay, and each of them has
    a payload of exactly the declared length that lies, with its checksum,
    inside the data. *)
Theorem chunks_overrun (self : PNGFile.t) (offset : Z)
  (yielded : list PNGChunk.t) :
  reaches self offset yielded ->
  offset < len (PNGFile.data self) ->
  overrun (PNGFile.data self) offset ->
  PNGFile.chunks self =
    (yielded,
     Raised (struct_error "unpack requires a string argument of length 4")) /\
  Forall (fun c =>
            len (PNGChunk.data c) =
              declared_length (PNGFile.data self) (PNGChunk.offset c) /\
            PNGChunk.offset c + 12 + len (PNGChunk.data c)
              <= len (PNGFile.data self) /\
            PNGChunk.data c =
              slice (PNGFile.data self) (PNGChunk.offset c + 8)
                (PNGChunk.offset c + 8 + len (PNGChunk.data c)))
         yielded.
Proof.
  intros R Hlt Ho. pose proof (reaches_offset _ _ _ R) as H8. split.
  - rewrite (reaches_chunks self offset yielded R (S (passes_left self offset)))
      by lia.
    cbn [PNGFile.chunks_from].
    rewrite (proj2 (Z.ltb_lt _ _) Hlt).
    rewrite chunks_body_overrun by first [assumption | lia].
    cbn [fst snd]. now rewrite app_nil_r.
  - apply List.Forall_forall. intros c Hin.
    destruct (reaches_In self offset yielded R c Hin) as (o & Ho8 & Hn & ->).
    destruct (chunk_at_fields (PNGFile.data self) o) as (Eo & _ & El & Ed & _);
      [lia|exact Hn|].
    rewrite Eo, El. unfold overrun in Hn.
    split; [reflexivity|]. split; [lia|exact Ed].
Qed.

Lemma chunks_overrun_witness :
  PNGFile.chunks {| PNGFile.size := 30; PNGFile.data := png_cut_at_20 |} =
    ([chunk_at png_cut_at_20 8],
     Raised (struct_error "unpack requires a string argument of length 4")).
Proof.
  apply (chunks_overrun
           {| PNGFile.size := 30; PNGFile.data := png_cut_at_20 |} 20
           [chunk_at png_cut_at_20 8]).
  - apply (reaches_next _ 8 [] (chunk_at png_cut_at_20 8) 20).
    + apply reaches_start.
    + reflexivity.
    + reflexivity.
  - reflexivity.
  - right. reflexivity.
Defined.

(** C1, as the specification has it, fails: the data cut at offset 8 and the
    data whose chunk at offset 20 is cut end the iteration with one and the
    same error, so the error tells no offset; and that error is not one of
    the parser's own. *)
Lemma overrun_error_has_no_offset :
  overrun png_cut_at_8 8 /\
  overrun png_cut_at_20 20 /\
  scan png_cut_at_8 =
    ([], Raised (struct_error "unpack requires a string argument of length 4"))
  /\
  scan png_cut_at_20 =
    ([chunk_at png_cut_at_20 8],
     Raised (struct_error "unpack requires a string argument of length 4")) /\
  ~ (exists offset_of : exn -> Z,
       (forall e, snd (scan png_cut_at_8) = Raised e -> offset_of e = 8) /\
       (forall e, snd (scan png_cut_at_20) = Raised e -> offset_of e = 20)).
Proof.
  assert (O1 : overrun png_cut_at_8 8) by (right; reflexivity).
  assert (O2 : overrun png_cut_at_20 20) by (right; reflexivity).
  assert (S1 : scan png_cut_at_8 =
    ([], Raised (struct_error "unpack requires a string argument of length 4")))
    by reflexivity.
  assert (S2 : scan png_cut_at_20 =
    ([chunk_at png_cut_at_20 8],
     Raised (struct_error "unpack requires a string argument of length 4")))
    by reflexivity.
  repeat split; try assumption.
  intros (offset_of & H1 & H2).
  rewrite S1 in H1. rewrite S2 in H2.
  specialize (H1 _ eq_refl). specialize (H2 _ eq_refl).
  rewrite H1 in H2. discriminate.
Qed.

(** ** The checksum *)

(** What the reader makes of a chunk it yields. *)
Lemma yielded_chunk (self : PNGFile.t) (c : PNGChunk.t) :
  In c (fst (PNGFile.chunks self)) ->
  len (stored_checksum (PNGFile.data self) c) = 4 /\
  PNGChunk.crc32 c =
    to_signed32 (be_uint (stored_checksum (PNGFile.data self) c)) /\
  PNGChunk.valid c =
    (binascii_crc32 (PNGChunk.type c ++ PNGChunk.data c) =? PNGChunk.crc32 c).
Proof.
  intros Hin. apply chunks_In in Hin as (o & ys & R & Hlt & Hn & ->).
  pose proof (reaches_offset _ _ _ R) as H8.
  destruct (chunk_at_fields (PNGFile.data self) o) as (Eo & _ & El & _ & E4 & Ec);
    [lia|exact Hn|].
  unfold stored_checksum. rewrite Eo, El. auto.
Qed.

(** Signed against signed is unsigned against unsigned. *)
Lemma yielded_valid (self : PNGFile.t) (c : PNGChunk.t) :
  In c (fst (PNGFile.chunks self)) ->
  PNGChunk.valid c = true <->
  crc32_standard (PNGChunk.type c ++ PNGChunk.data c) =
    be_uint (stored_checksum (PNGFile.data self) c).
Proof.
  intros Hin. destruct (yielded_chunk self c Hin) as (E4 & Ec & Ev).
  rewrite Ev, Ec, Z.eqb_eq. unfold binascii_crc32. split.
  - apply to_signed32_inj; [apply crc32_standard_range|now apply be_uint_4].
  - now intros ->.
Qed.

(** C3: a chunk that the reader yields is valid exactly when the standard
    CRC-32 of its type followed by its payload is the number that the four
    bytes after the payload spell, most significant byte first; so the flag
    is the same for any chunk, of any file, with the same type, payload and
    four bytes. *)
Theorem valid_iff_crc32 (self : PNGFile.t) (c : PNGChunk.t) :
  In c (fst (PNGFile.chunks self)) ->
  (PNGChunk.valid c = true <->
   crc32_standard (PNGChunk.type c ++ PNGChunk.data c) =
     be_uint (stored_checksum (PNGFile.data self) c)) /\
  (forall self' c',
     In c' (fst (PNGFile.chunks self')) ->
     PNGChunk.type c' = PNGChunk.type c ->
     PNGChunk.data c' = PNGChunk.data c ->
     stored_checksum (PNGFile.data self') c' =
       stored_checksum (PNGFile.data self) c ->
     PNGChunk.valid c' = PNGChunk.valid c).
Proof.
  intros Hin. destruct (yielded_chunk self c Hin) as (E4 & Ec & Ev). split.
  - now apply yielded_valid.
  - intros self' c' Hin' Et Ed Es.
    destruct (yielded_chunk self' c' Hin') as (_ & Ec' & Ev').
    now rewrite Ev, Ev', Ec, Ec', Et, Ed, Es.
Qed.

Lemma valid_iff_crc32_witness :
  PNGChunk.valid (chunk_at png_IEND 8) = true <->
  crc32_standard (str "IEND") = be_uint [xae; x42; x60; x82].
Proof.
  apply (valid_iff_crc32
           {| PNGFile.size := 20; PNGFile.data := png_IEND |}
           (chunk_at png_IEND 8)).
  left. reflexivity.
Defined.

Lemma byte_of_small (x : Z) :
  0 <= x < 256 ->
  exists c, Byte.of_N (Z.to_N x) = Some c /\ ord c = x.
Proof.
  intros H. destruct (Byte.of_N (Z.to_N x)) as [c|] eqn:E.
  - exists c. split; [reflexivity|].
    apply Byte.to_of_N in E. unfold ord. rewrite E. lia.
  - apply Byte.of_N_None_iff in E. lia.
Qed.

Lemma be_uint_be_bytes4 (n : Z) : be_uint (be_bytes4 n) = n mod 2 ^ 32.
Proof.
  unfold be_bytes4. cbn [map].
  destruct (byte_of_small ((n / 256 ^ 3) mod 256)) as (c3 & -> & E3);
    [apply Z.mod_pos_bound; lia|].
  destruct (byte_of_small ((n / 256 ^ 2) mod 256)) as (c2 & -> & E2);
    [apply Z.mod_pos_bound; lia|].
  destruct (byte_of_small ((n / 256 ^ 1) mod 256)) as (c1 & -> & E1);
    [apply Z.mod_pos_bound; lia|].
  destruct (byte_of_small ((n / 256 ^ 0) mod 256)) as (c0 & -> & E0);
    [apply Z.mod_pos_bound; lia|].
  unfold be_uint. cbn [fold_left]. rewrite E3, E2, E1, E0.
  change (256 ^ 3) with 16777216. change (256 ^ 2) with 65536.
  change (256 ^ 1) with 256. change (256 ^ 0) with 1.
  change (2 ^ 32) with 4294967296.
  Z.div_mod_to_equations. lia.
Qed.

Lemma len_be_bytes4 (n : Z) : len (be_bytes4 n) = 4.
Proof. reflexivity. Qed.

(** Packing a signed 32-bit integer and unpacking it unsigned, in whatever
    byte order the machine has, gives the integer modulo [2^32]. *)
Lemma pack_unpack_native (bo : byteorder) (n : Z) :
  - 2 ^ 31 <= n < 2 ^ 31 ->
  rbind (pack_native_i bo n) (unpack_native_I bo) = Ok (n mod 2 ^ 32).
Proof.
  intros H. unfold pack_native_i.
  rewrite (proj2 (Z.leb_le _ _) (proj1 H)), (proj2 (Z.ltb_lt _ _) (proj2 H)).
  cbn [andb rbind]. unfold unpack_native_I.
  destruct bo.
  - rewrite sized_ok by (unfold len; now rewrite length_rev).
    cbn [rbind]. unfold le_uint. now rewrite rev_involutive, be_uint_be_bytes4.
  - rewrite sized_ok by reflexivity.
    cbn [rbind]. now rewrite be_uint_be_bytes4.
Qed.

(** C6, as the code has it: the checksum of a yielded chunk is the SIGNED
    reading of the four bytes after the payload, a number from [-2^31] to
    [2^31 - 1] that is negative exactly when the first of the bytes has its
    top bit set; it is compared, signed, with the signed result of
    [binascii.crc32]; and [__str__] turns it into the unsigned reading of the
    four bytes when it prints it. *)
Theorem crc32_stored_signed (self : PNGFile.t) (c : PNGChunk.t) :
  In c (fst (PNGFile.chunks self)) ->
  let stored := be_uint (stored_checksum (PNGFile.data self) c) in
  0 <= stored < 2 ^ 32 /\
  PNGChunk.crc32 c = to_signed32 stored /\
  - 2 ^ 31 <= PNGChunk.crc32 c < 2 ^ 31 /\
  (PNGChunk.crc32 c < 0 <-> 2 ^ 31 <= stored) /\
  PNGChunk.valid c =
    (binascii_crc32 (PNGChunk.type c ++ PNGChunk.data c) =? PNGChunk.crc32 c) /\
  forall bo, PNGChunk.str_crc bo c = Ok stored.
Proof.
  intros Hin stored. destruct (yielded_chunk self c Hin) as (E4 & Ec & Ev).
  pose proof (be_uint_4 _ E4) as R. fold stored in R, Ec.
  pose proof (to_signed32_range stored R) as RS.
  split; [exact R|]. split; [exact Ec|]. rewrite Ec.
  split; [exact RS|]. split.
  - unfold to_signed32. destruct (Z.ltb_spec stored (2 ^ 31)); lia.
  - split; [now rewrite Ev, Ec|].
    intros bo. unfold PNGChunk.str_crc. rewrite Ec.
    change (rbind (pack_native_i bo (to_signed32 stored)) (unpack_native_I bo)
            = Ok stored).
    rewrite pack_unpack_native by exact RS.
    now rewrite to_signed32_mod.
Qed.

Lemma crc32_stored_signed_witness :
  PNGChunk.crc32 (chunk_at png_IEND 8) = to_signed32 0xAE426082 /\
  PNGChunk.str_crc little (chunk_at png_IEND 8) = Ok 0xAE426082.
Proof.
  pose proof (crc32_stored_signed
                {| PNGFile.size := 20; PNGFile.data := png_IEND |}
                (chunk_at png_IEND 8) (or_introl eq_refl)) as H.
  split; [apply H|apply (proj2 (proj2 (proj2 (proj2 (proj2 H)))))].
Defined.

(** C6, as the specification has it, fails: the checksum of the [IEND] chunk,
    whose four bytes are [AE 42 60 82], is kept as a negative number. *)
Lemma crc32_stored_negative :
  fst (scan png_IEND) = [chunk_at png_IEND 8] /\
  PNGChunk.crc32 (chunk_at png_IEND 8) = -1371381630 /\
  ~ (0 <= PNGChunk.crc32 (chunk_at png_IEND 8) < 2 ^ 32).
Proof.
  split; [reflexivity|]. split; [reflexivity|].
  change (PNGChunk.crc32 (chunk_at png_IEND 8)) with (-1371381630). lia.
Qed.

(** ** The decoders write to their own instance only *)

Create HintDb frame.

Lemma preserves_ret {A} (self : loc) (a : A) : preserves self (ret a).
Proof. now intros h l _. Qed.

Lemma preserves_raise {A} (self : loc) (e : exn) :
  preserves self (raise e : M A).
Proof. now intros h l _. Qed.

Lemma preserves_lift {A} (self : loc) (r : result A) : preserves self (lift r).
Proof. now intros h l _. Qed.

Lemma preserves_bind {A B} (self : loc) (m : M A) (k : A -> M B) :
  preserves self m -> (forall a, preserves self (k a)) ->
  preserves self (bind m k).
Proof.
  intros Hm Hk h l Hl. unfold bind. specialize (Hm h l Hl).
  destruct (m h) as [[a|e] h']; cbn [snd] in *.
  - now rewrite (Hk a h' l Hl).
  - exact Hm.
Qed.

Lemma preserves_getattr (self : loc) (o : pyval) (name : string) :
  preserves self (getattr o name).
Proof.
  intros h l _. unfold getattr.
  destruct o; try reflexivity.
  now destruct (h !! l0 ≫= _).
Qed.

Lemma preserves_setattr (self : loc) (name : string) (v : pyval) :
  preserves self (setattr self name v).
Proof.
  intros h l Hl. unfold setattr. cbn [snd]. now apply lookup_alter_ne.
Qed.

Lemma preserves_as_str (self : loc) (v : pyval) : preserves self (as_str v).
Proof. destruct v; (apply preserves_ret || apply preserves_raise). Qed.

#[local] Hint Resolve preserves_ret preserves_raise preserves_lift
  preserves_getattr preserves_setattr preserves_as_str : frame.

(** Takes the code apart along its binds and branches. *)
Ltac frame :=
  repeat first
    [ apply preserves_bind; [|intros ?]
    | match goal with
      | |- preserves _ (if ?b then _ else _) => destruct b
      | |- preserves _ (match ?v with _ => _ end) => destruct v
      end
    | solve [auto with frame] ].

Lemma preserves_getitem (self : loc) (data : pyval) (i : Z) :
  preserves self (getitem data i).
Proof. unfold getitem. frame. Qed.

Lemma preserves_getslice (self : loc) (data : pyval) (lo hi : Z) :
  preserves self (getslice data lo hi).
Proof. unfold getslice. frame. Qed.

Lemma preserves_getslice_from (self : loc) (data : pyval) (lo : Z) :
  preserves self (getslice_from data lo).
Proof. unfold getslice_from. frame. Qed.

#[local] Hint Resolve preserves_getitem preserves_getslice
  preserves_getslice_from : frame.

Lemma preserves_unpack_B_at (self : loc) (data : pyval) (i : Z) :
  preserves self (unpack_B_at data i).
Proof. unfold unpack_B_at. frame. Qed.

Lemma preserves_unpack_I_at (self : loc) (data : pyval) (lo hi : Z) :
  preserves self (unpack_I_at data lo hi).
Proof. unfold unpack_I_at. frame. Qed.

Lemma preserves_unpack_H_at (self : loc) (data : pyval) (lo hi : Z) :
  preserves self (unpack_H_at data lo hi).
Proof. unfold unpack_H_at. frame. Qed.

Lemma preserves_decompress `{Zlib} (self : loc) (s : bytes) :
  preserves self (decompress s).
Proof. unfold decompress. frame. Qed.

Lemma preserves_Parser_init (self : loc) (value : bytes) (offset : pyval) :
  preserves self (Parser_init self value offset).
Proof. unfold Parser_init. frame. Qed.

Lemma preserves_read_cstring (self : loc) (name : string) (rest : bytes) :
  forall offset, preserves self (read_cstring self name rest offset).
Proof.
  induction rest as [|c rest IH]; intros offset; cbn [read_cstring]; frame.
Qed.

#[local] Hint Resolve preserves_unpack_B_at preserves_unpack_I_at
  preserves_unpack_H_at preserves_decompress preserves_Parser_init
  preserves_read_cstring : frame.

Lemma preserves_while_cstring (self : loc) (name : string) (data : pyval)
  (offset : Z) :
  preserves self (while_cstring self name data offset).
Proof. unfold while_cstring. frame. Qed.

#[local] Hint Resolve preserves_while_cstring : frame.

(** Each class of the registry writes to the new instance only. *)
Lemma chunk_parser_preserves `{Zlib} (key : bytes) (cls : parser_class) :
  In (key, cls) chunk_parser ->
  forall self ihdr chunk, preserves self (cls self ihdr chunk).
Proof.
  intros Hin self ihdr chunk. unfold chunk_parser in Hin. cbn [In] in Hin.
  repeat (destruct Hin as [Hin|Hin];
          [injection Hin as _ <-|]); [..|contradiction].
  - unfold IHDR_init. frame.
  - unfold sRGB_init. frame.
  - unfold bKGD_init. frame.
  - unfold pHYs_init. frame.
  - unfold tIME_init. frame.
  - unfold iCCP_init. frame.
  - unfold tEXt_init. frame.
  - unfold zTXt_init. frame.
  - unfold iTXt_init. frame.
  - unfold pCAL_init. frame.
  - unfold cHRM_init. frame.
  - unfold gAMA_init. frame.
Qed.

(** Calling a class that writes to its instance only leaves the store as it
    was, but for the new instance. *)
Lemma new_preserves (cls : parser_class) (ihdr chunk : pyval) (h : heap) :
  (forall self, preserves self (cls self ihdr chunk)) ->
  forall l o, h !! l = Some o -> snd (new cls ihdr chunk h) !! l = Some o.
Proof.
  intros P l o Hl. unfold new, bind, new_instance.
  set (self := fresh (dom h)).
  assert (Hne : l <> self).
  { intros ->. apply (is_fresh (dom h)). fold self. now apply elem_of_dom_2 in Hl. }
  specialize (P self (<[self := ∅]> h) l Hne).
  rewrite lookup_insert_ne in P by congruence.
  destruct (cls self ihdr chunk (<[self := ∅]> h)) as [[[]|e] h'];
    cbn [snd ret] in *; congruence.
Qed.

(** The registry has twelve classes; a type that is not in it has none. *)
Example chunk_parser_samples :
  length (@chunk_parser zlib_refuses) = 12%nat /\
  (exists cls, @chunk_parser_get zlib_refuses (str "gAMA") = Some cls) /\
  @chunk_parser_get zlib_refuses (str "IDAT") = None.
Proof. split; [reflexivity|]. split; [eexists|]; reflexivity. Qed.

(** C10: building any of the twelve decoders of the registry from a chunk
    leaves the chunk in the store with the attributes it had (type, offset,
    data, crc32, valid, term_color), whether the decoder returns or raises;
    and so it leaves every other instance that was in the store. *)
Theorem decoder_leaves_chunk `{Zlib} (key : bytes) (cls : parser_class)
  (h : heap) (ihdr : pyval) (r : loc) (c : PNGChunk.t) :
  In (key, cls) chunk_parser ->
  h !! r = Some (chunk_object c) ->
  snd (new cls ihdr (VRef r) h) !! r = Some (chunk_object c) /\
  forall l o, h !! l = Some o ->
              snd (new cls ihdr (VRef r) h) !! l = Some o.
Proof.
  intros Hin Hr.
  assert (P : forall l o, h !! l = Some o ->
                          snd (new cls ihdr (VRef r) h) !! l = Some o).
  { apply new_preserves. intros self.
    now apply (chunk_parser_preserves key cls Hin). }
  split; [now apply P|exact P].
Qed.

Lemma decoder_leaves_chunk_witness :
  let c := PNGChunk.init 8 (str "tEXt") (str "Title") 0 in
  let h : heap := <[1%positive := chunk_object c]> ∅ in
  snd (new tEXt_init VNone (VRef 1%positive) h) !! 1%positive =
    Some (chunk_object c).
Proof.
  intros c h.
  refine (proj1 (@decoder_leaves_chunk zlib_refuses (str "tEXt") tEXt_init h
                   VNone 1%positive c _ _)).
  - do 6 right. left. reflexivity.
  - reflexivity.
Defined.

(** ** Running a decoder on a chunk of the store *)

Lemma bind_ok {A B} (m : M A) (k : A -> M B) (h h' : heap) (a : A) :
  m h = (Ok a, h') -> bind m k h = k a h'.
Proof. intros E. unfold bind. now rewrite E. Qed.

Lemma bind_raise {A B} (m : M A) (k : A -> M B) (h h' : heap) (e : exn) :
  m h = (Raise e, h') -> bind m k h = (Raise e, h').
Proof. intros E. unfold bind. now rewrite E. Qed.

Lemma slice_all (s : bytes) : slice s 0 (len s) = s.
Proof.
  pose proof (len_nonneg s) as Hs.
  unfold slice. rewrite !clamp_nonneg by lia.
  replace (Z.min (len s) (len s)) with (len s) by lia.
  replace (Z.min 0 (len s)) with 0 by lia.
  cbn [Z.to_nat skipn]. rewrite Z.sub_0_r. unfold len.
  rewrite Nat2Z.id. apply firstn_all.
Qed.

Lemma index_ok (s : bytes) (i : Z) :
  0 <= i < len s -> index s i = Ok (nth (Z.to_nat i) s x00).
Proof.
  intros H. unfold index.
  rewrite (proj2 (Z.ltb_ge _ _) (proj1 H)), (proj2 (Z.ltb_ge _ _) (proj1 H)).
  destruct (nth_error s (Z.to_nat i)) as [c|] eqn:E.
  - now rewrite (nth_error_nth _ _ _ E).
  - apply nth_error_None in E. unfold len in H. lia.
Qed.

Lemma unpack_B_ok (c : byte) : unpack_B c = Ok (ord c).
Proof. reflexivity. Qed.

Section Run.

(** The store holds the chunk [c] at [r]; [l] is the instance that is being
    built. *)
Variables (h : heap) (r l : loc) (c : PNGChunk.t).
Hypothesis chunk_there : h !! r = Some (chunk_object c).
Hypothesis other : l <> r.

Lemma run_chunk_offset (ob : object) :
  getattr (VRef r) "offset" (<[l := ob]> h) =
    (Ok (VInt (PNGChunk.offset c)), <[l := ob]> h).
Proof.
  unfold getattr. rewrite lookup_insert_ne by exact other.
  now rewrite chunk_there.
Qed.

Lemma run_chunk_data (ob : object) :
  getattr (VRef r) "data" (<[l := ob]> h) =
    (Ok (VStr (PNGChunk.data c)), <[l := ob]> h).
Proof.
  unfold getattr. rewrite lookup_insert_ne by exact other.
  now rewrite chunk_there.
Qed.

Lemma run_setattr (ob : object) (name : string) (v : pyval) :
  setattr l name v (<[l := ob]> h) = (Ok tt, <[l := <[name := v]> ob]> h).
Proof. unfold setattr. now rewrite alter_insert_eq. Qed.

Lemma run_self_attr (ob : object) (name : string) (v : pyval) :
  ob !! name = Some v ->
  getattr (VRef l) name (<[l := ob]> h) = (Ok v, <[l := ob]> h).
Proof.
  intros E. unfold getattr. rewrite lookup_insert_eq. cbn. now rewrite E.
Qed.

Lemma run_Parser_init (ob : object) (value : bytes) (offset : pyval) :
  Parser_init l value offset (<[l := ob]> h) =
    (Ok tt, <[l := <["offset" := offset]> (<["type" := VStr value]> ob)]> h).
Proof.
  unfold Parser_init.
  rewrite (bind_ok _ _ _ _ _ (run_setattr ob "type" (VStr value))).
  apply run_setattr.
Qed.

(** What every decoder starts with: the offset of the chunk goes to
    [Parser.__init__] and the payload is read. *)
Lemma run_prologue {A} (value : bytes) (k : pyval -> M A) :
  bind (getattr (VRef r) "offset") (fun offset =>
    bind (Parser_init l value offset) (fun _ =>
      bind (getattr (VRef r) "data") k)) (<[l := ∅]> h) =
  k (VStr (PNGChunk.data c))
    (<[l := parser_object value (PNGChunk.offset c)]> h).
Proof.
  rewrite (bind_ok _ _ _ _ _ (run_chunk_offset ∅)).
  rewrite (bind_ok _ _ _ _ _ (run_Parser_init ∅ value _)).
  now rewrite (bind_ok _ _ _ _ _ (run_chunk_data _)).
Qed.

End Run.

Lemma run_unpack_I_at (data : bytes) (lo hi : Z) (h : heap) :
  0 <= lo -> hi = lo + 4 -> hi <= len data ->
  unpack_I_at (VStr data) lo hi h = (Ok (be_uint (slice data lo hi)), h).
Proof.
  intros H0 -> Hl. unfold unpack_I_at, getslice, as_str, bind, ret, lift, unpack_I.
  now rewrite sized_ok by (rewrite len_slice; lia).
Qed.

Lemma run_unpack_B_at (data : bytes) (i : Z) (h : heap) :
  0 <= i < len data ->
  unpack_B_at (VStr data) i h = (Ok (byte_at data (Z.to_nat i)), h).
Proof.
  intros H. unfold unpack_B_at, getitem, as_str, bind, ret, lift.
  now rewrite index_ok by exact H.
Qed.

(** The new instance is not the chunk. *)
Lemma fresh_other (h : heap) (r : loc) (o : object) :
  h !! r = Some o -> fresh (dom h) <> r.
Proof.
  intros Hr E. apply (is_fresh (dom h)). rewrite E.
  now apply elem_of_dom_2 in Hr.
Qed.

Lemma new_unfold (cls : parser_class) (ihdr chunk : pyval) (h : heap) :
  new cls ihdr chunk h =
    match cls (fresh (dom h)) ihdr chunk (<[fresh (dom h) := ∅]> h) with
    | (Ok _, h') => (Ok (VRef (fresh (dom h))), h')
    | (Raise e, h') => (Raise e, h')
    end.
Proof. reflexivity. Qed.

(** Runs the next statement of a decoder. *)
Ltac run_with lem := rewrite (bind_ok _ _ _ _ _ lem).

Ltac run_set := erewrite bind_ok; [|apply run_setattr].

Ltac run_I := erewrite bind_ok; [|apply run_unpack_I_at; lia].

Ltac run_B := erewrite bind_ok; [|apply run_unpack_B_at; lia].

(** ** The header *)

Lemma run_IHDR (h : heap) (r : loc) (c : PNGChunk.t) (ihdr : pyval) :
  h !! r = Some (chunk_object c) ->
  13 <= len (PNGChunk.data c) ->
  new IHDR_init ihdr (VRef r) h =
    (Ok (VRef (fresh (dom h))),
     <[fresh (dom h) := IHDR_object (PNGChunk.offset c) (PNGChunk.data c)]> h).
Proof.
  intros Hr Hlen. pose proof (fresh_other h r _ Hr) as Hne.
  rewrite new_unfold. unfold IHDR_init.
  rewrite (run_prologue h r _ c Hr Hne).
  run_I. run_set. run_I. run_set.
  run_B. run_set. run_B. run_set. run_B. run_set. run_B. run_set.
  run_B. rewrite run_setattr. reflexivity.
Qed.

(** ** The gamma *)

(** C9: from a chunk with a payload of four bytes, [gAMA] builds an instance
    whose [gamma] is the payload, read as an unsigned integer with the most
    significant byte first, divided by [100000.0] as IEEE doubles are; the
    four bytes that spell 45455 give the double [0.45455]. *)
Theorem gAMA_gamma (h : heap) (r : loc) (c : PNGChunk.t) (ihdr : pyval) :
  h !! r = Some (chunk_object c) ->
  len (PNGChunk.data c) = 4 ->
  new gAMA_init ihdr (VRef r) h =
    (Ok (VRef (fresh (dom h))),
     <[fresh (dom h) :=
         <["gamma" :=
             VFloat (PrimFloat.div
                       (PrimFloat.of_uint63
                          (Uint63.of_Z (be_uint (PNGChunk.data c))))
                       100000%float)]>
           (parser_object (str "gAMA") (PNGChunk.offset c))]> h) /\
  be_uint [x00; x00; xb1; x8f] = 45455 /\
  div_100000 45455 = 0.45455%float.
Proof.
  intros Hr Hlen. pose proof (fresh_other h r _ Hr) as Hne.
  split; [|split; reflexivity].
  rewrite new_unfold. unfold gAMA_init.
  rewrite (run_prologue h r _ c Hr Hne).
  run_I. rewrite run_setattr.
  rewrite <- Hlen, slice_all. reflexivity.
Qed.

Lemma gAMA_gamma_witness :
  let c := PNGChunk.init 8 (str "gAMA") [x00; x00; xb1; x8f] 0 in
  let h : heap := <[1%positive := chunk_object c]> ∅ in
  attr (snd (new gAMA_init VNone (VRef 1%positive) h)) (VRef 2%positive)
    "gamma" = Some (VFloat 0.45455%float).
Proof.
  intros c h.
  rewrite (proj1 (gAMA_gamma h 1%positive c VNone eq_refl eq_refl)).
  reflexivity.
Defined.

(** ** The header that is not there *)

Lemma run_bKGD_no_header (h : heap) (r : loc) (c : PNGChunk.t) :
  h !! r = Some (chunk_object c) ->
  new bKGD_init VNone (VRef r) h =
    (Raise (ParseError "IHDR is not set"),
     <[fresh (dom h) :=
         <["ihdr" := VNone]>
           (parser_object (str "bKGD") (PNGChunk.offset c))]> h).
Proof.
  intros Hr. pose proof (fresh_other h r _ Hr) as Hne.
  rewrite new_unfold. unfold bKGD_init.
  rewrite (run_prologue h r _ c Hr Hne).
  run_set. reflexivity.
Qed.

(** The chunk after [_chunk.term_color = v]. *)
Lemma chunk_object_term_color (c : PNGChunk.t) (v : bool) :
  <["term_color" := VBool v]> (chunk_object c) =
  chunk_object
    (PNGChunk.mk (PNGChunk.type c) (PNGChunk.offset c) (PNGChunk.data c)
       (PNGChunk.crc32 c) (PNGChunk.valid c) v).
Proof.
  unfold chunk_object. cbn [PNGChunk.type PNGChunk.offset PNGChunk.data
    PNGChunk.crc32 PNGChunk.valid PNGChunk.term_color].
  apply map_eq. intros k.
  repeat (rewrite lookup_insert; case_decide; [reflexivity|]).
  reflexivity.
Qed.

Lemma io_bind_ok {A B} (m : IO A) (k : A -> IO B) (s s' : heap * list printed)
  (a : A) :
  m s = (Ok a, s') -> io_bind m k s = k a s'.
Proof. intros E. unfold io_bind. now rewrite E. Qed.

Lemma io_bind_raise {A B} (m : IO A) (k : A -> IO B)
  (s s' : heap * list printed) (e : exn) :
  m s = (Raise e, s') -> io_bind m k s = (Raise e, s').
Proof. intros E. unfold io_bind. now rewrite E. Qed.

Lemma io_run {A} (m : M A) (h h' : heap) (out : list printed) (r : result A) :
  m h = (r, h') -> io m (h, out) = (r, (h', out)).
Proof. intros E. unfold io. cbn [fst snd]. now rewrite E. Qed.

(** A pass of the driver's loop for a [bKGD] chunk, no header having been
    decoded: the chunk is printed, whatever the command line, and the pass
    ends with the [ParseError] of the decoder. *)
Lemma for_body_bKGD_no_header `{Zlib} (args : Namespace) (png : PNGFile.t)
  (c : PNGChunk.t) (h : heap) (out : list printed) :
  PNGChunk.type c = str "bKGD" ->
  exists h',
    for_body args png VNone c (h, out) =
      (Raise (ParseError "IHDR is not set"),
       (h', out ++ [print_chunk (VRef (fresh (dom h)))])).
Proof.
  intros Ht. unfold for_body. rewrite Ht.
  rewrite (io_bind_ok _ _ _ _ _ (io_run (yield c) h _ out _ eq_refl)).
  change (str_eqb (str "bKGD") (str "IHDR")) with false. cbv iota.
  rewrite (io_bind_ok _ _ (_, out) _ VNone eq_refl).
  erewrite io_bind_ok;
    [|apply io_run; cbn [setattr_of]; apply run_setattr].
  rewrite chunk_object_term_color.
  set (c' := PNGChunk.mk _ _ _ _ _ _).
  set (l := fresh (dom h)).
  set (h1 := <[l := chunk_object c']> h).
  assert (Hl : h1 !! l = Some (chunk_object c'))
    by (unfold h1; apply lookup_insert_eq).
  pose proof (run_bKGD_no_header h1 l c' Hl) as Hrun.
  change (chunk_parser_get (str "bKGD")) with (Some bKGD_init).
  change (negb (str_eqb (str "bKGD") (str "IDAT"))) with true.
  cbn [orb].
  assert (E : print_chunk_and_p args VNone (VRef l) (str "bKGD")
                (Some bKGD_init) (h1, out) =
              (Raise (ParseError "IHDR is not set"),
               (<[fresh (dom h1) :=
                    <["ihdr" := VNone]>
                      (parser_object (str "bKGD") (PNGChunk.offset c'))]> h1,
                out ++ [print_chunk (VRef l)]))).
  { unfold print_chunk_and_p.
    rewrite (io_bind_ok (print (print_chunk (VRef l))) _ (h1, out) _ tt
               eq_refl). cbn [fst snd].
    apply io_bind_raise. now apply io_run. }
  eexists.
  destruct (verbose args); (erewrite io_bind_raise; [reflexivity|exact E]).
Qed.

(** The driver on a file whose first chunk is [bKGD]. *)
Lemma main_file_bKGD_first `{Zlib} (args : Namespace) (f : string)
  (data : bytes) (png : PNGFile.t) (c : PNGChunk.t) (rest : list PNGChunk.t)
  (e : ending) (h : heap) :
  PNGFile.init data = Ok png ->
  PNGFile.chunks png = (c :: rest, e) ->
  PNGChunk.type c = str "bKGD" ->
  exists h',
    main_file args f data (h, []) =
      (Ok tt,
       (h', [print_hash; print_chunk (VRef (fresh (dom h)));
             print_error "IHDR is not set" f])).
Proof.
  intros Hinit Hchunks Ht.
  destruct (for_body_bKGD_no_header args png c h [print_hash] Ht)
    as [h' Hbody].
  exists h'. unfold main_file, except_ParseError.
  rewrite (io_bind_ok _ _ (h, []) (h, []) png)
    by (apply io_run; unfold lift; now rewrite Hinit).
  rewrite (io_bind_ok (print print_hash) _ (h, []) (h, [print_hash]) tt
             eq_refl).
  rewrite Hchunks. cbn [for_chunks].
  erewrite io_bind_raise;
    [|apply io_bind_raise; exact Hbody].
  reflexivity.
Qed.




(** ** Samples of the header *)

(** The header chunk of the sample is valid and decodes to a picture of one
    pixel by one, eight bits deep, of colour type 2; with the last byte of
    its payload changed it is not valid and decodes all the same. *)
Example IHDR_samples :
  map PNGChunk.valid (fst (scan png_IHDR)) = [true] /\
  map PNGChunk.valid (fst (scan png_IHDR_flipped)) = [false] /\
  let h : heap := <[1%positive := chunk_object (chunk_at png_IHDR_flipped 8)]> ∅ in
  let h' := snd (new IHDR_init VNone (VRef 1%positive) h) in
  attr h' (VRef 2%positive) "width" = Some (VInt 1) /\
  attr h' (VRef 2%positive) "height" = Some (VInt 1) /\
  attr h' (VRef 2%positive) "bit_depth" = Some (VInt 8) /\
  attr h' (VRef 2%positive) "color_type" = Some (VInt 2).
Proof. repeat split; reflexivity. Qed.

(** ** Null-terminated fields *)

Lemma cstring_None (s : bytes) :
  Forall (fun b => ord b <> 0) s -> cstring s = None.
Proof.
  induction 1 as [|c s Hc _ IH]; [reflexivity|].
  cbn [cstring]. now rewrite (proj2 (Z.eqb_neq _ _) Hc), IH.
Qed.

Lemma cstring_Some (field rest : bytes) :
  Forall (fun b => ord b <> 0) field ->
  cstring (field ++ x00 :: rest) = Some (field, rest).
Proof.
  induction 1 as [|c s Hc _ IH]; [reflexivity|].
  cbn [cstring app]. now rewrite (proj2 (Z.eqb_neq _ _) Hc), IH.
Qed.

(** The loop over a field: it stops after the first zero byte, with the
    bytes before it appended to the attribute; with no zero byte it raises
    [IndexError] at the end of the string, having appended all of it. *)
Lemma run_read_cstring (h : heap) (l : loc) (name : string) (rest : bytes) :
  forall (acc : bytes) (ob : object) (offset : Z),
    read_cstring l name rest offset (<[l := <[name := VStr acc]> ob]> h) =
      match cstring rest with
      | Some (field, _) =>
          (Ok (offset + len field + 1),
           <[l := <[name := VStr (acc ++ field)]> ob]> h)
      | None =>
          (Raise (IndexError "string index out of range"),
           <[l := <[name := VStr (acc ++ rest)]> ob]> h)
      end.
Proof.
  induction rest as [|c rest IH]; intros acc ob offset; cbn [read_cstring cstring].
  - now rewrite app_nil_r.
  - destruct (ord c =? 0).
    + rewrite app_nil_r. unfold ret.
      now replace (offset + len [] + 1) with (offset + 1) by (unfold len; cbn; lia).
    + erewrite bind_ok; [|apply run_self_attr, lookup_insert_eq].
      cbn [as_str]. erewrite bind_ok; [|reflexivity].
      erewrite bind_ok; [|apply run_setattr].
      rewrite insert_insert_eq, IH.
      destruct (cstring rest) as [[field t]|].
      * rewrite <- app_assoc. cbn [app].
        now replace (offset + 1 + len field + 1)
          with (offset + len (c :: field) + 1)
          by (unfold len; cbn [length]; lia).
      * now rewrite <- app_assoc.
Qed.

Lemma run_while_cstring (h : heap) (l : loc) (name : string) (data : bytes)
  (offset : Z) (acc : bytes) (ob : object) :
  while_cstring l name (VStr data) offset
    (<[l := <[name := VStr acc]> ob]> h) =
  read_cstring l name (slice_from data offset) offset
    (<[l := <[name := VStr acc]> ob]> h).
Proof. reflexivity. Qed.

Lemma Forall_skipn {A} (P : A -> Prop) (n : nat) (s : list A) :
  Forall P s -> Forall P (skipn n s).
Proof.
  intros H. rewrite <- (firstn_skipn n s) in H.
  now apply Forall_app in H.
Qed.

(** A field that no zero byte ends: the loop raises [IndexError] at the end
    of the payload, with the bytes from [offset] on appended, and no more. *)
Lemma run_while_unterminated (h : heap) (l : loc) (name : string)
  (data : bytes) (offset : Z) (acc : bytes) (ob : object) :
  Forall (fun b => ord b <> 0) (slice_from data offset) ->
  while_cstring l name (VStr data) offset
    (<[l := <[name := VStr acc]> ob]> h) =
  (Raise (IndexError "string index out of range"),
   <[l := <[name := VStr (acc ++ slice_from data offset)]> ob]> h).
Proof.
  intros F. rewrite run_while_cstring, run_read_cstring.
  now rewrite (cstring_None _ F).
Qed.

Lemma slice_from_0 (s : bytes) : slice_from s 0 = s.
Proof. now rewrite slice_from_nonneg. Qed.

(** After the first statements, a decoder that starts with a field raises
    when the field has no end. *)
Ltac unterminated Hr Hne F :=
  rewrite new_unfold;
  try unfold iCCP_init; try unfold tEXt_init; try unfold zTXt_init;
  try unfold iTXt_init; try unfold pCAL_init;
  rewrite (run_prologue _ _ _ _ Hr Hne);
  run_set;
  erewrite bind_raise;
    [reflexivity
    |apply run_while_unterminated; rewrite slice_from_0; exact F].

(** C2, as the code has it: on a payload with no zero byte, each of the five
    decoders that start with a null-terminated field ([iCCP], [tEXt], [zTXt],
    [iTXt], [pCAL]) raises Python's [IndexError], "string index out of
    range", which is not an error of the parser's own; and wherever a
    null-terminated field is read from an offset with no zero byte after
    it, the loop raises that [IndexError] at the end of the payload, having
    appended to the attribute the bytes from the offset to the end and
    nothing else. *)
Theorem unterminated_field `{Zlib} (h : heap) (r : loc) (c : PNGChunk.t)
  (ihdr : pyval) :
  h !! r = Some (chunk_object c) ->
  (Forall (fun b => ord b <> 0) (PNGChunk.data c) ->
   Forall (fun cls : parser_class =>
             fst (new cls ihdr (VRef r) h) =
               Raise (IndexError "string index out of range"))
          [iCCP_init; tEXt_init; zTXt_init; iTXt_init; pCAL_init]) /\
  is_ParseError (IndexError "string index out of range") = false /\
  (forall l name acc ob offset,
     Forall (fun b => ord b <> 0) (slice_from (PNGChunk.data c) offset) ->
     while_cstring l name (VStr (PNGChunk.data c)) offset
       (<[l := <[name := VStr acc]> ob]> h) =
     (Raise (IndexError "string index out of range"),
      <[l := <[name := VStr (acc ++ slice_from (PNGChunk.data c) offset)]> ob]>
        h)).
Proof.
  intros Hr. pose proof (fresh_other h r _ Hr) as Hne.
  split; [|split; [reflexivity|]].
  - intros F. repeat constructor.
    + unterminated Hr Hne F.
    + unterminated Hr Hne F.
    + unterminated Hr Hne F.
    + unterminated Hr Hne F.
    + unterminated Hr Hne F.
  - intros l name acc ob offset F. now apply run_while_unterminated.
Qed.

Lemma unterminated_field_witness :
  let c := PNGChunk.init 8 (str "tEXt") (str "Comment") 0 in
  let h : heap := <[1%positive := chunk_object c]> ∅ in
  Forall (fun cls : parser_class =>
            fst (new cls VNone (VRef 1%positive) h) =
              Raise (IndexError "string index out of range"))
         [@iCCP_init zlib_refuses; tEXt_init; @zTXt_init zlib_refuses;
          @iTXt_init zlib_refuses; pCAL_init].
Proof.
  intros c h.
  apply (proj1 (@unterminated_field zlib_refuses h 1%positive c VNone eq_refl)).
  repeat constructor; discriminate.
Defined.

(** C2, as the specification has it, fails: on the payload "Comment" the
    text decoder ends with [IndexError], an error of the Python runtime that
    the parser neither defines nor catches. *)
Lemma unterminated_is_IndexError :
  let c := PNGChunk.init 8 (str "tEXt") (str "Comment") 0 in
  let h : heap := <[1%positive := chunk_object c]> ∅ in
  fst (new tEXt_init VNone (VRef 1%positive) h) =
    Raise (IndexError "string index out of range") /\
  (forall e, fst (new tEXt_init VNone (VRef 1%positive) h) = Raise e ->
             is_ParseError e = false).
Proof.
  intros c h. split; [reflexivity|].
  intros e E.
  change (@Raise pyval (IndexError "string index out of range") = Raise e) in E.
  now injection E as <-.
Qed.

(** ** Reading a payload field after field *)

Lemma slice_drop (s : bytes) (o k : Z) :
  0 <= o -> 0 <= k ->
  slice s o (o + k) = firstn (Z.to_nat k) (skipn (Z.to_nat o) s).
Proof.
  intros Ho Hk. pose proof (len_nonneg s) as Hs.
  unfold slice. rewrite !clamp_nonneg by lia.
  destruct (Z_le_gt_dec o (len s)) as [L|G].
  - rewrite (Z.min_l o) by lia.
    destruct (Z_le_gt_dec (o + k) (len s)) as [L'|G'].
    + rewrite Z.min_l by lia. f_equal. lia.
    + rewrite Z.min_r by lia.
      rewrite !firstn_all2; [reflexivity| |];
        rewrite length_skipn; unfold len in *; lia.
  - rewrite !Z.min_r by lia.
    rewrite skipn_all2 by (unfold len in *; lia).
    rewrite (skipn_all2 (n := Z.to_nat o)) by (unfold len in *; lia).
    now rewrite !firstn_nil.
Qed.

Lemma skipn_cons_nth_error {A} (n : nat) (s t : list A) (b : A) :
  skipn n s = b :: t -> nth_error s n = Some b.
Proof.
  revert s. induction n as [|n IH]; intros [|a s] E; cbn in *;
    try discriminate.
  - now injection E as ->.
  - now apply IH.
Qed.

Lemma at_offset_start (data : bytes) : at_offset data 0 data.
Proof. split; [lia|reflexivity]. Qed.

Lemma at_offset_skip (data : bytes) (o k : Z) (x t : bytes) :
  at_offset data o (x ++ t) -> len x = k -> at_offset data (o + k) t.
Proof.
  intros [Ho E] <-. pose proof (len_nonneg x). split; [lia|].
  rewrite Z2Nat.inj_add by lia. unfold len at 1. rewrite Nat2Z.id.
  rewrite Nat.add_comm, <- skipn_skipn, E.
  now rewrite skipn_app, skipn_all, Nat.sub_diag.
Qed.

Lemma at_offset_next (data : bytes) (o : Z) (b : byte) (t : bytes) :
  at_offset data o (b :: t) -> at_offset data (o + 1) t.
Proof. intros A. now apply (at_offset_skip data o 1 [b] t). Qed.

Lemma at_offset_field (data : bytes) (o : Z) (field t : bytes) :
  at_offset data o (field ++ x00 :: t) ->
  at_offset data (o + len field + 1) t.
Proof.
  intros A. apply (at_offset_next _ _ x00).
  now apply (at_offset_skip data o (len field) field).
Qed.

Lemma cur_I (data : bytes) (o : Z) (x t : bytes) (h : heap) :
  at_offset data o (x ++ t) -> len x = 4 ->
  unpack_I_at (VStr data) o (o + 4) h = (Ok (be_uint x), h).
Proof.
  intros [Ho E] Hx.
  change (unpack_I_at (VStr data) o (o + 4) h)
    with (unpack_I (slice data o (o + 4)), h).
  rewrite slice_drop by lia. rewrite E.
  rewrite firstn_app, firstn_all2 by (unfold len in Hx; lia).
  replace (Z.to_nat 4 - length x)%nat with 0%nat by (unfold len in Hx; lia).
  rewrite firstn_0, app_nil_r. unfold unpack_I.
  now rewrite sized_ok.
Qed.

Lemma cur_B (data : bytes) (o : Z) (b : byte) (t : bytes) (h : heap) :
  at_offset data o (b :: t) ->
  unpack_B_at (VStr data) o h = (Ok (ord b), h).
Proof.
  intros [Ho E].
  assert (I : index data o = Ok b).
  { unfold index.
    rewrite (proj2 (Z.ltb_ge _ _) Ho), (proj2 (Z.ltb_ge _ _) Ho).
    now rewrite (skipn_cons_nth_error _ _ _ _ E). }
  unfold unpack_B_at, getitem, as_str, bind, ret, lift. now rewrite I.
Qed.

Lemma cur_from (data : bytes) (o : Z) (t : bytes) (h : heap) :
  at_offset data o t -> getslice_from (VStr data) o h = (Ok t, h).
Proof.
  intros [Ho E].
  change (getslice_from (VStr data) o h) with (Ok (slice_from data o), h).
  now rewrite slice_from_nonneg, E.
Qed.

Lemma cur_cstring (data : bytes) (o : Z) (field t : bytes) (h : heap)
  (l : loc) (name : string) (acc : bytes) (ob : object) :
  at_offset data o (field ++ x00 :: t) ->
  Forall (fun b => ord b <> 0) field ->
  while_cstring l name (VStr data) o (<[l := <[name := VStr acc]> ob]> h) =
    (Ok (o + len field + 1), <[l := <[name := VStr (acc ++ field)]> ob]> h).
Proof.
  intros [Ho E] F. rewrite run_while_cstring, run_read_cstring.
  rewrite slice_from_nonneg, E by exact Ho.
  now rewrite (cstring_Some _ _ F).
Qed.

(** ** The pixel calibration *)

Lemma be_uint_top_byte (b0 b1 b2 b3 : byte) :
  128 <= ord b0 -> 2 ^ 31 <= be_uint [b0; b1; b2; b3].
Proof.
  intros H. unfold be_uint. cbn [fold_left].
  pose proof (ord_range b1). pose proof (ord_range b2).
  pose proof (ord_range b3). lia.
Qed.

(** From a payload made of a name, a zero byte, four bytes, four bytes, two
    bytes, a unit, a zero byte, a parameter, a zero byte and the rest,
    [pCAL] builds its instance. *)
Lemma run_pCAL (h : heap) (r : loc) (c : PNGChunk.t)
  (ihdr : pyval) (name x0 x1 : bytes) (eqtype num_params : byte)
  (unit_name p0 pl : bytes) :
  h !! r = Some (chunk_object c) ->
  PNGChunk.data c =
    name ++ x00 :: x0 ++ x1 ++ eqtype :: num_params
      :: unit_name ++ x00 :: p0 ++ x00 :: pl ->
  Forall (fun b => ord b <> 0) name ->
  Forall (fun b => ord b <> 0) unit_name ->
  Forall (fun b => ord b <> 0) p0 ->
  len x0 = 4 -> len x1 = 4 ->
  new pCAL_init ihdr (VRef r) h =
    (Ok (VRef (fresh (dom h))),
     <[fresh (dom h) :=
         pCAL_object (PNGChunk.offset c) name (be_uint x0) (be_uint x1)
           (ord eqtype) (ord num_params) unit_name p0 pl]> h).
Proof.
  intros Hr Hd Fn Fu Fp H0 H1. pose proof (fresh_other h r _ Hr) as Hne.
  pose proof (at_offset_start (PNGChunk.data c)) as A0.
  rewrite Hd in A0 at 2.
  pose proof (at_offset_field _ _ _ _ A0) as A1.
  pose proof (at_offset_skip _ _ 4 _ _ A1 H0) as A2.
  pose proof (at_offset_skip _ _ 4 _ _ A2 H1) as A3.
  pose proof (at_offset_next _ _ _ _ A3) as A4.
  pose proof (at_offset_next _ _ _ _ A4) as A5.
  pose proof (at_offset_field _ _ _ _ A5) as A6.
  pose proof (at_offset_field _ _ _ _ A6) as A7.
  rewrite new_unfold. unfold pCAL_init.
  rewrite (run_prologue h r _ c Hr Hne).
  run_set.
  erewrite bind_ok; [|apply (cur_cstring _ _ _ _ _ _ _ _ _ A0 Fn)].
  erewrite bind_ok; [|apply (cur_I _ _ _ _ _ A1 H0)]. run_set.
  erewrite bind_ok; [|apply (cur_I _ _ _ _ _ A2 H1)]. run_set.
  erewrite bind_ok; [|apply (cur_B _ _ _ _ _ A3)]. run_set.
  erewrite bind_ok; [|apply (cur_B _ _ _ _ _ A4)]. run_set.
  run_set.
  erewrite bind_ok; [|apply (cur_cstring _ _ _ _ _ _ _ _ _ A5 Fu)].
  run_set.
  erewrite bind_ok; [|apply (cur_cstring _ _ _ _ _ _ _ _ _ A6 Fp)].
  erewrite bind_ok; [|apply (cur_from _ _ _ _ A7)].
  rewrite run_setattr. reflexivity.
Qed.

Lemma ord_0 (c : byte) : ord c = 0 -> c = x00.
Proof.
  intros H. pose proof (Byte.of_to_N c) as E. unfold ord in H.
  replace (Byte.to_N c) with 0%N in E by lia. cbn in E. now injection E.
Qed.

Lemma cstring_inv (s : bytes) :
  forall field rest,
    cstring s = Some (field, rest) ->
    s = field ++ x00 :: rest /\ Forall (fun b => ord b <> 0) field.
Proof.
  induction s as [|c s IH]; intros field rest; cbn [cstring]; [discriminate|].
  destruct (Z.eqb_spec (ord c) 0) as [Z0|NZ].
  - intros [= <- <-]. rewrite (ord_0 c Z0). split; [reflexivity|constructor].
  - destruct (cstring s) as [[f t]|]; [|discriminate].
    intros [= <- <-]. destruct (IH f t eq_refl) as [-> F].
    split; [reflexivity|now constructor].
Qed.

Lemma cur_cstring_fail (data : bytes) (o : Z) (t : bytes) (h : heap)
  (l : loc) (name : string) (acc : bytes) (ob : object) :
  at_offset data o t -> cstring t = None ->
  while_cstring l name (VStr data) o (<[l := <[name := VStr acc]> ob]> h) =
    (Raise (IndexError "string index out of range"),
     <[l := <[name := VStr (acc ++ t)]> ob]> h).
Proof.
  intros [Ho E] C. rewrite run_while_cstring, run_read_cstring.
  rewrite slice_from_nonneg, E by exact Ho. now rewrite C.
Qed.

Lemma cur_I_fail (data : bytes) (o : Z) (t : bytes) (h : heap) :
  at_offset data o t -> len t < 4 ->
  unpack_I_at (VStr data) o (o + 4) h = (Raise (unpack_size_error 4), h).
Proof.
  intros [Ho E] Hs.
  change (unpack_I_at (VStr data) o (o + 4) h)
    with (unpack_I (slice data o (o + 4)), h).
  rewrite slice_drop by lia. rewrite E. unfold unpack_I.
  rewrite sized_raise; [reflexivity|].
  unfold len in *. rewrite length_firstn. lia.
Qed.

Lemma cur_B_fail (data : bytes) (o : Z) (h : heap) :
  at_offset data o [] ->
  unpack_B_at (VStr data) o h =
    (Raise (IndexError "string index out of range"), h).
Proof.
  intros [Ho E].
  assert (I : index data o = Raise (IndexError "string index out of range")).
  { unfold index.
    rewrite (proj2 (Z.ltb_ge _ _) Ho), (proj2 (Z.ltb_ge _ _) Ho).
    assert (N : nth_error data (Z.to_nat o) = None).
    { apply nth_error_None. apply (f_equal (@length byte)) in E.
      rewrite length_skipn in E. cbn in E. lia. }
    now rewrite N. }
  unfold unpack_B_at, getitem, as_str, bind, ret, lift. now rewrite I.
Qed.

Lemma split_4 (t : bytes) :
  ~ len t < 4 -> exists x t', t = x ++ t' /\ len x = 4.
Proof.
  intros H. exists (firstn 4 t), (skipn 4 t). split.
  - now rewrite firstn_skipn.
  - unfold len in *. rewrite length_firstn. lia.
Qed.

(** Gives up when the statement that was run has raised. *)
Ltac raised lem :=
  erewrite bind_raise; [|eapply lem; eassumption]; intros E; discriminate E.

(** When [pCAL] returns, the payload was a name, a zero byte, four bytes, four
    bytes, two bytes, a unit, a zero byte, a parameter, a zero byte and the
    rest. *)
Lemma pCAL_returns (h : heap) (r : loc) (c : PNGChunk.t) (ihdr v : pyval)
  (h' : heap) :
  h !! r = Some (chunk_object c) ->
  new pCAL_init ihdr (VRef r) h = (Ok v, h') ->
  exists name x0 x1 eqtype num_params unit_name p0 pl,
    PNGChunk.data c =
      name ++ x00 :: x0 ++ x1 ++ eqtype :: num_params
        :: unit_name ++ x00 :: p0 ++ x00 :: pl /\
    Forall (fun b => ord b <> 0) name /\
    Forall (fun b => ord b <> 0) unit_name /\
    Forall (fun b => ord b <> 0) p0 /\
    len x0 = 4 /\ len x1 = 4.
Proof.
  intros Hr. pose proof (fresh_other h r _ Hr) as Hne.
  rewrite new_unfold. unfold pCAL_init.
  rewrite (run_prologue h r _ c Hr Hne).
  run_set.
  pose proof (at_offset_start (PNGChunk.data c)) as A0.
  destruct (cstring (PNGChunk.data c)) as [[name T1]|] eqn:C0;
    [|raised cur_cstring_fail].
  destruct (cstring_inv _ _ _ C0) as [D0 Fn]. rewrite D0 in A0 at 2.
  erewrite bind_ok; [|apply (cur_cstring _ _ _ _ _ _ _ _ _ A0 Fn)].
  pose proof (at_offset_field _ _ _ _ A0) as A1.
  destruct (Z_lt_dec (len T1) 4) as [S1|S1]; [raised cur_I_fail|].
  destruct (split_4 T1 S1) as (x0 & T2 & -> & H0).
  erewrite bind_ok; [|apply (cur_I _ _ _ _ _ A1 H0)]. run_set.
  pose proof (at_offset_skip _ _ 4 _ _ A1 H0) as A2.
  destruct (Z_lt_dec (len T2) 4) as [S2|S2]; [raised cur_I_fail|].
  destruct (split_4 T2 S2) as (x1 & T3 & -> & H1).
  erewrite bind_ok; [|apply (cur_I _ _ _ _ _ A2 H1)]. run_set.
  pose proof (at_offset_skip _ _ 4 _ _ A2 H1) as A3.
  destruct T3 as [|eqtype T4]; [raised cur_B_fail|].
  erewrite bind_ok; [|apply (cur_B _ _ _ _ _ A3)]. run_set.
  pose proof (at_offset_next _ _ _ _ A3) as A4.
  destruct T4 as [|num_params T5]; [raised cur_B_fail|].
  erewrite bind_ok; [|apply (cur_B _ _ _ _ _ A4)]. run_set.
  pose proof (at_offset_next _ _ _ _ A4) as A5.
  run_set.
  destruct (cstring T5) as [[unit_name T6]|] eqn:C5;
    [|raised cur_cstring_fail].
  destruct (cstring_inv _ _ _ C5) as [-> Fu].
  erewrite bind_ok; [|apply (cur_cstring _ _ _ _ _ _ _ _ _ A5 Fu)].
  pose proof (at_offset_field _ _ _ _ A5) as A6.
  run_set.
  destruct (cstring T6) as [[p0 pl]|] eqn:C6;
    [|raised cur_cstring_fail].
  destruct (cstring_inv _ _ _ C6) as [-> Fp].
  intros _. exists name, x0, x1, eqtype, num_params, unit_name, p0, pl.
  auto 10.
Qed.

(** How far the wrong reading goes: whenever [pCAL] builds an instance from
    a chunk, the payload is a name, a zero byte, then two groups of four
    bytes (and more after them), and [x0] and [x1] hold the unsigned readings
    of the two groups, most significant byte first: every group whose first
    byte has its top bit set comes out as [2^31] or more, where the signed
    reading is negative. *)
Theorem pCAL_x0_x1_unsigned (h : heap) (r : loc) (c : PNGChunk.t)
  (ihdr v : pyval) (h' : heap) :
  h !! r = Some (chunk_object c) ->
  new pCAL_init ihdr (VRef r) h = (Ok v, h') ->
  exists name x0 x1 rest,
    PNGChunk.data c = name ++ x00 :: x0 ++ x1 ++ rest /\
    Forall (fun b => ord b <> 0) name /\
    len x0 = 4 /\ len x1 = 4 /\
    attr h' v "x0" = Some (VInt (be_uint x0)) /\
    attr h' v "x1" = Some (VInt (be_uint x1)) /\
    0 <= be_uint x0 < 2 ^ 32 /\
    0 <= be_uint x1 < 2 ^ 32 /\
    (forall b0 b1 b2 b3,
       x0 = [b0; b1; b2; b3] -> 128 <= ord b0 -> 2 ^ 31 <= be_uint x0) /\
    (forall b0 b1 b2 b3,
       x1 = [b0; b1; b2; b3] -> 128 <= ord b0 -> 2 ^ 31 <= be_uint x1).
Proof.
  intros Hr Hrun.
  destruct (pCAL_returns h r c ihdr v h' Hr Hrun)
    as (name & x0 & x1 & eqtype & num_params & unit_name & p0 & pl
        & Hd & Fn & Fu & Fp & H0 & H1).
  rewrite (run_pCAL h r c ihdr name x0 x1 eqtype num_params unit_name p0 pl
             Hr Hd Fn Fu Fp H0 H1) in Hrun.
  injection Hrun as <- <-.
  exists name, x0, x1,
    (eqtype :: num_params :: unit_name ++ x00 :: p0 ++ x00 :: pl).
  split; [exact Hd|]. split; [exact Fn|]. split; [exact H0|].
  split; [exact H1|].
  split; [|split; [|split; [now apply be_uint_4|split; [now apply be_uint_4|]]]].
  - unfold attr. rewrite lookup_insert_eq. reflexivity.
  - unfold attr. rewrite lookup_insert_eq. reflexivity.
  - split; intros b0 b1 b2 b3 ->; apply be_uint_top_byte.
Qed.

Lemma pCAL_x0_x1_unsigned_witness :
  let c := PNGChunk.init 8 (str "pCAL") pCAL_payload 0 in
  let h : heap := <[1%positive := chunk_object c]> ∅ in
  exists name x0 x1 rest,
    pCAL_payload = name ++ x00 :: x0 ++ x1 ++ rest /\
    attr (snd (new pCAL_init VNone (VRef 1%positive) h)) (VRef 2%positive)
      "x0" = Some (VInt (be_uint x0)) /\
    0 <= be_uint x0 < 2 ^ 32.
Proof.
  intros c h.
  destruct (pCAL_x0_x1_unsigned h 1%positive c VNone (VRef 2%positive)
              (snd (new pCAL_init VNone (VRef 1%positive) h))
              eq_refl eq_refl)
    as (name & x0 & x1 & rest & Hd & _ & _ & _ & E0 & _ & R0 & _).
  exists name, x0, x1, rest. auto.
Defined.

(** C8: the code does not do what the specification says.  [pCAL.__init__]
    reads [x0] and [x1] with the format [">I"], not [">i"]: on the payload
    whose two groups are [FF FF FF FF] and [80 00 00 00] it stores 4294967295
    and 2147483648, where the signed readings of the same bytes (the ones
    [struct.unpack(">i", ...)] gives, as the reader has them for the
    checksum) are -1 and -2147483648; [x0] is not negative. *)
Lemma pCAL_x0_not_negative :
  let c := PNGChunk.init 8 (str "pCAL") pCAL_payload 0 in
  let h : heap := <[1%positive := chunk_object c]> ∅ in
  let h' := snd (new pCAL_init VNone (VRef 1%positive) h) in
  fst (new pCAL_init VNone (VRef 1%positive) h) = Ok (VRef 2%positive) /\
  attr h' (VRef 2%positive) "x0" = Some (VInt 4294967295) /\
  attr h' (VRef 2%positive) "x1" = Some (VInt 2147483648) /\
  unpack_i [xff; xff; xff; xff] = Ok (-1) /\
  unpack_i [x80; x00; x00; x00] = Ok (-2147483648) /\
  ~ (exists n, attr h' (VRef 2%positive) "x0" = Some (VInt n) /\ n < 0).
Proof.
  intros c h h'.
  assert (E : attr h' (VRef 2%positive) "x0" = Some (VInt 4294967295))
    by reflexivity.
  repeat split; try reflexivity.
  intros (n & En & Hn). rewrite E in En. injection En as <-. lia.
Qed.

(** ** The decoders do not see the checksum *)

Create HintDb blind.

Lemma blind_ret {A} (r : loc) (a : A) : blind r (ret a).
Proof. now intros h1 h2 R. Qed.

Lemma blind_raise {A} (r : loc) (e : exn) : blind r (raise e : M A).
Proof. now intros h1 h2 R. Qed.

Lemma blind_lift {A} (r : loc) (x : result A) : blind r (lift x).
Proof. now intros h1 h2 R. Qed.

Lemma blind_bind {A B} (r : loc) (m : M A) (k : A -> M B) :
  blind r m -> (forall a, blind r (k a)) -> blind r (bind m k).
Proof.
  intros Hm Hk h1 h2 R. unfold bind. destruct (Hm h1 h2 R) as [E R'].
  destruct (m h1) as [[a|e] h1'], (m h2) as [[a'|e'] h2'];
    cbn [fst snd] in *; try discriminate.
  - injection E as <-. now apply Hk.
  - injection E as <-. auto.
Qed.

Lemma chunk_object_lookup (c c' : PNGChunk.t) (name : string) :
  same_but_checksum c c' ->
  name <> "crc32" -> name <> "valid" ->
  chunk_object c !! name = chunk_object c' !! name.
Proof.
  intros (Et & Eo & Ed & Ec) N1 N2. unfold chunk_object.
  rewrite Et, Eo, Ed, Ec.
  rewrite !lookup_insert.
  repeat (case_decide; [first [reflexivity | congruence]|]).
  reflexivity.
Qed.

(** Reading an attribute other than the checksum and the validity. *)
Lemma blind_getattr (r : loc) (o : pyval) (name : string) :
  name <> "crc32" -> name <> "valid" -> blind r (getattr o name).
Proof.
  intros N1 N2 h1 h2 R. unfold getattr.
  destruct o as [| | | | | |l]; try (split; [reflexivity|exact R]).
  assert (E : h1 !! l ≫= (fun ob => ob !! name) =
              h2 !! l ≫= (fun ob => ob !! name)).
  { destruct R as (Hother & c & c' & S & H1 & H2).
    destruct (decide (l = r)) as [->|Hne].
    - rewrite H1, H2. cbn. now apply chunk_object_lookup.
    - now rewrite (Hother l Hne). }
  rewrite E. now destruct (h2 !! l ≫= _).
Qed.

(** Reading any attribute of an instance that is not the chunk. *)
Lemma blind_getattr_other (r l : loc) (name : string) :
  l <> r -> blind r (getattr (VRef l) name).
Proof.
  intros Hne h1 h2 R. unfold getattr.
  rewrite (proj1 R l Hne). now destruct (h2 !! l ≫= _).
Qed.

Lemma blind_setattr (r self : loc) (name : string) (v : pyval) :
  self <> r -> blind r (setattr self name v).
Proof.
  intros Hne h1 h2 (Hother & c & c' & S & H1 & H2). unfold setattr.
  split; [reflexivity|]. cbn [snd]. split.
  - intros l Hl. rewrite !lookup_alter. case_decide; [|now apply Hother].
    subst l. now rewrite (Hother self Hl).
  - exists c, c'. rewrite !lookup_alter_ne by exact Hne. auto.
Qed.

Lemma blind_as_str (r : loc) (v : pyval) : blind r (as_str v).
Proof. destruct v; (apply blind_ret || apply blind_raise). Qed.

#[local] Hint Resolve blind_ret blind_raise blind_lift blind_setattr
  blind_getattr_other blind_as_str : blind.

#[local] Hint Extern 1 (blind _ (getattr _ _)) =>
  apply blind_getattr; discriminate : blind.

Ltac blind :=
  repeat first
    [ apply blind_bind; [|intros ?]
    | match goal with
      | |- blind _ (if ?b then _ else _) => destruct b
      | |- blind _ (match ?v with _ => _ end) => destruct v
      end
    | solve [auto with blind] ].

Lemma blind_getitem (r : loc) (data : pyval) (i : Z) :
  blind r (getitem data i).
Proof. unfold getitem. blind. Qed.

Lemma blind_getslice (r : loc) (data : pyval) (lo hi : Z) :
  blind r (getslice data lo hi).
Proof. unfold getslice. blind. Qed.

Lemma blind_getslice_from (r : loc) (data : pyval) (lo : Z) :
  blind r (getslice_from data lo).
Proof. unfold getslice_from. blind. Qed.

#[local] Hint Resolve blind_getitem blind_getslice blind_getslice_from
  : blind.

Lemma blind_unpack_B_at (r : loc) (data : pyval) (i : Z) :
  blind r (unpack_B_at data i).
Proof. unfold unpack_B_at. blind. Qed.

Lemma blind_unpack_I_at (r : loc) (data : pyval) (lo hi : Z) :
  blind r (unpack_I_at data lo hi).
Proof. unfold unpack_I_at. blind. Qed.

Lemma blind_unpack_H_at (r : loc) (data : pyval) (lo hi : Z) :
  blind r (unpack_H_at data lo hi).
Proof. unfold unpack_H_at. blind. Qed.

Lemma blind_decompress `{Zlib} (r : loc) (s : bytes) :
  blind r (decompress s).
Proof. unfold decompress. blind. Qed.

Lemma blind_Parser_init (r self : loc) (value : bytes) (offset : pyval) :
  self <> r -> blind r (Parser_init self value offset).
Proof. intros Hne. unfold Parser_init. blind. Qed.

Lemma blind_read_cstring (r self : loc) (name : string) (rest : bytes) :
  self <> r ->
  forall offset, blind r (read_cstring self name rest offset).
Proof.
  intros Hne.
  induction rest as [|c rest IH]; intros offset; cbn [read_cstring]; blind.
Qed.

#[local] Hint Resolve blind_unpack_B_at blind_unpack_I_at blind_unpack_H_at
  blind_decompress blind_Parser_init blind_read_cstring : blind.

Lemma blind_while_cstring (r self : loc) (name : string) (data : pyval)
  (offset : Z) :
  self <> r -> blind r (while_cstring self name data offset).
Proof. intros Hne. unfold while_cstring. blind. Qed.

#[local] Hint Resolve blind_while_cstring : blind.

Lemma chunk_parser_blind `{Zlib} (key : bytes) (cls : parser_class) :
  In (key, cls) chunk_parser ->
  forall r self ihdr chunk, self <> r -> blind r (cls self ihdr chunk).
Proof.
  intros Hin r self ihdr chunk Hne. unfold chunk_parser in Hin.
  cbn [In] in Hin.
  repeat (destruct Hin as [Hin|Hin];
          [injection Hin as _ <-|]); [..|contradiction].
  - unfold IHDR_init. blind.
  - unfold sRGB_init. blind.
  - unfold bKGD_init. blind.
  - unfold pHYs_init. blind.
  - unfold tIME_init. blind.
  - unfold iCCP_init. blind.
  - unfold tEXt_init. blind.
  - unfold zTXt_init. blind.
  - unfold iTXt_init. blind.
  - unfold pCAL_init. blind.
  - unfold cHRM_init. blind.
  - unfold gAMA_init. blind.
Qed.

Lemma same_but_checksum_at_dom (r : loc) (h1 h2 : heap) :
  same_but_checksum_at r h1 h2 -> dom h1 = dom h2.
Proof.
  intros (Hother & c & c' & _ & H1 & H2). apply set_eq. intros l.
  rewrite !elem_of_dom. destruct (decide (l = r)) as [->|Hne].
  - rewrite H1, H2. split; eauto.
  - now rewrite (Hother l Hne).
Qed.

(** Calling a class of the registry on two stores that are the same but for
    the checksum and the validity of the chunk gives the same result and the
    same new instance. *)
Lemma new_blind `{Zlib} (key : bytes) (cls : parser_class) (r : loc)
  (ihdr chunk : pyval) :
  In (key, cls) chunk_parser -> blind r (new cls ihdr chunk).
Proof.
  intros Hin h1 h2 R. unfold new, bind, new_instance.
  rewrite <- (same_but_checksum_at_dom r h1 h2 R).
  set (self := fresh (dom h1)).
  assert (Hne : self <> r).
  { destruct R as (_ & c & _ & _ & H1 & _). exact (fresh_other h1 r _ H1). }
  assert (R' : same_but_checksum_at r (<[self := ∅]> h1) (<[self := ∅]> h2)).
  { destruct R as (Hother & c & c' & S & H1 & H2). split.
    - intros l Hl. rewrite !lookup_insert. case_decide; [reflexivity|].
      now apply Hother.
    - exists c, c'. rewrite !lookup_insert_ne by exact Hne. auto. }
  destruct (chunk_parser_blind key cls Hin r self ihdr chunk Hne _ _ R')
    as [E R''].
  destruct (cls self ihdr chunk (<[self := ∅]> h1)) as [[[]|e] h1'],
           (cls self ihdr chunk (<[self := ∅]> h2)) as [[[]|e'] h2'];
    cbn [fst snd ret] in *; try discriminate; auto.
  injection E as <-. auto.
Qed.

(** ** A chunk with a wrong checksum *)

Lemma with_matching_checksum_valid (c : PNGChunk.t) :
  PNGChunk.valid (with_matching_checksum c) = true.
Proof. cbn. apply Z.eqb_refl. Qed.

(** C5: a chunk whose four checksum bytes do not spell the CRC-32 of its
    type and payload is yielded all the same, with [valid] false.  Decoding
    does not see the difference: every class of the registry gives, for this
    chunk and for the chunk with the same type, offset and payload and the
    matching checksum (which is valid), the same result and the same new
    instance; and [IHDR], from a payload of at least 13 bytes, builds the
    instance whose width, height, bit depth, colour type and the rest are
    read from the payload alone. *)
Theorem invalid_chunk_decoded `{Zlib} (self : PNGFile.t) (offset : Z)
  (yielded : list PNGChunk.t) :
  reaches self offset yielded ->
  offset < len (PNGFile.data self) ->
  ~ overrun (PNGFile.data self) offset ->
  let c := chunk_at (PNGFile.data self) offset in
  crc32_standard (PNGChunk.type c ++ PNGChunk.data c) <>
    be_uint (stored_checksum (PNGFile.data self) c) ->
  In c (fst (PNGFile.chunks self)) /\
  PNGChunk.valid c = false /\
  PNGChunk.valid (with_matching_checksum c) = true /\
  (forall key cls h r ihdr,
     In (key, cls) chunk_parser ->
     h !! r = Some (chunk_object c) ->
     let h' := <[r := chunk_object (with_matching_checksum c)]> h in
     fst (new cls ihdr (VRef r) h) = fst (new cls ihdr (VRef r) h') /\
     snd (new cls ihdr (VRef r) h) !! fresh (dom h) =
       snd (new cls ihdr (VRef r) h') !! fresh (dom h)) /\
  (forall h r ihdr,
     h !! r = Some (chunk_object c) ->
     13 <= len (PNGChunk.data c) ->
     new IHDR_init ihdr (VRef r) h =
       (Ok (VRef (fresh (dom h))),
        <[fresh (dom h) :=
            IHDR_object (PNGChunk.offset c) (PNGChunk.data c)]> h)).
Proof.
  intros R Hlt Hn c Hcrc. pose proof (reaches_offset _ _ _ R) as H8.
  assert (Hin : In c (fst (PNGFile.chunks self))).
  { rewrite (reaches_chunks self offset yielded R (S (passes_left self offset)))
      by lia.
    cbn [PNGFile.chunks_from fst].
    rewrite (proj2 (Z.ltb_lt _ _) Hlt).
    rewrite chunks_body_ok by first [assumption | lia].
    destruct (PNGFile.chunks_from _ self _) as [rest e].
    cbn [fst]. apply in_or_app. right. now left. }
  split; [exact Hin|]. split; [|split; [|split]].
  - pose proof (yielded_valid self c Hin) as V.
    destruct (PNGChunk.valid c); [|reflexivity].
    contradiction Hcrc. now apply V.
  - apply with_matching_checksum_valid.
  - intros key cls h r ihdr Hk Hr h'.
    assert (S : same_but_checksum_at r h h').
    { split.
      - intros l Hl. unfold h'. now rewrite lookup_insert_ne.
      - exists c, (with_matching_checksum c). unfold h'.
        rewrite lookup_insert_eq. repeat split; auto. }
    destruct (new_blind key cls r ihdr (VRef r) Hk h h' S) as [E [Hother _]].
    split; [exact E|]. apply Hother. exact (fresh_other h r _ Hr).
  - intros h r ihdr Hr Hlen. now apply run_IHDR.
Qed.

Lemma invalid_chunk_decoded_witness :
  In (chunk_at png_IHDR_flipped 8)
     (fst (PNGFile.chunks
             {| PNGFile.size := 33; PNGFile.data := png_IHDR_flipped |})) /\
  PNGChunk.valid (chunk_at png_IHDR_flipped 8) = false.
Proof.
  assert (N : ~ overrun png_IHDR_flipped 8).
  { intros [O|O]; vm_compute in O; discriminate. }
  assert (C : crc32_standard
                (PNGChunk.type (chunk_at png_IHDR_flipped 8)
                 ++ PNGChunk.data (chunk_at png_IHDR_flipped 8)) <>
              be_uint (stored_checksum png_IHDR_flipped
                         (chunk_at png_IHDR_flipped 8))).
  { vm_compute. discriminate. }
  pose proof (@invalid_chunk_decoded zlib_refuses
                {| PNGFile.size := 33; PNGFile.data := png_IHDR_flipped |}
                8 [] (reaches_start _) eq_refl N C) as H.
  split; apply H.
Defined.

(** * More of the reader *)

Lemma chunks_body_raise (self : PNGFile.t) (offset : Z) (e : exn) :
  0 <= offset ->
  PNGFile.chunks_body self offset = Raise e -> e = unpack_size_error 4.
Proof.
  intros H0 E. destruct (overrun_dec (PNGFile.data self) offset) as [Ho|Hn].
  - rewrite chunks_body_overrun in E by assumption. now injection E.
  - rewrite chunks_body_ok in E by assumption. discriminate.
Qed.

Lemma chunks_from_ending (self : PNGFile.t) (fuel : nat) :
  forall offset,
    0 <= offset ->
    (passes_left self offset < fuel)%nat ->
    snd (PNGFile.chunks_from fuel self offset) = StopIteration \/
    snd (PNGFile.chunks_from fuel self offset) =
      Raised (struct_error "unpack requires a string argument of length 4").
Proof.
  induction fuel as [|fuel IH]; intros offset H0 Hf; [lia|].
  cbn [PNGFile.chunks_from].
  destruct (Z.ltb_spec offset (len (PNGFile.data self))) as [Hlt|Hge];
    [|now left].
  destruct (PNGFile.chunks_body self offset) as [[chunk offset']|e] eqn:E.
  - destruct (passes_left_next self offset chunk offset' H0 Hlt E) as [Hn Hp].
    specialize (IH offset' ltac:(lia) ltac:(lia)).
    destruct (PNGFile.chunks_from fuel self offset'). exact IH.
  - right. cbn [snd]. now rewrite (chunks_body_raise self offset e H0 E).
Qed.

(** X1: whatever the data, iterating [chunks] comes to an end, and it ends
    in one of two ways: the generator is exhausted, or it raises the
    [struct.error] of a four-byte field that is cut short.  It raises
    nothing else; in particular never a [ParseError]. *)
Theorem chunks_ending (self : PNGFile.t) :
  snd (PNGFile.chunks self) = StopIteration \/
  snd (PNGFile.chunks self) =
    Raised (struct_error "unpack requires a string argument of length 4").
Proof.
  apply chunks_from_ending; [discriminate|apply chunks_fuel].
Qed.

Lemma chunks_from_span (self : PNGFile.t) (fuel : nat) :
  forall offset,
    0 <= offset ->
    tiles offset (fst (PNGFile.chunks_from fuel self offset)) /\
    (fst (PNGFile.chunks_from fuel self offset) <> [] ->
     offset + span (fst (PNGFile.chunks_from fuel self offset))
       <= len (PNGFile.data self)) /\
    (snd (PNGFile.chunks_from fuel self offset) = StopIteration ->
     offset <= len (PNGFile.data self) ->
     offset + span (fst (PNGFile.chunks_from fuel self offset))
       = len (PNGFile.data self)).
Proof.
  induction fuel as [|fuel IH]; intros offset H0; cbn [PNGFile.chunks_from].
  - cbn. repeat split; [congruence|discriminate].
  - destruct (Z.ltb_spec offset (len (PNGFile.data self))) as [Hlt|Hge].
    2: { cbn. repeat split; [congruence|lia]. }
    destruct (PNGFile.chunks_body self offset) as [[chunk offset']|e] eqn:E.
    2: { cbn. repeat split; [congruence|discriminate]. }
    apply chunks_body_inv in E as (Hn & -> & ->); [|exact H0].
    pose proof (declared_length_nonneg (PNGFile.data self) offset) as Hd.
    destruct (chunk_at_fields (PNGFile.data self) offset H0 Hn)
      as (Eo & _ & El & _).
    unfold overrun in Hn.
    set (n := declared_length (PNGFile.data self) offset) in *.
    destruct (IH (offset + 12 + n) ltac:(lia)) as (T & B & S).
    destruct (PNGFile.chunks_from fuel self (offset + 12 + n)) as [rest e].
    cbn [fst snd tiles span] in *. unfold next_offset. rewrite Eo, El.
    split; [now split|]. split.
    + intros _. destruct rest as [|c rest]; [cbn [span]; lia|].
      specialize (B ltac:(discriminate)). lia.
    + intros Es _. specialize (S Es ltac:(lia)). lia.
Qed.

(** X2: when the iteration is exhausted, the chunks cover the data exactly:
    the eight bytes of the signature and, for every chunk, twelve bytes and
    its payload add up to the length of the data (for data of eight bytes at
    least, as a [PNGFile] always has). *)
Theorem chunks_exhausted_length (self : PNGFile.t) :
  8 <= len (PNGFile.data self) ->
  snd (PNGFile.chunks self) = StopIteration ->
  8 + span (fst (PNGFile.chunks self)) = len (PNGFile.data self).
Proof.
  intros H8 Es.
  now apply (chunks_from_span self (S (length (PNGFile.data self))) 8).
Qed.

Lemma chunks_exhausted_length_witness :
  8 + span (fst (PNGFile.chunks
                   {| PNGFile.size := 20; PNGFile.data := png_IEND |})) = 20.
Proof.
  apply (chunks_exhausted_length
           {| PNGFile.size := 20; PNGFile.data := png_IEND |});
    [discriminate|reflexivity].
Defined.

Lemma span_length (cs : list PNGChunk.t) :
  12 * Z.of_nat (length cs) <= span cs.
Proof.
  induction cs as [|c cs IH]; [cbn; lia|].
  cbn [span length]. pose proof (len_nonneg (PNGChunk.data c)). lia.
Qed.

(** X3: however the iteration ends, the chunks it yields lie one after the
    other in the data: the first at offset 8, each next one twelve bytes and
    a payload after the one before, and all of them inside the data; so
    there are at most a twelfth of the length of the data of them. *)
Theorem chunks_tile (self : PNGFile.t) :
  let cs := fst (PNGFile.chunks self) in
  tiles 8 cs /\
  (cs = [] \/ 8 + span cs <= len (PNGFile.data self)) /\
  12 * Z.of_nat (length cs) <= Z.max 0 (len (PNGFile.data self) - 8).
Proof.
  cbv zeta. unfold PNGFile.chunks. change (len PNGMAGIC) with 8.
  destruct (chunks_from_span self (S (length (PNGFile.data self))) 8)
    as (T & B & _); [lia|].
  revert T B.
  generalize (fst (PNGFile.chunks_from (S (length (PNGFile.data self))) self 8)).
  intros cs T B. pose proof (span_length cs) as L.
  split; [exact T|].
  destruct cs as [|c cs']; [split; [now left|cbn; lia]|].
  specialize (B ltac:(discriminate)). split; [now right|lia].
Qed.

(** ** A file written out and read back *)

Lemma slice_at_offset (data : bytes) (o k : Z) (x t : bytes) :
  at_offset data o (x ++ t) -> len x = k -> slice data o (o + k) = x.
Proof.
  intros [Ho E] <-. pose proof (len_nonneg x).
  rewrite slice_drop by lia. rewrite E. unfold len. rewrite Nat2Z.id.
  apply take_app_length.
Qed.

Lemma at_offset_len (data : bytes) (o : Z) (t : bytes) :
  at_offset data o t -> t <> [] -> o + len t = len data.
Proof.
  intros [Ho E] Hne. unfold len. rewrite <- E, length_skipn.
  destruct (Nat.le_gt_cases (length data) (Z.to_nat o)) as [L|G]; [|lia].
  contradiction Hne. rewrite <- E. now apply skipn_all2.
Qed.

Lemma at_offset_end (data : bytes) (o : Z) :
  at_offset data o [] -> len data <= o.
Proof.
  intros [Ho E]. apply (f_equal (@length byte)) in E.
  rewrite length_skipn in E. cbn in E. unfold len. lia.
Qed.

(** The chunk that lies where the bytes of a well-formed chunk are. *)
Lemma chunk_at_chunk_bytes (data : bytes) (o : Z)
  (chunk_type payload checksum rest : bytes) :
  at_offset data o (chunk_bytes (chunk_type, payload, checksum) ++ rest) ->
  well_formed (chunk_type, payload, checksum) ->
  o < len data /\
  ~ overrun data o /\
  declared_length data o = len payload /\
  chunk_at data o =
    PNGChunk.init o chunk_type payload (to_signed32 (be_uint checksum)) /\
  at_offset data (o + 12 + len payload) rest.
Proof.
  intros A (Ht & Hp & Hk). pose proof (len_nonneg payload) as Hp0.
  pose proof (len_nonneg rest) as Hr0.
  unfold chunk_bytes in A. rewrite <- !app_assoc in A.
  assert (Ho : 0 <= o) by apply A.
  assert (L : o + (4 + (4 + (len payload + (4 + len rest)))) = len data).
  { rewrite <- (at_offset_len _ _ _ A).
    - now rewrite !len_app, len_be_bytes4, Ht, Hk.
    - discriminate. }
  pose proof (at_offset_skip _ _ 4 _ _ A (len_be_bytes4 _)) as A1.
  pose proof (at_offset_skip _ _ 4 _ _ A1 Ht) as A2.
  pose proof (at_offset_skip _ _ (len payload) _ _ A2 eq_refl) as A3.
  pose proof (at_offset_skip _ _ 4 _ _ A3 Hk) as A4.
  assert (D : declared_length data o = len payload).
  { unfold declared_length.
    rewrite (slice_at_offset _ _ 4 _ _ A (len_be_bytes4 _)).
    rewrite be_uint_be_bytes4. apply Z.mod_small. lia. }
  split; [lia|]. split; [unfold overrun; lia|]. split; [exact D|]. split.
  - unfold chunk_at. rewrite D.
    replace (o + 8) with (o + 4 + 4) by lia.
    rewrite (slice_at_offset _ _ 4 _ _ A1 Ht).
    rewrite (slice_at_offset _ _ (len payload) _ _ A2 eq_refl).
    replace (o + 12 + len payload) with (o + 4 + 4 + len payload + 4) by lia.
    now rewrite (slice_at_offset _ _ 4 _ _ A3 Hk).
  - now replace (o + 12 + len payload) with (o + 4 + 4 + len payload + 4)
      by lia.
Qed.

Lemma chunks_from_file_bytes (self : PNGFile.t)
  (chunks : list (bytes * bytes * bytes)) :
  Forall well_formed chunks ->
  forall fuel offset,
    at_offset (PNGFile.data self) offset (concat (map chunk_bytes chunks)) ->
    (passes_left self offset < fuel)%nat ->
    PNGFile.chunks_from fuel self offset =
      (chunks_of offset chunks, StopIteration).
Proof.
  induction 1 as [|[[t d] k] chunks W _ IH]; intros fuel offset A Hf.
  - destruct fuel as [|fuel]; [lia|]. cbn [PNGFile.chunks_from].
    apply at_offset_end in A.
    now rewrite (proj2 (Z.ltb_ge _ _) A).
  - destruct fuel as [|fuel]; [lia|]. cbn [PNGFile.chunks_from].
    cbn [map concat] in A.
    destruct (chunk_at_chunk_bytes _ _ _ _ _ _ A W) as (Hlt & Hn & D & C & A').
    assert (H0 : 0 <= offset) by apply A.
    rewrite (proj2 (Z.ltb_lt _ _) Hlt).
    rewrite chunks_body_ok by assumption. rewrite D, C.
    rewrite (IH fuel (offset + 12 + len d) A').
    + reflexivity.
    + pose proof (len_nonneg d). unfold passes_left in *. lia.
Qed.

(** X4: a file written out as the signature followed by well-formed chunks
    (a four-byte type, a payload shorter than [2^32], a four-byte checksum,
    behind the payload's length as four bytes) is accepted, and iterating
    over it gives those chunks back, in order, each with its type, its
    payload, its offset and the signed reading of its checksum, and then the
    generator is exhausted. *)
Theorem scan_file_bytes (chunks : list (bytes * bytes * bytes)) :
  Forall well_formed chunks ->
  scan (file_bytes chunks) = (chunks_of 8 chunks, StopIteration).
Proof.
  intros W. unfold scan, PNGFile.init, is_png, file_bytes.
  assert (S : startswith (PNGMAGIC ++ concat (map chunk_bytes chunks))
                PNGMAGIC = true).
  { apply startswith_firstn. apply take_app_length. }
  rewrite S. cbn [negb]. unfold PNGFile.chunks.
  apply chunks_from_file_bytes; [exact W| |apply chunks_fuel].
  split; [discriminate|]. cbn [PNGFile.data].
  exact (drop_app_length PNGMAGIC _).
Qed.

Lemma scan_file_bytes_witness :
  scan (file_bytes [(str "IHDR", str "thirteen byte", [x00; x01; x02; x03]);
                    (str "IEND", [], [xae; x42; x60; x82])]) =
    ([PNGChunk.init 8 (str "IHDR") (str "thirteen byte") 66051;
      PNGChunk.init 33 (str "IEND") [] (-1371381630)],
     StopIteration).
Proof.
  apply (scan_file_bytes
           [(str "IHDR", str "thirteen byte", [x00; x01; x02; x03]);
            (str "IEND", [], [xae; x42; x60; x82])]).
  repeat constructor.
Defined.

(** ** Bytes after the last chunk *)

Lemma slice_app_l (s t : bytes) (lo hi : Z) :
  0 <= lo <= hi -> hi <= len s -> slice (s ++ t) lo hi = slice s lo hi.
Proof.
  intros H Hh. pose proof (len_nonneg t) as Ht.
  replace hi with (lo + (hi - lo)) by lia.
  rewrite !slice_drop by lia.
  rewrite skipn_app.
  replace (Z.to_nat lo - length s)%nat with 0%nat by (unfold len in *; lia).
  cbn [skipn]. rewrite firstn_app.
  replace (Z.to_nat (hi - lo) - length (skipn (Z.to_nat lo) s))%nat
    with 0%nat by (rewrite length_skipn; unfold len in *; lia).
  now rewrite firstn_0, app_nil_r.
Qed.

Lemma reaches_raises (self : PNGFile.t) (offset : Z)
  (yielded : list PNGChunk.t) :
  reaches self offset yielded ->
  offset < len (PNGFile.data self) ->
  overrun (PNGFile.data self) offset ->
  PNGFile.chunks self =
    (yielded,
     Raised (struct_error "unpack requires a string argument of length 4")).
Proof.
  intros R Hlt Ho. pose proof (reaches_offset _ _ _ R) as H8.
  rewrite (reaches_chunks self offset yielded R (S (passes_left self offset)))
    by lia.
  cbn [PNGFile.chunks_from].
  rewrite (proj2 (Z.ltb_lt _ _) Hlt).
  rewrite chunks_body_overrun by first [assumption | lia].
  cbn [fst snd]. now rewrite app_nil_r.
Qed.

(** The chunks of some data are also the first chunks of the data with more
    bytes after it. *)
Lemma chunks_from_extended (buf extra : bytes) (fuel : nat) :
  forall offset cs yielded,
    0 <= offset <= len buf ->
    PNGFile.chunks_from fuel {| PNGFile.size := len buf; PNGFile.data := buf |}
      offset = (cs, StopIteration) ->
    reaches {| PNGFile.size := len (buf ++ extra);
               PNGFile.data := buf ++ extra |} offset yielded ->
    reaches {| PNGFile.size := len (buf ++ extra);
               PNGFile.data := buf ++ extra |} (len buf) (yielded ++ cs).
Proof.
  induction fuel as [|fuel IH]; intros offset cs yielded Ho E R;
    cbn [PNGFile.chunks_from PNGFile.data] in E; [discriminate|].
  destruct (Z.ltb_spec offset (len buf)) as [Hlt|Hge].
  2: { injection E as <-. rewrite app_nil_r.
       now replace (len buf) with offset by lia. }
  destruct (PNGFile.chunks_body _ offset) as [[c offset']|e] eqn:B;
    [|discriminate].
  apply chunks_body_inv in B as (Hn & -> & ->); [|lia].
  cbn [PNGFile.data] in *.
  pose proof (declared_length_nonneg buf offset) as Hd.
  pose proof (len_nonneg extra) as He.
  unfold overrun in Hn.
  destruct (PNGFile.chunks_from fuel _ _) as [rest e] eqn:F.
  injection E as <- ->.
  assert (D : declared_length (buf ++ extra) offset =
              declared_length buf offset).
  { unfold declared_length. now rewrite slice_app_l by lia. }
  assert (C : chunk_at (buf ++ extra) offset = chunk_at buf offset).
  { unfold chunk_at. rewrite D. now rewrite !slice_app_l by lia. }
  replace (yielded ++ chunk_at buf offset :: rest)
    with ((yielded ++ [chunk_at buf offset]) ++ rest)
    by (now rewrite <- app_assoc).
  apply (IH (offset + 12 + declared_length buf offset)); [lia|exact F|].
  apply (reaches_next _ offset).
  - exact R.
  - cbn [PNGFile.data]. rewrite len_app. lia.
  - rewrite chunks_body_ok.
    + cbn [PNGFile.data]. now rewrite D, C.
    + lia.
    + cbn [PNGFile.data]. unfold overrun. rewrite D, len_app. lia.
Qed.

(** X5: when iterating over some data exhausts the generator, iterating over
    the same data followed by one to eleven more bytes yields the same
    chunks and then raises [struct.error]: bytes after the last chunk that
    are too few for a chunk of their own end the iteration with an error,
    after all the chunks. *)
Theorem chunks_trailing_bytes (buf extra : bytes) (cs : list PNGChunk.t) :
  8 <= len buf ->
  PNGFile.chunks {| PNGFile.size := len buf; PNGFile.data := buf |} =
    (cs, StopIteration) ->
  0 < len extra < 12 ->
  PNGFile.chunks {| PNGFile.size := len (buf ++ extra);
                    PNGFile.data := buf ++ extra |} =
    (cs, Raised (struct_error "unpack requires a string argument of length 4")).
Proof.
  intros H8 E He.
  apply (reaches_raises _ (len buf)).
  - apply (chunks_from_extended buf extra (S (length buf)) 8 cs []);
      [lia|exact E|apply reaches_start].
  - cbn [PNGFile.data]. rewrite len_app. lia.
  - right. cbn [PNGFile.data]. rewrite len_app.
    pose proof (declared_length_nonneg (buf ++ extra) (len buf)). lia.
Qed.

Lemma chunks_trailing_bytes_witness :
  PNGFile.chunks {| PNGFile.size := len (png_IEND ++ str "junk");
                    PNGFile.data := png_IEND ++ str "junk" |} =
    ([chunk_at png_IEND 8],
     Raised (struct_error "unpack requires a string argument of length 4")).
Proof.
  apply (chunks_trailing_bytes png_IEND (str "junk") [chunk_at png_IEND 8]).
  - discriminate.
  - reflexivity.
  - split; reflexivity.
Defined.

(** * More of the decoders *)

(** ** Payloads that are too short *)

Lemma run_unpack_I_at_short (data : bytes) (lo hi : Z) (h : heap) :
  0 <= lo -> hi = lo + 4 -> len data < hi ->
  unpack_I_at (VStr data) lo hi h = (Raise (unpack_size_error 4), h).
Proof.
  intros H0 -> Hl. unfold unpack_I_at, getslice, as_str, bind, ret, lift, unpack_I.
  now rewrite sized_raise by (rewrite len_slice; lia).
Qed.

Lemma run_unpack_H_at (data : bytes) (lo hi : Z) (h : heap) :
  0 <= lo -> hi = lo + 2 -> hi <= len data ->
  unpack_H_at (VStr data) lo hi h = (Ok (be_uint (slice data lo hi)), h).
Proof.
  intros H0 -> Hl. unfold unpack_H_at, getslice, as_str, bind, ret, lift, unpack_H.
  now rewrite sized_ok by (rewrite len_slice; lia).
Qed.

Lemma run_unpack_H_at_short (data : bytes) (lo hi : Z) (h : heap) :
  0 <= lo -> hi = lo + 2 -> len data < hi ->
  unpack_H_at (VStr data) lo hi h = (Raise (unpack_size_error 2), h).
Proof.
  intros H0 -> Hl. unfold unpack_H_at, getslice, as_str, bind, ret, lift, unpack_H.
  now rewrite sized_raise by (rewrite len_slice; lia).
Qed.

Lemma run_unpack_B_at_short (data : bytes) (i : Z) (h : heap) :
  0 <= i -> len data <= i ->
  unpack_B_at (VStr data) i h =
    (Raise (IndexError "string index out of range"), h).
Proof.
  intros H0 Hl.
  assert (I : index data i = Raise (IndexError "string index out of range")).
  { unfold index.
    rewrite (proj2 (Z.ltb_ge _ _) H0), (proj2 (Z.ltb_ge _ _) H0).
    assert (N : nth_error data (Z.to_nat i) = None)
      by (apply nth_error_None; unfold len in Hl; lia).
    now rewrite N. }
  unfold unpack_B_at, getitem, as_str, bind, ret, lift. now rewrite I.
Qed.

(** Runs the next statement of a decoder, whichever it is and whether it
    returns or raises. *)
Ltac step :=
  first
    [ erewrite bind_ok; [|apply run_setattr]
    | erewrite bind_ok; [|apply run_unpack_I_at; lia]
    | erewrite bind_ok; [|apply run_unpack_H_at; lia]
    | erewrite bind_ok; [|apply run_unpack_B_at; lia]
    | erewrite bind_raise; [|apply run_unpack_I_at_short; lia]
    | erewrite bind_raise; [|apply run_unpack_H_at_short; lia]
    | erewrite bind_raise; [|apply run_unpack_B_at_short; lia] ].

(** Runs a decoder that reads fields of fixed places, from its first
    statement to its last one or to the one that raises. *)
Ltac run_fixed Hr Hne :=
  rewrite new_unfold;
  try unfold IHDR_init; try unfold sRGB_init; try unfold pHYs_init;
  try unfold tIME_init; try unfold cHRM_init; try unfold gAMA_init;
  rewrite (run_prologue _ _ _ _ Hr Hne);
  repeat step;
  try rewrite run_setattr;
  try reflexivity.

(** X6: [IHDR] needs a payload of 13 bytes.  With fewer than 8 it raises
    the [struct.error] of a four-byte field, with 8 to 12 it raises
    [IndexError], and with 13 or more it builds its instance from the first
    13 bytes, whatever follows them and whatever header it is given. *)
Theorem IHDR_payload (h : heap) (r : loc) (c : PNGChunk.t) (ihdr : pyval) :
  h !! r = Some (chunk_object c) ->
  (len (PNGChunk.data c) < 8 ->
   fst (new IHDR_init ihdr (VRef r) h) =
     Raise (struct_error "unpack requires a string argument of length 4")) /\
  (8 <= len (PNGChunk.data c) < 13 ->
   fst (new IHDR_init ihdr (VRef r) h) =
     Raise (IndexError "string index out of range")) /\
  (13 <= len (PNGChunk.data c) ->
   new IHDR_init ihdr (VRef r) h =
     (Ok (VRef (fresh (dom h))),
      <[fresh (dom h) :=
          IHDR_object (PNGChunk.offset c) (PNGChunk.data c)]> h) /\
   IHDR_object (PNGChunk.offset c) (PNGChunk.data c) =
     IHDR_object (PNGChunk.offset c) (firstn 13 (PNGChunk.data c))).
Proof.
  intros Hr. pose proof (fresh_other h r _ Hr) as Hne.
  pose proof (len_nonneg (PNGChunk.data c)) as H0.
  split; [|split].
  - intros Hl.
    destruct (Z_lt_dec (len (PNGChunk.data c)) 4); run_fixed Hr Hne.
  - intros Hl.
    assert (len (PNGChunk.data c) = 8 \/ len (PNGChunk.data c) = 9 \/
            len (PNGChunk.data c) = 10 \/ len (PNGChunk.data c) = 11 \/
            len (PNGChunk.data c) = 12) as [E|[E|[E|[E|E]]]] by lia;
      run_fixed Hr Hne.
  - intros Hl. split; [run_fixed Hr Hne|].
    assert (S : forall lo hi, 0 <= lo <= hi -> hi <= 13 ->
                  slice (firstn 13 (PNGChunk.data c)) lo hi =
                  slice (PNGChunk.data c) lo hi).
    { intros lo hi Hlo Hhi.
      rewrite <- (firstn_skipn 13 (PNGChunk.data c)) at 2.
      rewrite slice_app_l; [reflexivity|lia|].
      unfold len in *. rewrite length_firstn. lia. }
    assert (B : forall i, (i < 13)%nat ->
                  byte_at (firstn 13 (PNGChunk.data c)) i =
                  byte_at (PNGChunk.data c) i).
    { intros i Hi. unfold byte_at. f_equal.
      rewrite <- (firstn_skipn 13 (PNGChunk.data c)) at 2.
      rewrite app_nth1; [reflexivity|].
      unfold len in *. rewrite length_firstn. lia. }
    unfold IHDR_object.
    now rewrite !S, !B by lia.
Qed.

Lemma IHDR_payload_witness :
  let c := chunk_at png_IHDR 8 in
  let h : heap := <[1%positive := chunk_object c]> ∅ in
  new IHDR_init VNone (VRef 1%positive) h =
    (Ok (VRef 2%positive),
     <[2%positive := IHDR_object 8 (PNGChunk.data c)]> h).
Proof.
  intros c h.
  refine (proj1 (proj2 (proj2 (IHDR_payload h 1%positive c VNone eq_refl)) _)).
  discriminate.
Defined.

(** X7: [sRGB] reads one byte.  An empty payload raises [IndexError]; any
    other one gives an instance whose [intent] is the first byte and whose
    [ihdr] is the header it was given, which it never reads. *)
Theorem sRGB_payload (h : heap) (r : loc) (c : PNGChunk.t) (ihdr : pyval) :
  h !! r = Some (chunk_object c) ->
  (PNGChunk.data c = [] ->
   fst (new sRGB_init ihdr (VRef r) h) =
     Raise (IndexError "string index out of range")) /\
  (forall b rest,
     PNGChunk.data c = b :: rest ->
     new sRGB_init ihdr (VRef r) h =
       (Ok (VRef (fresh (dom h))),
        <[fresh (dom h) :=
            <["intent" := VInt (ord b)]>
              (<["ihdr" := ihdr]>
                 (parser_object (str "sRGB") (PNGChunk.offset c)))]> h)).
Proof.
  intros Hr. pose proof (fresh_other h r _ Hr) as Hne.
  assert (P : forall k : pyval -> M unit,
    bind (getattr (VRef r) "offset") (fun offset =>
      bind (Parser_init (fresh (dom h)) (str "sRGB") offset) (fun _ =>
        bind (setattr (fresh (dom h)) "ihdr" ihdr) (fun _ =>
          bind (getattr (VRef r) "data") k))) (<[fresh (dom h) := ∅]> h) =
    k (VStr (PNGChunk.data c))
      (<[fresh (dom h) :=
           <["ihdr" := ihdr]>
             (parser_object (str "sRGB") (PNGChunk.offset c))]> h)).
  { intros k.
    rewrite (bind_ok _ _ _ _ _ (run_chunk_offset h r _ c Hr Hne ∅)).
    rewrite (bind_ok _ _ _ _ _ (run_Parser_init h _ ∅ _ _)).
    rewrite (bind_ok _ _ _ _ _ (run_setattr h _ _ _ _)).
    now rewrite (bind_ok _ _ _ _ _ (run_chunk_data h r _ c Hr Hne _)). }
  rewrite new_unfold. unfold sRGB_init. rewrite P. split.
  - intros E. assert (len (PNGChunk.data c) = 0) by now rewrite E.
    repeat step. reflexivity.
  - intros b rest E.
    assert (0 < len (PNGChunk.data c))
      by (rewrite E; unfold len; cbn [length]; lia).
    repeat step. rewrite run_setattr. now rewrite E.
Qed.

Lemma sRGB_payload_witness :
  let c := PNGChunk.init 8 (str "sRGB") [x02] 0 in
  let h : heap := <[1%positive := chunk_object c]> ∅ in
  attr (snd (new sRGB_init VNone (VRef 1%positive) h)) (VRef 2%positive)
    "intent" = Some (VInt 2).
Proof.
  intros c h.
  rewrite (proj2 (sRGB_payload h 1%positive c VNone eq_refl) x02 [] eq_refl).
  reflexivity.
Defined.

(** X8: [pHYs] needs a payload of 9 bytes, whatever header it is given.
    With fewer than 8 it raises the [struct.error] of a four-byte field,
    with exactly 8 it raises [IndexError], and with 9 or more it builds its
    instance from the first 9 bytes and keeps the header it was given,
    unread, as its [ihdr]. *)
Theorem pHYs_payload (h : heap) (r : loc) (c : PNGChunk.t) (ihdr : pyval) :
  h !! r = Some (chunk_object c) ->
  (len (PNGChunk.data c) < 8 ->
   fst (new pHYs_init ihdr (VRef r) h) =
     Raise (struct_error "unpack requires a string argument of length 4")) /\
  (len (PNGChunk.data c) = 8 ->
   fst (new pHYs_init ihdr (VRef r) h) =
     Raise (IndexError "string index out of range")) /\
  (9 <= len (PNGChunk.data c) ->
   new pHYs_init ihdr (VRef r) h =
     (Ok (VRef (fresh (dom h))),
      <[fresh (dom h) :=
          pHYs_object ihdr (PNGChunk.offset c) (PNGChunk.data c)]> h)).
Proof.
  intros Hr. pose proof (fresh_other h r _ Hr) as Hne.
  pose proof (len_nonneg (PNGChunk.data c)) as H0.
  split; [|split]; intros Hl.
  - destruct (Z_lt_dec (len (PNGChunk.data c)) 4); run_fixed Hr Hne.
  - run_fixed Hr Hne.
  - run_fixed Hr Hne.
Qed.

Lemma pHYs_payload_witness :
  let c := PNGChunk.init 8 (str "pHYs")
             [x00; x00; x0b; x13; x00; x00; x0b; x13] 0 in
  let h : heap := <[1%positive := chunk_object c]> ∅ in
  fst (new pHYs_init VNone (VRef 1%positive) h) =
    Raise (IndexError "string index out of range").
Proof.
  intros c h.
  apply (proj1 (proj2 (pHYs_payload h 1%positive c VNone eq_refl))).
  reflexivity.
Defined.

(** X9: [tIME] needs a payload of 7 bytes.  With fewer than 2 it raises the
    [struct.error] of a two-byte field, with 2 to 6 it raises [IndexError],
    and with 7 or more it builds its instance: the year from the first two
    bytes, most significant first, and month, day, hour, minute and second
    from the next five, none of them checked against a calendar. *)
Theorem tIME_payload (h : heap) (r : loc) (c : PNGChunk.t) (ihdr : pyval) :
  h !! r = Some (chunk_object c) ->
  (len (PNGChunk.data c) < 2 ->
   fst (new tIME_init ihdr (VRef r) h) =
     Raise (struct_error "unpack requires a string argument of length 2")) /\
  (2 <= len (PNGChunk.data c) < 7 ->
   fst (new tIME_init ihdr (VRef r) h) =
     Raise (IndexError "string index out of range")) /\
  (7 <= len (PNGChunk.data c) ->
   new tIME_init ihdr (VRef r) h =
     (Ok (VRef (fresh (dom h))),
      <[fresh (dom h) :=
          tIME_object (PNGChunk.offset c) (PNGChunk.data c)]> h)).
Proof.
  intros Hr. pose proof (fresh_other h r _ Hr) as Hne.
  pose proof (len_nonneg (PNGChunk.data c)) as H0.
  split; [|split]; intros Hl.
  - run_fixed Hr Hne.
  - assert (len (PNGChunk.data c) = 2 \/ len (PNGChunk.data c) = 3 \/
            len (PNGChunk.data c) = 4 \/ len (PNGChunk.data c) = 5 \/
            len (PNGChunk.data c) = 6) as [E|[E|[E|[E|E]]]] by lia;
      run_fixed Hr Hne.
  - run_fixed Hr Hne.
Qed.

Lemma tIME_payload_witness :
  let c := PNGChunk.init 8 (str "tIME")
             [x07; xdf; x0d; x28; x19; x3d; x63] 0 in
  let h : heap := <[1%positive := chunk_object c]> ∅ in
  let h' := snd (new tIME_init VNone (VRef 1%positive) h) in
  attr h' (VRef 2%positive) "year" = Some (VInt 2015) /\
  attr h' (VRef 2%positive) "month" = Some (VInt 13) /\
  attr h' (VRef 2%positive) "second" = Some (VInt 99).
Proof.
  intros c h h'. unfold h'.
  rewrite (proj2 (proj2 (tIME_payload h 1%positive c VNone eq_refl))
             ltac:(discriminate)).
  repeat split; reflexivity.
Defined.

(** X10: [gAMA] reads the first four bytes of the payload and nothing else:
    a payload of fewer than four bytes raises [struct.error], and one of
    four or more gives the same gamma as its first four bytes alone. *)
Theorem gAMA_payload (h : heap) (r : loc) (c : PNGChunk.t) (ihdr : pyval) :
  h !! r = Some (chunk_object c) ->
  (len (PNGChunk.data c) < 4 ->
   fst (new gAMA_init ihdr (VRef r) h) =
     Raise (struct_error "unpack requires a string argument of length 4")) /\
  (4 <= len (PNGChunk.data c) ->
   new gAMA_init ihdr (VRef r) h =
     (Ok (VRef (fresh (dom h))),
      <[fresh (dom h) :=
          <["gamma" :=
              VFloat (div_100000 (be_uint (firstn 4 (PNGChunk.data c))))]>
            (parser_object (str "gAMA") (PNGChunk.offset c))]> h)).
Proof.
  intros Hr. pose proof (fresh_other h r _ Hr) as Hne.
  pose proof (len_nonneg (PNGChunk.data c)) as H0.
  split; intros Hl.
  - run_fixed Hr Hne.
  - run_fixed Hr Hne.
    pose proof (slice_drop (PNGChunk.data c) 0 4 ltac:(lia) ltac:(lia)) as S.
    change (0 + 4) with 4 in S. now rewrite S.
Qed.

Lemma gAMA_payload_witness :
  let c := PNGChunk.init 8 (str "gAMA") [x00; x00; xb1] 0 in
  let h : heap := <[1%positive := chunk_object c]> ∅ in
  fst (new gAMA_init VNone (VRef 1%positive) h) =
    Raise (struct_error "unpack requires a string argument of length 4").
Proof.
  intros c h.
  apply (proj1 (gAMA_payload h 1%positive c VNone eq_refl)). reflexivity.
Defined.

(** X11: [cHRM] needs a payload of 32 bytes.  With fewer it raises the
    [struct.error] of a four-byte field; with 32 or more it builds its
    instance: white point, red, green and blue x and y, in this order, each
    the unsigned reading of four bytes divided by [100000.0]. *)
Theorem cHRM_payload (h : heap) (r : loc) (c : PNGChunk.t) (ihdr : pyval) :
  h !! r = Some (chunk_object c) ->
  (len (PNGChunk.data c) < 32 ->
   fst (new cHRM_init ihdr (VRef r) h) =
     Raise (struct_error "unpack requires a string argument of length 4")) /\
  (32 <= len (PNGChunk.data c) ->
   new cHRM_init ihdr (VRef r) h =
     (Ok (VRef (fresh (dom h))),
      <[fresh (dom h) :=
          cHRM_object (PNGChunk.offset c) (PNGChunk.data c)]> h)).
Proof.
  intros Hr. pose proof (fresh_other h r _ Hr) as Hne.
  pose proof (len_nonneg (PNGChunk.data c)) as H0.
  split; intros Hl.
  - assert (len (PNGChunk.data c) < 4 \/ 4 <= len (PNGChunk.data c) < 8 \/
            8 <= len (PNGChunk.data c) < 12 \/
            12 <= len (PNGChunk.data c) < 16 \/
            16 <= len (PNGChunk.data c) < 20 \/
            20 <= len (PNGChunk.data c) < 24 \/
            24 <= len (PNGChunk.data c) < 28 \/
            28 <= len (PNGChunk.data c) < 32)
      as [E|[E|[E|[E|[E|[E|[E|E]]]]]]] by lia;
      run_fixed Hr Hne.
  - run_fixed Hr Hne.
Qed.

Lemma cHRM_payload_witness :
  let c := PNGChunk.init 8 (str "cHRM")
             [x00; x00; x7a; x26; x00; x00; x80; x84;
              x00; x00; xfa; x00; x00; x00; x80; xe8;
              x00; x00; x75; x30; x00; x00; xea; x60;
              x00; x00; x3a; x98; x00; x00; x17; x70] 0 in
  let h : heap := <[1%positive := chunk_object c]> ∅ in
  let h' := snd (new cHRM_init VNone (VRef 1%positive) h) in
  attr h' (VRef 2%positive) "redx" = Some (VFloat (div_100000 64000)) /\
  attr h' (VRef 2%positive) "bluey" = Some (VFloat (div_100000 6000)).
Proof.
  intros c h h'. unfold h'.
  rewrite (proj2 (cHRM_payload h 1%positive c VNone eq_refl)
             ltac:(discriminate)).
  split; reflexivity.
Defined.

(** ** The background colour, with a header *)

Lemma run_other_attr (h : heap) (l i : loc) (ob hob : object) (name : string)
  (v : pyval) :
  l <> i -> h !! i = Some hob -> hob !! name = Some v ->
  getattr (VRef i) name (<[l := ob]> h) = (Ok v, <[l := ob]> h).
Proof.
  intros Hne Hi Hn. unfold getattr. rewrite lookup_insert_ne by exact Hne.
  rewrite Hi. cbn. now rewrite Hn.
Qed.

Lemma slice_slice (s : bytes) (n lo hi : Z) :
  0 <= lo <= hi -> hi <= n -> n <= len s ->
  slice (slice s 0 n) lo hi = slice s lo hi.
Proof.
  intros H Hh Hn.
  pose proof (slice_drop s 0 n ltac:(lia) ltac:(lia)) as S.
  cbn [Z.to_nat skipn] in S. change (0 + n) with n in S. rewrite S.
  rewrite <- (firstn_skipn (Z.to_nat n) s) at 2.
  rewrite slice_app_l; [reflexivity|lia|].
  unfold len in *. rewrite length_firstn. lia.
Qed.

(** X12: with a header, [bKGD] reads the payload as the colour type of the
    header says: one byte for a palette (3), two bytes for greyscale (0, 4),
    three times two bytes for RGB (2, 6); for any other colour type it
    reads nothing of the payload and gives the value [None] of type
    "UNKNOWN".  The instance keeps a reference to the header, which is left
    as it was. *)
Theorem bKGD_with_header (h : heap) (r i : loc) (c : PNGChunk.t)
  (hob : object) (color_type : Z) :
  h !! r = Some (chunk_object c) ->
  h !! i = Some hob ->
  hob !! "color_type" = Some (VInt color_type) ->
  let built value vtype :=
    (Ok (VRef (fresh (dom h))),
     <[fresh (dom h) :=
         bKGD_object (VRef i) (PNGChunk.offset c) value (str vtype)]> h) in
  (color_type = 3 -> 1 <= len (PNGChunk.data c) ->
   new bKGD_init (VRef i) (VRef r) h =
     built (VInt (byte_at (PNGChunk.data c) 0)) "Palette Index") /\
  (color_type = 0 \/ color_type = 4 -> 2 <= len (PNGChunk.data c) ->
   new bKGD_init (VRef i) (VRef r) h =
     built (VInt (be_uint (slice (PNGChunk.data c) 0 2))) "Grayscale") /\
  (color_type = 2 \/ color_type = 6 -> 6 <= len (PNGChunk.data c) ->
   new bKGD_init (VRef i) (VRef r) h =
     built (VTuple [VInt (be_uint (slice (PNGChunk.data c) 0 2));
                    VInt (be_uint (slice (PNGChunk.data c) 2 4));
                    VInt (be_uint (slice (PNGChunk.data c) 4 6))])
           "RGB tripplet") /\
  (color_type <> 0 -> color_type <> 2 -> color_type <> 3 ->
   color_type <> 4 -> color_type <> 6 ->
   new bKGD_init (VRef i) (VRef r) h = built VNone "UNKNOWN").
Proof.
  intros Hr Hi Hct built. pose proof (fresh_other h r _ Hr) as Hne.
  pose proof (fresh_other h i _ Hi) as Hni.
  assert (P : new bKGD_init (VRef i) (VRef r) h =
    match
      (if color_type =? 3 then
         bind (unpack_B_at (VStr (PNGChunk.data c)) 0) (fun v =>
         bind (setattr (fresh (dom h)) "value" (VInt v)) (fun _ =>
         setattr (fresh (dom h)) "vtype" (VStr (str "Palette Index"))))
       else if (color_type =? 0) || (color_type =? 4) then
         bind (unpack_H_at (VStr (PNGChunk.data c)) 0 2) (fun v =>
         bind (setattr (fresh (dom h)) "value" (VInt v)) (fun _ =>
         setattr (fresh (dom h)) "vtype" (VStr (str "Grayscale"))))
       else if (color_type =? 2) || (color_type =? 6) then
         bind (getslice (VStr (PNGChunk.data c)) 0 6) (fun s =>
         bind (lift (unpack_HHH s)) (fun v =>
         bind (setattr (fresh (dom h)) "value" (VTuple (map VInt v))) (fun _ =>
         setattr (fresh (dom h)) "vtype" (VStr (str "RGB tripplet")))))
       else
         bind (setattr (fresh (dom h)) "value" VNone) (fun _ =>
         setattr (fresh (dom h)) "vtype" (VStr (str "UNKNOWN"))))
      (<[fresh (dom h) :=
           <["ihdr" := VRef i]>
             (parser_object (str "bKGD") (PNGChunk.offset c))]> h)
    with
    | (Ok _, h') => (Ok (VRef (fresh (dom h))), h')
    | (Raise e, h') => (Raise e, h')
    end).
  { rewrite new_unfold. unfold bKGD_init.
    rewrite (run_prologue h r _ c Hr Hne).
    erewrite bind_ok; [|apply run_setattr].
    erewrite bind_ok; [|apply (run_other_attr h _ i _ hob); eassumption].
    reflexivity. }
  rewrite P. clear P. split; [|split; [|split]].
  - intros -> Hl. cbn [Z.eqb Pos.eqb]. repeat step.
    rewrite run_setattr. reflexivity.
  - intros E Hl.
    assert ((color_type =? 3) = false) as -> by (apply Z.eqb_neq; lia).
    assert ((color_type =? 0) || (color_type =? 4) = true) as ->
      by (destruct E as [-> | ->]; reflexivity).
    repeat step. rewrite run_setattr. reflexivity.
  - intros E Hl.
    assert ((color_type =? 3) = false) as -> by (apply Z.eqb_neq; lia).
    assert ((color_type =? 0) || (color_type =? 4) = false) as ->
      by (destruct E as [-> | ->]; reflexivity).
    assert ((color_type =? 2) || (color_type =? 6) = true) as ->
      by (destruct E as [-> | ->]; reflexivity).
    erewrite bind_ok; [|reflexivity].
    unfold unpack_HHH. rewrite sized_ok by (rewrite len_slice; lia).
    cbn [rbind]. erewrite bind_ok; [|reflexivity].
    repeat step. rewrite run_setattr.
    rewrite !slice_slice by lia. reflexivity.
  - intros N0 N2 N3 N4 N6.
    rewrite (proj2 (Z.eqb_neq _ _) N0), (proj2 (Z.eqb_neq _ _) N2),
      (proj2 (Z.eqb_neq _ _) N3), (proj2 (Z.eqb_neq _ _) N4),
      (proj2 (Z.eqb_neq _ _) N6).
    cbn [orb]. repeat step. rewrite run_setattr. reflexivity.
Qed.

Lemma bKGD_with_header_witness :
  let c := PNGChunk.init 45 (str "bKGD")
             [x00; xff; x00; x80; x00; x01] 0 in
  let h : heap :=
    <[2%positive := IHDR_object 8 (PNGChunk.data (chunk_at png_IHDR 8))]>
      (<[1%positive := chunk_object c]> ∅) in
  attr (snd (new bKGD_init (VRef 2%positive) (VRef 1%positive) h))
    (VRef 3%positive) "value" = Some (VTuple [VInt 255; VInt 128; VInt 1]).
Proof.
  intros c h.
  rewrite (proj1 (proj2 (proj2
             (bKGD_with_header h 1%positive 2%positive c
                (IHDR_object 8 (PNGChunk.data (chunk_at png_IHDR 8))) 2
                eq_refl eq_refl eq_refl)))
             (or_introl eq_refl) ltac:(discriminate)).
  reflexivity.
Defined.

(** ** The text chunks *)

Lemma at_offset_any (data : bytes) (o k : Z) (t : bytes) :
  at_offset data o t -> 0 <= k ->
  at_offset data (o + k) (skipn (Z.to_nat k) t).
Proof.
  intros [Ho E] Hk. split; [lia|].
  rewrite Z2Nat.inj_add by lia.
  now rewrite Nat.add_comm, <- skipn_skipn, E.
Qed.

Lemma run_decompress_ok `{Zlib} (s t : bytes) (h : heap) :
  zlib_decompress s = Some t -> decompress s h = (Ok t, h).
Proof. intros E. unfold decompress. now rewrite E. Qed.

Lemma run_decompress_fail `{Zlib} (s : bytes) (h : heap) :
  zlib_decompress s = None -> decompress s h = (Raise zlib_error, h).
Proof. intros E. unfold decompress. now rewrite E. Qed.

(** X13: [tEXt] splits the payload at its first zero byte: the bytes before
    it are the keyword (which may be empty), all the bytes after it are the
    text, kept as they are, further zero bytes included.  It returns exactly
    when the payload has a zero byte. *)
Theorem tEXt_payload (h : heap) (r : loc) (c : PNGChunk.t) (ihdr : pyval) :
  h !! r = Some (chunk_object c) ->
  (forall keyword text,
     PNGChunk.data c = keyword ++ x00 :: text ->
     Forall (fun b => ord b <> 0) keyword ->
     new tEXt_init ihdr (VRef r) h =
       (Ok (VRef (fresh (dom h))),
        <[fresh (dom h) :=
            tEXt_object (PNGChunk.offset c) keyword text]> h)) /\
  (forall v h',
     new tEXt_init ihdr (VRef r) h = (Ok v, h') ->
     exists keyword text,
       PNGChunk.data c = keyword ++ x00 :: text /\
       Forall (fun b => ord b <> 0) keyword).
Proof.
  intros Hr. pose proof (fresh_other h r _ Hr) as Hne.
  pose proof (at_offset_start (PNGChunk.data c)) as A0. split.
  - intros keyword text Hd Fk. rewrite Hd in A0 at 2.
    pose proof (at_offset_field _ _ _ _ A0) as A1.
    rewrite new_unfold. unfold tEXt_init.
    rewrite (run_prologue h r _ c Hr Hne). run_set.
    erewrite bind_ok; [|apply (cur_cstring _ _ _ _ _ _ _ _ _ A0 Fk)].
    erewrite bind_ok; [|apply (cur_from _ _ _ _ A1)].
    rewrite run_setattr. reflexivity.
  - intros v h'. rewrite new_unfold. unfold tEXt_init.
    rewrite (run_prologue h r _ c Hr Hne). run_set.
    destruct (cstring (PNGChunk.data c)) as [[keyword text]|] eqn:C0;
      [|raised cur_cstring_fail].
    destruct (cstring_inv _ _ _ C0) as [D0 Fk].
    intros _. exists keyword, text. auto.
Qed.

Lemma tEXt_payload_witness :
  let c := PNGChunk.init 8 (str "tEXt")
             (str "Title" ++ x00 :: str "a" ++ x00 :: str "b") 0 in
  let h : heap := <[1%positive := chunk_object c]> ∅ in
  new tEXt_init VNone (VRef 1%positive) h =
    (Ok (VRef 2%positive),
     <[2%positive := tEXt_object 8 (str "Title") (str "a" ++ x00 :: str "b")]>
       h).
Proof.
  intros c h.
  apply (proj1 (tEXt_payload h 1%positive c VNone eq_refl)
           (str "Title") (str "a" ++ x00 :: str "b") eq_refl).
  repeat constructor; discriminate.
Defined.

(** X14: [zTXt] takes the bytes before the first zero byte as the keyword,
    passes over one byte (the compression method, which it does not look
    at) and gives the rest to [zlib.decompress]: the text is what comes out,
    and a [zlib.error] is raised as it is.  When nothing follows the zero
    byte, it is the empty string that goes to [zlib.decompress]. *)
Theorem zTXt_payload `{Zlib} (h : heap) (r : loc) (c : PNGChunk.t)
  (ihdr : pyval) (keyword rest : bytes) :
  h !! r = Some (chunk_object c) ->
  PNGChunk.data c = keyword ++ x00 :: rest ->
  Forall (fun b => ord b <> 0) keyword ->
  (forall text,
     zlib_decompress (skipn 1 rest) = Some text ->
     new zTXt_init ihdr (VRef r) h =
       (Ok (VRef (fresh (dom h))),
        <[fresh (dom h) :=
            zTXt_object (PNGChunk.offset c) keyword text]> h)) /\
  (zlib_decompress (skipn 1 rest) = None ->
   fst (new zTXt_init ihdr (VRef r) h) = Raise zlib_error).
Proof.
  intros Hr Hd Fk. pose proof (fresh_other h r _ Hr) as Hne.
  pose proof (at_offset_start (PNGChunk.data c)) as A0.
  rewrite Hd in A0 at 2.
  pose proof (at_offset_field _ _ _ _ A0) as A1.
  pose proof (at_offset_any _ _ 1 _ A1 ltac:(lia)) as A2.
  split.
  - intros text E. rewrite new_unfold. unfold zTXt_init.
    rewrite (run_prologue h r _ c Hr Hne). run_set.
    erewrite bind_ok; [|apply (cur_cstring _ _ _ _ _ _ _ _ _ A0 Fk)].
    erewrite bind_ok; [|apply (cur_from _ _ _ _ A2)].
    erewrite bind_ok; [|apply run_decompress_ok; exact E].
    rewrite run_setattr. reflexivity.
  - intros E. rewrite new_unfold. unfold zTXt_init.
    rewrite (run_prologue h r _ c Hr Hne). run_set.
    erewrite bind_ok; [|apply (cur_cstring _ _ _ _ _ _ _ _ _ A0 Fk)].
    erewrite bind_ok; [|apply (cur_from _ _ _ _ A2)].
    erewrite bind_raise; [|apply run_decompress_fail; exact E].
    reflexivity.
Qed.

Lemma zTXt_payload_witness :
  let c := PNGChunk.init 8 (str "zTXt")
             (str "Comment" ++ x00 :: x00 ::
              [x78; x9c; xf3; xc8; x04; x00; x00; xfb; x00; xb2]) 0 in
  let h : heap := <[1%positive := chunk_object c]> ∅ in
  new (@zTXt_init zlib_sample) VNone (VRef 1%positive) h =
    (Ok (VRef 2%positive),
     <[2%positive := zTXt_object 8 (str "Comment") (str "Hi")]> h).
Proof.
  intros c h.
  refine (proj1 (@zTXt_payload zlib_sample h 1%positive c VNone (str "Comment")
                   (x00 :: [x78; x9c; xf3; xc8; x04; x00; x00; xfb; x00; xb2])
                   eq_refl eq_refl _) (str "Hi") eq_refl).
  repeat constructor; discriminate.
Defined.

(** X15: [iCCP] takes the bytes before the first zero byte as the profile
    name, passes over the byte that follows the zero byte, takes the NEXT
    byte as the compression method and what follows it as the profile.  A
    profile whose method byte is zero goes through [zlib.decompress] (whose
    [zlib.error] is raised as it is); with any other method byte the bytes
    are kept as they are.  With fewer than two bytes after the zero byte it
    raises [IndexError]. *)
Theorem iCCP_payload `{Zlib} (h : heap) (r : loc) (c : PNGChunk.t)
  (ihdr : pyval) (name rest : bytes) :
  h !! r = Some (chunk_object c) ->
  PNGChunk.data c = name ++ x00 :: rest ->
  Forall (fun b => ord b <> 0) name ->
  (len rest < 2 ->
   fst (new iCCP_init ihdr (VRef r) h) =
     Raise (IndexError "string index out of range")) /\
  (forall skipped method profile,
     rest = skipped :: method :: profile ->
     (ord method <> 0 ->
      new iCCP_init ihdr (VRef r) h =
        (Ok (VRef (fresh (dom h))),
         <[fresh (dom h) :=
             iCCP_object (PNGChunk.offset c) name (ord method) profile]> h)) /\
     (ord method = 0 ->
      forall inflated,
        zlib_decompress profile = Some inflated ->
        new iCCP_init ihdr (VRef r) h =
          (Ok (VRef (fresh (dom h))),
           <[fresh (dom h) :=
               iCCP_object (PNGChunk.offset c) name 0 inflated]> h)) /\
     (ord method = 0 ->
      zlib_decompress profile = None ->
      fst (new iCCP_init ihdr (VRef r) h) = Raise zlib_error)).
Proof.
  intros Hr Hd Fn. pose proof (fresh_other h r _ Hr) as Hne.
  pose proof (at_offset_start (PNGChunk.data c)) as A0.
  rewrite Hd in A0 at 2.
  pose proof (at_offset_field _ _ _ _ A0) as A1.
  split.
  - intros Hl.
    pose proof (at_offset_any _ _ 1 _ A1 ltac:(lia)) as A2.
    assert (E : skipn (Z.to_nat 1) rest = []).
    { destruct rest as [|a [|b t]]; try reflexivity.
      unfold len in Hl. cbn [length] in Hl. lia. }
    rewrite E in A2.
    rewrite new_unfold. unfold iCCP_init.
    rewrite (run_prologue h r _ c Hr Hne). run_set.
    erewrite bind_ok; [|apply (cur_cstring _ _ _ _ _ _ _ _ _ A0 Fn)].
    erewrite bind_raise; [|apply (cur_B_fail _ _ _ A2)].
    reflexivity.
  - intros skipped method profile ->.
    pose proof (at_offset_next _ _ _ _ A1) as A2.
    pose proof (at_offset_next _ _ _ _ A2) as A3.
    split; [|split].
    + intros Nz. rewrite new_unfold. unfold iCCP_init.
      rewrite (run_prologue h r _ c Hr Hne). run_set.
      erewrite bind_ok; [|apply (cur_cstring _ _ _ _ _ _ _ _ _ A0 Fn)].
      erewrite bind_ok; [|apply (cur_B _ _ _ _ _ A2)]. run_set.
      erewrite bind_ok; [|apply (cur_from _ _ _ _ A3)]. run_set.
      rewrite (proj2 (Z.eqb_neq _ _) Nz). reflexivity.
    + intros Z0 inflated E. rewrite new_unfold. unfold iCCP_init.
      rewrite (run_prologue h r _ c Hr Hne). run_set.
      erewrite bind_ok; [|apply (cur_cstring _ _ _ _ _ _ _ _ _ A0 Fn)].
      erewrite bind_ok; [|apply (cur_B _ _ _ _ _ A2)]. run_set.
      erewrite bind_ok; [|apply (cur_from _ _ _ _ A3)]. run_set.
      rewrite Z0. cbn [Z.eqb].
      erewrite bind_ok; [|apply run_decompress_ok; exact E].
      rewrite run_setattr, insert_insert_eq. reflexivity.
    + intros Z0 E. rewrite new_unfold. unfold iCCP_init.
      rewrite (run_prologue h r _ c Hr Hne). run_set.
      erewrite bind_ok; [|apply (cur_cstring _ _ _ _ _ _ _ _ _ A0 Fn)].
      erewrite bind_ok; [|apply (cur_B _ _ _ _ _ A2)]. run_set.
      erewrite bind_ok; [|apply (cur_from _ _ _ _ A3)]. run_set.
      rewrite Z0. cbn [Z.eqb].
      erewrite bind_raise; [|apply run_decompress_fail; exact E].
      reflexivity.
Qed.

Lemma iCCP_payload_witness :
  let c := PNGChunk.init 8 (str "iCCP")
             (str "icc" ++ x00 :: x00 :: x78 :: [x9c; x01]) 0 in
  let h : heap := <[1%positive := chunk_object c]> ∅ in
  new (@iCCP_init zlib_sample) VNone (VRef 1%positive) h =
    (Ok (VRef 2%positive),
     <[2%positive := iCCP_object 8 (str "icc") 120 [x9c; x01]]> h).
Proof.
  intros c h.
  refine (proj1 (proj2 (@iCCP_payload zlib_sample h 1%positive c VNone
                          (str "icc") (x00 :: x78 :: [x9c; x01])
                          eq_refl eq_refl _)
                   x00 x78 [x9c; x01] eq_refl) _).
  - repeat constructor; discriminate.
  - discriminate.
Defined.

(** X16: [iTXt] reads, in this order, a keyword up to a zero byte, a flag
    byte, a method byte, a language tag up to a zero byte, a translated
    keyword up to a zero byte, and the text, which is the rest.  The text
    goes through [zlib.decompress] only when the flag byte is 1 and the
    method byte is 0 (a [zlib.error] is raised as it is); otherwise it is
    kept as it is. *)
Theorem iTXt_payload `{Zlib} (h : heap) (r : loc) (c : PNGChunk.t)
  (ihdr : pyval) (keyword : bytes) (flag method : byte)
  (language_tag translate_keyword text : bytes) :
  h !! r = Some (chunk_object c) ->
  PNGChunk.data c =
    keyword ++ x00 :: flag :: method
      :: language_tag ++ x00 :: translate_keyword ++ x00 :: text ->
  Forall (fun b => ord b <> 0) keyword ->
  Forall (fun b => ord b <> 0) language_tag ->
  Forall (fun b => ord b <> 0) translate_keyword ->
  let built text :=
    (Ok (VRef (fresh (dom h))),
     <[fresh (dom h) :=
         iTXt_object (PNGChunk.offset c) keyword (ord flag =? 1) (ord method)
           language_tag translate_keyword text]> h) in
  ((ord flag =? 1) && (ord method =? 0) = false ->
   new iTXt_init ihdr (VRef r) h = built text) /\
  ((ord flag =? 1) && (ord method =? 0) = true ->
   forall inflated,
     zlib_decompress text = Some inflated ->
     new iTXt_init ihdr (VRef r) h = built inflated) /\
  ((ord flag =? 1) && (ord method =? 0) = true ->
   zlib_decompress text = None ->
   fst (new iTXt_init ihdr (VRef r) h) = Raise zlib_error).
Proof.
  intros Hr Hd Fk Fl Ft built. pose proof (fresh_other h r _ Hr) as Hne.
  pose proof (at_offset_start (PNGChunk.data c)) as A0.
  rewrite Hd in A0 at 2.
  pose proof (at_offset_field _ _ _ _ A0) as A1.
  pose proof (at_offset_next _ _ _ _ A1) as A2.
  pose proof (at_offset_next _ _ _ _ A2) as A3.
  pose proof (at_offset_field _ _ _ _ A3) as A4.
  pose proof (at_offset_field _ _ _ _ A4) as A5.
  assert (P :
    new iTXt_init ihdr (VRef r) h =
    match
      (if (ord flag =? 1) && (ord method =? 0)
       then bind (decompress text) (fun text =>
              setattr (fresh (dom h)) "data" (VStr text))
       else ret tt)
      (<[fresh (dom h) :=
           iTXt_object (PNGChunk.offset c) keyword (ord flag =? 1)
             (ord method) language_tag translate_keyword text]> h)
    with
    | (Ok _, h') => (Ok (VRef (fresh (dom h))), h')
    | (Raise e, h') => (Raise e, h')
    end).
  { rewrite new_unfold. unfold iTXt_init.
    rewrite (run_prologue h r _ c Hr Hne). run_set.
    erewrite bind_ok; [|apply (cur_cstring _ _ _ _ _ _ _ _ _ A0 Fk)].
    erewrite bind_ok; [|apply (cur_B _ _ _ _ _ A1)]. run_set.
    erewrite bind_ok; [|apply (cur_B _ _ _ _ _ A2)]. run_set.
    run_set.
    erewrite bind_ok; [|apply (cur_cstring _ _ _ _ _ _ _ _ _ A3 Fl)].
    run_set.
    erewrite bind_ok; [|apply (cur_cstring _ _ _ _ _ _ _ _ _ A4 Ft)].
    erewrite bind_ok; [|apply (cur_from _ _ _ _ A5)]. run_set.
    reflexivity. }
  rewrite P. clear P. split; [|split].
  - intros ->. reflexivity.
  - intros -> inflated E.
    erewrite bind_ok; [|apply run_decompress_ok; exact E].
    unfold iTXt_object at 1. rewrite run_setattr, insert_insert_eq.
    reflexivity.
  - intros -> E.
    erewrite bind_raise; [|apply run_decompress_fail; exact E].
    reflexivity.
Qed.

Lemma iTXt_payload_witness :
  let c := PNGChunk.init 8 (str "iTXt")
             (str "Title" ++ x00 :: x00 :: x00
                :: str "en" ++ x00 :: str "Titel" ++ x00 :: str "PNG") 0 in
  let h : heap := <[1%positive := chunk_object c]> ∅ in
  new (@iTXt_init zlib_sample) VNone (VRef 1%positive) h =
    (Ok (VRef 2%positive),
     <[2%positive :=
         iTXt_object 8 (str "Title") false 0 (str "en") (str "Titel")
           (str "PNG")]> h).
Proof.
  intros c h.
  refine (proj1 (@iTXt_payload zlib_sample h 1%positive c VNone
                   (str "Title") x00 x00 (str "en") (str "Titel") (str "PNG")
                   eq_refl eq_refl _ _ _) eq_refl);
    repeat constructor; discriminate.
Defined.

(** ** Equal strings *)

Lemma str_eqb_eq (s t : bytes) : str_eqb s t = true <-> s = t.
Proof.
  revert t. induction s as [|b s IH]; intros [|c t]; cbn [str_eqb];
    try (split; (reflexivity || discriminate)).
  rewrite andb_true_iff. split.
  - intros [E F]. apply Byte.byte_dec_bl in E. apply IH in F. now subst.
  - intros [= -> ->]. split; [now apply Byte.byte_dec_lb|now apply IH].
Qed.

(** ** What every instance has *)

Create HintDb keeps.

Lemma keeps_ret {A} (self : loc) (name : string) (a : A) :
  keeps self name (ret a).
Proof. now intros h v E. Qed.

Lemma keeps_raise {A} (self : loc) (name : string) (e : exn) :
  keeps self name (raise e : M A).
Proof. now intros h v E. Qed.

Lemma keeps_lift {A} (self : loc) (name : string) (x : result A) :
  keeps self name (lift x).
Proof. now intros h v E. Qed.

Lemma keeps_bind {A B} (self : loc) (name : string) (m : M A)
  (k : A -> M B) :
  keeps self name m -> (forall a, keeps self name (k a)) ->
  keeps self name (bind m k).
Proof.
  intros Hm Hk h v E. unfold bind. specialize (Hm h v E).
  destruct (m h) as [[a|e] h']; cbn [snd] in *; [now apply Hk|exact Hm].
Qed.

Lemma keeps_getattr (self : loc) (name : string) (o : pyval) (n : string) :
  keeps self name (getattr o n).
Proof.
  intros h v E. unfold getattr. destruct o; try exact E.
  now destruct (h !! l ≫= _).
Qed.

Lemma keeps_setattr (self l : loc) (name n : string) (x : pyval) :
  n <> name -> keeps self name (setattr l n x).
Proof.
  intros Hn h v E. unfold setattr, attr in *. cbn [snd].
  rewrite lookup_alter. case_decide as D; [|exact E].
  subst l. destruct (h !! self) as [ob|]; [|discriminate].
  cbn in *. now rewrite lookup_insert_ne.
Qed.

Lemma keeps_as_str (self : loc) (name : string) (v : pyval) :
  keeps self name (as_str v).
Proof. destruct v; (apply keeps_ret || apply keeps_raise). Qed.

#[local] Hint Resolve keeps_ret keeps_raise keeps_lift keeps_getattr
  keeps_as_str : keeps.

#[local] Hint Extern 1 (keeps _ _ (setattr _ _ _)) =>
  apply keeps_setattr; discriminate : keeps.

Ltac keeps :=
  repeat first
    [ apply keeps_bind; [|intros ?]
    | match goal with
      | |- keeps _ _ (if ?b then _ else _) => destruct b
      | |- keeps _ _ (match ?v with _ => _ end) => destruct v
      end
    | solve [auto with keeps] ].

Lemma keeps_getitem (self : loc) (name : string) (data : pyval) (i : Z) :
  keeps self name (getitem data i).
Proof. unfold getitem. keeps. Qed.

Lemma keeps_getslice (self : loc) (name : string) (data : pyval) (lo hi : Z) :
  keeps self name (getslice data lo hi).
Proof. unfold getslice. keeps. Qed.

Lemma keeps_getslice_from (self : loc) (name : string) (data : pyval)
  (lo : Z) :
  keeps self name (getslice_from data lo).
Proof. unfold getslice_from. keeps. Qed.

#[local] Hint Resolve keeps_getitem keeps_getslice keeps_getslice_from
  : keeps.

Lemma keeps_unpack_B_at (self : loc) (name : string) (data : pyval) (i : Z) :
  keeps self name (unpack_B_at data i).
Proof. unfold unpack_B_at. keeps. Qed.

Lemma keeps_unpack_I_at (self : loc) (name : string) (data : pyval)
  (lo hi : Z) :
  keeps self name (unpack_I_at data lo hi).
Proof. unfold unpack_I_at. keeps. Qed.

Lemma keeps_unpack_H_at (self : loc) (name : string) (data : pyval)
  (lo hi : Z) :
  keeps self name (unpack_H_at data lo hi).
Proof. unfold unpack_H_at. keeps. Qed.

Lemma keeps_decompress `{Zlib} (self : loc) (name : string) (s : bytes) :
  keeps self name (decompress s).
Proof. unfold decompress. keeps. Qed.

Lemma keeps_read_cstring (self l : loc) (name field : string) (rest : bytes) :
  field <> name ->
  forall offset, keeps self name (read_cstring l field rest offset).
Proof.
  intros Hn.
  induction rest as [|c rest IH]; intros offset; cbn [read_cstring]; keeps.
  now apply keeps_setattr.
Qed.

Lemma keeps_while_cstring (self l : loc) (name field : string) (data : pyval)
  (offset : Z) :
  field <> name -> keeps self name (while_cstring l field data offset).
Proof.
  intros Hn. unfold while_cstring. keeps. now apply keeps_read_cstring.
Qed.

#[local] Hint Resolve keeps_unpack_B_at keeps_unpack_I_at keeps_unpack_H_at
  keeps_decompress : keeps.

#[local] Hint Extern 1 (keeps _ _ (while_cstring _ _ _ _)) =>
  apply keeps_while_cstring; discriminate : keeps.

#[local] Hint Extern 1 (keeps _ _ (read_cstring _ _ _ _)) =>
  apply keeps_read_cstring; discriminate : keeps.

(** Every class of the registry starts with [Parser.__init__], called with
    the type the class is registered under and the offset of the chunk, and
    goes on with code that leaves [type] and [offset] alone. *)
Lemma chunk_parser_shape `{Zlib} (key : bytes) (cls : parser_class) :
  In (key, cls) chunk_parser ->
  exists rest : loc -> pyval -> pyval -> M unit,
    (forall self ihdr chunk,
       cls self ihdr chunk =
         bind (getattr chunk "offset") (fun offset =>
           bind (Parser_init self key offset) (fun _ =>
             rest self ihdr chunk))) /\
    (forall self ihdr chunk name,
       name = "type"%string \/ name = "offset"%string ->
       keeps self name (rest self ihdr chunk)).
Proof.
  intros Hin. unfold chunk_parser in Hin. cbn [In] in Hin.
  repeat (destruct Hin as [Hin|Hin];
          [injection Hin as <- <-|]); [..|contradiction].
  all: eexists; split; [intros self ihdr chunk; reflexivity|].
  all: intros self ihdr chunk name [-> | ->]; keeps.
Qed.

(** X17: whatever class of the registry builds an instance from a chunk, the
    instance is a new one, its [type] is the type the class is registered
    under and its [offset] is the offset of the chunk. *)
Theorem instance_type_offset `{Zlib} (key : bytes) (cls : parser_class)
  (h h' : heap) (r : loc) (c : PNGChunk.t) (ihdr v : pyval) :
  In (key, cls) chunk_parser ->
  h !! r = Some (chunk_object c) ->
  new cls ihdr (VRef r) h = (Ok v, h') ->
  v = VRef (fresh (dom h)) /\
  h !! fresh (dom h) = None /\
  attr h' v "type" = Some (VStr key) /\
  attr h' v "offset" = Some (VInt (PNGChunk.offset c)).
Proof.
  intros Hin Hr. pose proof (fresh_other h r _ Hr) as Hne.
  destruct (chunk_parser_shape key cls Hin) as (rest & Hcls & Hkeeps).
  rewrite new_unfold, Hcls.
  rewrite (bind_ok _ _ _ _ _ (run_chunk_offset h r _ c Hr Hne ∅)).
  rewrite (bind_ok _ _ _ _ _ (run_Parser_init h _ ∅ _ _)).
  set (h1 := <[fresh (dom h) := _]> h).
  pose proof (Hkeeps (fresh (dom h)) ihdr (VRef r) "type"%string
                (or_introl eq_refl) h1 (VStr key)) as Kt.
  pose proof (Hkeeps (fresh (dom h)) ihdr (VRef r) "offset"%string
                (or_intror eq_refl) h1 (VInt (PNGChunk.offset c))) as Ko.
  destruct (rest (fresh (dom h)) ihdr (VRef r) h1) as [[[]|e] h2];
    [|discriminate].
  intros [= <- <-]. cbn [snd] in Kt, Ko.
  split; [reflexivity|]. split.
  - apply not_elem_of_dom. apply is_fresh.
  - split; [apply Kt|apply Ko]; unfold attr, h1;
      rewrite lookup_insert_eq; reflexivity.
Qed.

Lemma instance_type_offset_witness :
  let c := PNGChunk.init 57 (str "gAMA") [x00; x00; xb1; x8f] 0 in
  let h : heap := <[1%positive := chunk_object c]> ∅ in
  attr (snd (new gAMA_init VNone (VRef 1%positive) h)) (VRef 2%positive)
    "type" = Some (VStr (str "gAMA")) /\
  attr (snd (new gAMA_init VNone (VRef 1%positive) h)) (VRef 2%positive)
    "offset" = Some (VInt 57).
Proof.
  intros c h.
  destruct (@instance_type_offset zlib_refuses (str "gAMA") gAMA_init h
              (snd (new gAMA_init VNone (VRef 1%positive) h)) 1%positive c
              VNone (VRef 2%positive))
    as (_ & _ & T & O); [do 11 right; left; reflexivity|reflexivity
                        |reflexivity|].
  split; [exact T|exact O].
Defined.

(** ** The errors of the decoders *)

Create HintDb errors.

Lemma no_ParseError_ret {A} (a : A) : no_ParseError (ret a).
Proof. intros h e E. discriminate E. Qed.

Lemma no_ParseError_raise {A} (e : exn) :
  is_ParseError e = false -> no_ParseError (raise e : M A).
Proof. intros He h e' E. now injection E as <-. Qed.

Lemma no_ParseError_lift {A} (x : result A) :
  (forall e, x = Raise e -> is_ParseError e = false) ->
  no_ParseError (lift x).
Proof. intros Hx h e E. now apply Hx. Qed.

Lemma no_ParseError_bind {A B} (m : M A) (k : A -> M B) :
  no_ParseError m -> (forall a, no_ParseError (k a)) ->
  no_ParseError (bind m k).
Proof.
  intros Hm Hk h e. unfold bind. specialize (Hm h).
  destruct (m h) as [[a|e'] h']; cbn [fst] in *.
  - apply Hk.
  - intros [= <-]. now apply Hm.
Qed.

Lemma no_ParseError_getattr (o : pyval) (name : string) :
  no_ParseError (getattr o name).
Proof.
  intros h e. unfold getattr.
  destruct o; try (intros [= <-]; reflexivity).
  destruct (h !! l ≫= _); [discriminate|]. now intros [= <-].
Qed.

Lemma no_ParseError_setattr (self : loc) (name : string) (v : pyval) :
  no_ParseError (setattr self name v).
Proof. intros h e E. discriminate E. Qed.

Lemma no_ParseError_as_str (v : pyval) : no_ParseError (as_str v).
Proof.
  destruct v; first [apply no_ParseError_ret
                    |now apply no_ParseError_raise].
Qed.

Lemma sized_error (n : Z) (s : bytes) (e : exn) :
  sized n s = Raise e -> is_ParseError e = false.
Proof.
  unfold sized. destruct (len s =? n); [discriminate|]. now intros [= <-].
Qed.

Lemma index_error (s : bytes) (i : Z) (e : exn) :
  index s i = Raise e -> is_ParseError e = false.
Proof.
  unfold index. destruct (_ <? 0); [now intros [= <-]|].
  destruct (nth_error s _); [discriminate|]. now intros [= <-].
Qed.

(** The functions of [struct] raise [struct.error] only. *)
Lemma unpack_I_error (s : bytes) (e : exn) :
  unpack_I s = Raise e -> is_ParseError e = false.
Proof.
  unfold unpack_I, rbind. destruct (sized 4 s) eqn:S; [discriminate|].
  intros [= <-]. exact (sized_error _ _ _ S).
Qed.

Lemma unpack_H_error (s : bytes) (e : exn) :
  unpack_H s = Raise e -> is_ParseError e = false.
Proof.
  unfold unpack_H, rbind. destruct (sized 2 s) eqn:S; [discriminate|].
  intros [= <-]. exact (sized_error _ _ _ S).
Qed.

Lemma unpack_HHH_error (s : bytes) (e : exn) :
  unpack_HHH s = Raise e -> is_ParseError e = false.
Proof.
  unfold unpack_HHH, rbind. destruct (sized 6 s) eqn:S; [discriminate|].
  intros [= <-]. exact (sized_error _ _ _ S).
Qed.

Lemma unpack_B_error (c : byte) (e : exn) :
  unpack_B c = Raise e -> is_ParseError e = false.
Proof. discriminate. Qed.

#[local] Hint Resolve no_ParseError_ret no_ParseError_getattr
  no_ParseError_setattr no_ParseError_as_str : errors.

#[local] Hint Extern 1 (no_ParseError (raise _)) =>
  apply no_ParseError_raise; reflexivity : errors.

#[local] Hint Extern 1 (no_ParseError (lift _)) =>
  apply no_ParseError_lift; intros ?;
  first [ apply index_error | apply unpack_I_error | apply unpack_H_error
        | apply unpack_HHH_error | apply unpack_B_error ] : errors.

Ltac errors :=
  repeat first
    [ apply no_ParseError_bind; [|intros ?]
    | match goal with
      | |- no_ParseError (if ?b then _ else _) => destruct b
      | |- no_ParseError (match zlib_decompress ?s with _ => _ end) =>
          destruct (zlib_decompress s)
      end
    | solve [auto with errors] ].

Lemma no_ParseError_read_cstring (self : loc) (name : string) (rest : bytes) :
  forall offset, no_ParseError (read_cstring self name rest offset).
Proof.
  induction rest as [|c rest IH]; intros offset; cbn [read_cstring]; errors.
Qed.

#[local] Hint Resolve no_ParseError_read_cstring : errors.

(** X18: the only [ParseError] that a decoder raises is the one of [bKGD]
    without a header.  Every other failure of a class of the registry, on
    whatever chunk and header, is an error of Python or of its library,
    which the driver's [except ParseError] does not catch. *)
Theorem decoders_ParseError `{Zlib} (key : bytes) (cls : parser_class)
  (h : heap) (ihdr chunk : pyval) (e : exn) :
  In (key, cls) chunk_parser ->
  key <> str "bKGD" \/ ihdr <> VNone ->
  fst (new cls ihdr chunk h) = Raise e ->
  is_ParseError e = false.
Proof.
  intros Hin Hk.
  assert (P : no_ParseError (cls (fresh (dom h)) ihdr chunk)).
  { unfold chunk_parser in Hin. cbn [In] in Hin.
    repeat (destruct Hin as [Hin|Hin];
            [injection Hin as <- <-|]); [..|contradiction].
    - unfold IHDR_init, Parser_init, unpack_I_at, unpack_B_at, getitem,
        getslice. errors.
    - unfold sRGB_init, Parser_init, unpack_B_at, getitem. errors.
    - assert (ihdr <> VNone) by (destruct Hk; [congruence|assumption]).
      unfold bKGD_init, Parser_init, unpack_B_at, unpack_H_at, getitem,
        getslice.
      destruct ihdr; [congruence|..]; errors.
    - unfold pHYs_init, Parser_init, unpack_I_at, unpack_B_at, getitem,
        getslice. errors.
    - unfold tIME_init, Parser_init, unpack_H_at, unpack_B_at, getitem,
        getslice. errors.
    - unfold iCCP_init, Parser_init, while_cstring, unpack_B_at, getitem,
        getslice_from, decompress. errors.
    - unfold tEXt_init, Parser_init, while_cstring, getslice_from. errors.
    - unfold zTXt_init, Parser_init, while_cstring, getslice_from,
        decompress. errors.
    - unfold iTXt_init, Parser_init, while_cstring, unpack_B_at, getitem,
        getslice_from, decompress. errors.
    - unfold pCAL_init, Parser_init, while_cstring, unpack_I_at,
        unpack_B_at, getitem, getslice, getslice_from. errors.
    - unfold cHRM_init, Parser_init, unpack_I_at, getslice. errors.
    - unfold gAMA_init, Parser_init, unpack_I_at, getslice. errors. }
  rewrite new_unfold. specialize (P (<[fresh (dom h) := ∅]> h) e).
  destruct (cls _ ihdr chunk _) as [[[]|e'] h']; [discriminate|].
  intros [= <-]. now apply P.
Qed.

Lemma decoders_ParseError_witness :
  let c := PNGChunk.init 8 (str "IHDR") (str "short") 0 in
  let h : heap := <[1%positive := chunk_object c]> ∅ in
  fst (new IHDR_init VNone (VRef 1%positive) h) =
    Raise (struct_error "unpack requires a string argument of length 4") /\
  is_ParseError
    (struct_error "unpack requires a string argument of length 4") = false.
Proof.
  intros c h. split; [reflexivity|].
  apply (@decoders_ParseError zlib_refuses (str "IHDR") IHDR_init h VNone
           (VRef 1%positive)).
  - left. reflexivity.
  - left. discriminate.
  - reflexivity.
Defined.

(** * The driver *)

Lemma run_pHYs (h : heap) (r : loc) (c : PNGChunk.t) (ihdr : pyval) :
  h !! r = Some (chunk_object c) ->
  9 <= len (PNGChunk.data c) ->
  new pHYs_init ihdr (VRef r) h =
    (Ok (VRef (fresh (dom h))),
     <[fresh (dom h) :=
         pHYs_object ihdr (PNGChunk.offset c) (PNGChunk.data c)]> h).
Proof.
  intros Hr Hlen. pose proof (fresh_other h r _ Hr) as Hne.
  rewrite new_unfold. unfold pHYs_init.
  rewrite (run_prologue h r _ c Hr Hne).
  run_set. run_I. run_set. run_I. run_set. run_B.
  rewrite run_setattr. reflexivity.
Qed.

(** [print p] for a [pHYs] instance that was given no header. *)
Lemma pHYs_str_no_header (h : heap) (l : loc) (ob : object) (v : pyval) :
  ob !! "unit" = Some v ->
  ob !! "ihdr" = Some VNone ->
  pHYs_str (VRef l) (<[l := ob]> h) = (Raise AttributeError, <[l := ob]> h).
Proof.
  intros Hu Hi. unfold pHYs_str.
  rewrite (bind_ok _ _ _ _ _ (run_self_attr h l ob "unit" v Hu)).
  rewrite (bind_ok _ _ _ _ _ (run_self_attr h l ob "ihdr" VNone Hi)).
  reflexivity.
Qed.

Lemma for_body_pHYs_no_header `{Zlib} (args : Namespace) (png : PNGFile.t)
  (c : PNGChunk.t) (h : heap) (out : list printed) :
  PNGChunk.type c = str "pHYs" ->
  9 <= len (PNGChunk.data c) ->
  exists h',
    for_body args png VNone c (h, out) =
      (Raise AttributeError,
       (h', out ++ [print_chunk (VRef (fresh (dom h)))])).
Proof.
  intros Ht Hlen. unfold for_body. rewrite Ht.
  rewrite (io_bind_ok _ _ _ _ _ (io_run (yield c) h _ out _ eq_refl)).
  change (str_eqb (str "pHYs") (str "IHDR")) with false. cbv iota.
  rewrite (io_bind_ok _ _ (_, out) _ VNone eq_refl).
  erewrite io_bind_ok;
    [|apply io_run; cbn [setattr_of]; apply run_setattr].
  rewrite chunk_object_term_color.
  set (c' := PNGChunk.mk _ _ _ _ _ _).
  set (l := fresh (dom h)).
  set (h1 := <[l := chunk_object c']> h).
  assert (Hl : h1 !! l = Some (chunk_object c'))
    by (unfold h1; apply lookup_insert_eq).
  pose proof (run_pHYs h1 l c' VNone Hl Hlen) as Hrun.
  change (chunk_parser_get (str "pHYs")) with (Some pHYs_init).
  change (negb (str_eqb (str "pHYs") (str "IDAT"))) with true.
  cbn [orb].
  set (p := fresh (dom h1)) in *.
  set (ob := pHYs_object VNone (PNGChunk.offset c') (PNGChunk.data c')) in *.
  assert (E : print_chunk_and_p args VNone (VRef l) (str "pHYs")
                (Some pHYs_init) (h1, out) =
              (Raise AttributeError,
               (<[p := <["_dumpdir" := VNone]>
                         (<["verbose" := VBool (verbose args)]>
                         (<["color" := VBool (color args)]> ob))]> h1,
                out ++ [print_chunk (VRef l)]))).
  { unfold print_chunk_and_p.
    rewrite (io_bind_ok (print (print_chunk (VRef l))) _ (h1, out) _ tt
               eq_refl). cbn [fst snd].
    erewrite io_bind_ok; [|apply io_run; exact Hrun].
    erewrite io_bind_ok;
      [|apply io_run; cbn [setattr_of]; apply run_setattr].
    erewrite io_bind_ok;
      [|apply io_run; cbn [setattr_of]; apply run_setattr].
    erewrite io_bind_ok;
      [|apply io_run; cbn [setattr_of]; apply run_setattr].
    apply io_bind_raise. apply io_run.
    change (str_of (str "pHYs")) with pHYs_str.
    now apply pHYs_str_no_header
      with (v := VInt (byte_at (PNGChunk.data c') 8)). }
  exists (<[p := <["_dumpdir" := VNone]>
                   (<["verbose" := VBool (verbose args)]>
                   (<["color" := VBool (color args)]> ob))]> h1).
  destruct (verbose args); (erewrite io_bind_raise; [reflexivity|exact E]).
Qed.


